(** * Geometry derivation of the molecule viewer

    Shallow embedding of the two geometry components of the repository:

    - [src/components/LewisStructure.tsx]: the planar layout (scale
      derivation, bounding box, padded view box) and the per-bond and
      per-atom SVG primitives (bond lines, lone-pair markers, charge badge);
    - [src/components/Molecule3D.tsx]: [BondMesh], the cylinders of one bond.

    Numbers.  A JavaScript number is modelled by [jsnum]: a real number or
    one of the three special values [Infinity], [-Infinity], [NaN], with the
    IEEE rules for the special values.  The components are read twice.  In
    the modules [JS], [Lewis], [Three] and [Mol3D] the arithmetic on finite
    values is exact: this reading carries the statements that do not depend
    on the size of the coordinates.  In the modules [JS64], [Lewis64],
    [Three64] and [Mol3D64] every operation brings its result into the range
    of an IEEE double, so that a finite product or sum can be an infinity:
    this reading carries the statements on the scale, the frame and the
    cylinders, together with bounds on the coordinates under which the two
    readings give the same values.  Rounding within the range, underflow
    and the sign of zero are not modelled.
    Fields that the data provider's schema types as INTEGER (indices, bond
    order, lone-pair count, charge, id) are modelled by [Z].

    Output.  The JSX a component returns is modelled by the primitives it
    holds: lists of lines, circles under their transform lists, cylinder
    meshes; [null] is the empty list.  What an SVG transform list does to a
    point is defined next to the primitives.

    Library.  [BondMesh] calls methods of three.js's [Vector3] and
    [Quaternion]; module [Three] models the ones it calls. *)

From Stdlib Require Import Reals Lra RNsatz ZArith Lia List String Ascii Bool.
Import ListNotations.

Open Scope R_scope.

(** ** JavaScript numbers *)

Inductive jsnum : Type :=
| Fin (r : R)
| PInf
| NInf
| NaN.

Definition finite (a : jsnum) : Prop :=
  match a with Fin _ => True | _ => False end.

(** The real value of a finite number (0 for the special values; only used
    under a finiteness fact). *)
Definition val (a : jsnum) : R :=
  match a with Fin r => r | _ => 0 end.

Definition ofZ (z : Z) : jsnum := Fin (IZR z).

(** The operators and the [Math] functions the components use. *)
Module JS.

(** Sign of a real as a number: used where IEEE picks the sign of an
    infinite result. *)
Definition signed_inf (r : R) : jsnum :=
  if Rlt_dec 0 r then PInf else if Rlt_dec r 0 then NInf else NaN.

Definition neg (a : jsnum) : jsnum :=
  match a with
  | Fin r => Fin (- r)
  | PInf => NInf
  | NInf => PInf
  | NaN => NaN
  end.

Definition add (a b : jsnum) : jsnum :=
  match a, b with
  | Fin x, Fin y => Fin (x + y)
  | NaN, _ | _, NaN => NaN
  | PInf, NInf | NInf, PInf => NaN
  | PInf, _ | _, PInf => PInf
  | NInf, _ | _, NInf => NInf
  end.

Definition sub (a b : jsnum) : jsnum := add a (neg b).

Definition mul (a b : jsnum) : jsnum :=
  match a, b with
  | Fin x, Fin y => Fin (x * y)
  | NaN, _ | _, NaN => NaN
  | Fin x, PInf | PInf, Fin x => signed_inf x
  | Fin x, NInf | NInf, Fin x => signed_inf (- x)
  | PInf, PInf | NInf, NInf => PInf
  | PInf, NInf | NInf, PInf => NInf
  end.

(** [x / 0] is an infinity with the sign of [x], [0 / 0] is [NaN]. *)
Definition div (a b : jsnum) : jsnum :=
  match a, b with
  | Fin x, Fin y => if Req_dec_T y 0 then signed_inf x else Fin (x / y)
  | NaN, _ | _, NaN => NaN
  | Fin _, PInf | Fin _, NInf => Fin 0
  | PInf, Fin y => if Rlt_dec y 0 then NInf else PInf
  | NInf, Fin y => if Rlt_dec y 0 then PInf else NInf
  | _, _ => NaN
  end.

(** [Math.sqrt] *)
Definition sqrt (a : jsnum) : jsnum :=
  match a with
  | Fin x => if Rlt_dec x 0 then NaN else Fin (R_sqrt.sqrt x)
  | PInf => PInf
  | NInf | NaN => NaN
  end.

(** [a < b]; every comparison with [NaN] is false. *)
Definition ltb (a b : jsnum) : bool :=
  match a, b with
  | Fin x, Fin y => if Rlt_dec x y then true else false
  | NaN, _ | _, NaN => false
  | NInf, Fin _ | NInf, PInf | Fin _, PInf => true
  | _, _ => false
  end.

Definition gtb (a b : jsnum) : bool := ltb b a.

(** [Math.min] and [Math.max]: [NaN] as soon as one argument is [NaN]. *)
Definition min (a b : jsnum) : jsnum :=
  match a, b with
  | NaN, _ | _, NaN => NaN
  | _, _ => if ltb b a then b else a
  end.

Definition max (a b : jsnum) : jsnum :=
  match a, b with
  | NaN, _ | _, NaN => NaN
  | _, _ => if ltb a b then b else a
  end.

(** Truthiness of a number, as [||] tests it: [0] and [NaN] are falsy. *)
Definition truthy (a : jsnum) : bool :=
  match a with
  | Fin x => if Req_dec_T x 0 then false else true
  | NaN => false
  | _ => true
  end.

(** [a || b] on numbers. *)
Definition or_else (a b : jsnum) : jsnum := if truthy a then a else b.

(** [Math.abs] *)
Definition abs (a : jsnum) : jsnum :=
  match a with
  | Fin x => Fin (Rabs x)
  | PInf | NInf => PInf
  | NaN => NaN
  end.

(** [a === b] on numbers. *)
Definition eqb (a b : jsnum) : bool :=
  match a, b with
  | Fin x, Fin y => if Req_dec_T x y then true else false
  | PInf, PInf | NInf, NInf => true
  | _, _ => false
  end.

Definition PI : jsnum := Fin Rtrigo1.PI.

End JS.

Declare Scope js_scope.
Delimit Scope js_scope with js.
Bind Scope js_scope with jsnum.
Infix "+" := JS.add : js_scope.
Infix "-" := JS.sub : js_scope.
Infix "*" := JS.mul : js_scope.
Infix "/" := JS.div : js_scope.
Notation "- a" := (JS.neg a) : js_scope.
Infix "<?" := JS.ltb (at level 70) : js_scope.
Infix ">?" := JS.gtb (at level 70) : js_scope.

(** ** Data model ([types.ts]) *)

Record Atom : Type := {
  id : Z;
  element : string;
  x2d : jsnum;
  y2d : jsnum;
  x3d : jsnum;
  y3d : jsnum;
  z3d : jsnum;
  lonePairs : Z;
  charge : Z
}.

Record Bond : Type := {
  source : Z;
  target : Z;
  order : Z
}.

Record MoleculeData : Type := {
  formula : string;
  name : string;
  description : string;
  molecularGeometry : string;
  hybridization : string;
  resonanceInfo : string;
  atoms : list Atom;
  bonds : list Bond
}.

(** [arr[i]]: [undefined] (here [None]) for a negative or too large index. *)
Definition index {A : Type} (arr : list A) (i : Z) : option A :=
  if (i <? 0)%Z then None else nth_error arr (Z.to_nat i).

(** [String.prototype.toUpperCase] on ASCII letters. *)
Definition upper_ascii (c : ascii) : ascii :=
  let n := nat_of_ascii c in
  if (97 <=? n)%nat && (n <=? 122)%nat then ascii_of_nat (n - 32) else c.

Fixpoint toUpperCase (s : string) : string :=
  match s with
  | EmptyString => EmptyString
  | String c s' => String (upper_ascii c) (toUpperCase s')
  end.

(** ** The planar layout ([LewisStructure.tsx], the [useMemo] block) *)

Module Lewis.

(** [{...atom, x, y}] *)
Record ScaledAtom : Type := {
  atom : Atom;
  x : jsnum;
  y : jsnum
}.

(** The four numbers of the [viewBox] template string. *)
Record ViewBox : Type := {
  boxX : jsnum;
  boxY : jsnum;
  boxW : jsnum;
  boxH : jsnum
}.

Record Layout : Type := {
  normalizedAtoms : list ScaledAtom;
  layoutBonds : list Bond;
  viewBox : ViewBox
}.

Definition TARGET_BOND_LENGTH : jsnum := Fin 60.
Definition PADDING : jsnum := Fin 40.

(** Body of the first [forEach]: one bond against the running
    [(totalLength, bondCount)]. *)
Definition addBond (ats : list Atom) (st : jsnum * nat) (bond : Bond)
  : jsnum * nat :=
  match index ats (source bond), index ats (target bond) with
  | Some s, Some t =>
      let dx := (x2d s - x2d t)%js in
      let dy := (y2d s - y2d t)%js in
      ((fst st + JS.sqrt (dx * dx + dy * dy))%js, S (snd st))
  | _, _ => st
  end.

Definition bondTotals (ats : list Atom) (bs : list Bond) : jsnum * nat :=
  fold_left (addBond ats) bs (Fin 0, 0%nat).

Definition avgLen (ats : list Atom) (bs : list Bond) : jsnum :=
  let '(totalLength, bondCount) := bondTotals ats bs in
  if (0 <? bondCount)%nat then (totalLength / Fin (INR bondCount))%js
  else Fin 1.

Definition scaleOf (avg : jsnum) : jsnum :=
  if (avg >? Fin (1 / 1000))%js then (TARGET_BOND_LENGTH / avg)%js else Fin 60.

Definition scale (ats : list Atom) (bs : list Bond) : jsnum :=
  scaleOf (avgLen ats bs).

Definition scaleAtom (sc : jsnum) (a : Atom) : ScaledAtom :=
  {| atom := a; x := (x2d a * sc)%js; y := (y2d a * sc)%js |}.

(** The bounding-box loop: [(minX, maxX, minY, maxY)]. *)
Definition bboxStep (b : jsnum * jsnum * jsnum * jsnum) (a : ScaledAtom)
  : jsnum * jsnum * jsnum * jsnum :=
  let '(minX, maxX, minY, maxY) := b in
  (JS.min minX (x a), JS.max maxX (x a), JS.min minY (y a), JS.max maxY (y a)).

Definition bbox (sas : list ScaledAtom) : jsnum * jsnum * jsnum * jsnum :=
  fold_left bboxStep sas (PInf, NInf, PInf, NInf).

Definition layout (data : MoleculeData) : Layout :=
  match atoms data with
  | [] =>
      {| normalizedAtoms := [];
         layoutBonds := [];
         viewBox := {| boxX := Fin 0; boxY := Fin 0;
                       boxW := Fin 100; boxH := Fin 100 |} |}
  | _ :: _ =>
      let sc := scale (atoms data) (bonds data) in
      let scaledAtoms := map (scaleAtom sc) (atoms data) in
      let '(minX, maxX, minY, maxY) := bbox scaledAtoms in
      {| normalizedAtoms := scaledAtoms;
         layoutBonds := bonds data;
         viewBox := {| boxX := (minX - PADDING)%js;
                       boxY := (minY - PADDING)%js;
                       boxW := ((maxX - minX) + PADDING * Fin 2)%js;
                       boxH := ((maxY - minY) + PADDING * Fin 2)%js |} |}
  end.

(** ** Bond lines (the [bonds.map] of the SVG) *)

Record Line : Type := {
  x1 : jsnum;
  y1 : jsnum;
  x2 : jsnum;
  y2 : jsnum
}.

(** The lines drawn for one bond; [null] and the empty fall-through are the
    empty list, a [<g>] of lines is the list of its lines in order. *)
Definition bondLines (nas : list ScaledAtom) (bond : Bond) : list Line :=
  match index nas (source bond), index nas (target bond) with
  | Some start, Some end_ =>
      let dx := (x end_ - x start)%js in
      let dy := (y end_ - y start)%js in
      let len := JS.sqrt (dx * dx + dy * dy)%js in
      if (len <? Fin 1)%js then []
      else
        let nx := (- dy / len)%js in
        let ny := (dx / len)%js in
        let offset := Fin 3 in
        if (order bond =? 1)%Z then
          [ {| x1 := x start; y1 := y start; x2 := x end_; y2 := y end_ |} ]
        else if (order bond =? 2)%Z then
          [ {| x1 := (x start + nx * offset)%js;
               y1 := (y start + ny * offset)%js;
               x2 := (x end_ + nx * offset)%js;
               y2 := (y end_ + ny * offset)%js |};
            {| x1 := (x start - nx * offset)%js;
               y1 := (y start - ny * offset)%js;
               x2 := (x end_ - nx * offset)%js;
               y2 := (y end_ - ny * offset)%js |} ]
        else if (order bond =? 3)%Z then
          [ {| x1 := x start; y1 := y start; x2 := x end_; y2 := y end_ |};
            {| x1 := (x start + nx * offset * Fin (5 / 2))%js;
               y1 := (y start + ny * offset * Fin (5 / 2))%js;
               x2 := (x end_ + nx * offset * Fin (5 / 2))%js;
               y2 := (y end_ + ny * offset * Fin (5 / 2))%js |};
            {| x1 := (x start - nx * offset * Fin (5 / 2))%js;
               y1 := (y start - ny * offset * Fin (5 / 2))%js;
               x2 := (x end_ - nx * offset * Fin (5 / 2))%js;
               y2 := (y end_ - ny * offset * Fin (5 / 2))%js |} ]
        else []
  | _, _ => []
  end.

(** ** Atom decorations (the [normalizedAtoms.map] of the SVG) *)

Definition isHydrogen (a : ScaledAtom) : bool :=
  String.eqb (toUpperCase (element (atom a))) "H".

Definition radius (a : ScaledAtom) : jsnum :=
  if isHydrogen a then Fin 10 else Fin 14.

(** An SVG [<circle>]; [cx] and [cy] default to 0, and a circle without a
    stroke has the stroke width 0. *)
Record Circle : Type := {
  cx : jsnum;
  cy : jsnum;
  r : jsnum;
  strokeWidth : jsnum
}.

(** The items of an SVG [transform] attribute. *)
Inductive Transform : Type :=
| Translate (tx ty : jsnum)
| Rotate (deg : jsnum).

(** One lone pair: [<g transform="rotate(..) translate(0, -dist)">] around
    two dots. *)
Record PairMarker : Type := {
  markerTransform : list Transform;
  dots : list Circle
}.

(** [<g transform="translate(0, -(radius + 4))">] around the markers. *)
Record LonePairGroup : Type := {
  groupTransform : list Transform;
  markers : list PairMarker
}.

(** The angle of marker [i] of an atom with [k] lone pairs. *)
Definition pairAngle (k : Z) (i : nat) : jsnum :=
  (Fin (INR i) * Fin 2 * JS.PI / ofZ (Z.max k 1) - JS.PI / Fin 2)%js.

Definition pairMarker (k : Z) (i : nat) : PairMarker :=
  let angle := pairAngle k i in
  let dist := Fin 6 in
  {| markerTransform :=
       [ Rotate (angle * Fin 180 / JS.PI)%js; Translate (Fin 0) (- dist)%js ];
     dots := [ {| cx := Fin (- (5 / 2)); cy := Fin 0; r := Fin (9 / 5);
                  strokeWidth := Fin 0 |};
               {| cx := Fin (5 / 2); cy := Fin 0; r := Fin (9 / 5);
                  strokeWidth := Fin 0 |} ] |}.

(** [showLonePairs && atom.lonePairs > 0 && (...)];
    [Array.from({ length: k })] has the indices [0 .. k-1]. *)
Definition lonePairGroup (showLonePairs : bool) (a : ScaledAtom)
  : option LonePairGroup :=
  if showLonePairs && (0 <? lonePairs (atom a))%Z then
    Some {| groupTransform := [ Translate (Fin 0) (- (radius a + Fin 4))%js ];
            markers := map (pairMarker (lonePairs (atom a)))
                           (seq 0 (Z.to_nat (lonePairs (atom a)))) |}
  else None.

(** [showCharges && atom.charge !== 0 && (...)]: the badge group's transform
    and its circle. *)
Definition chargeBadge (showCharges : bool) (a : ScaledAtom)
  : option (list Transform * Circle) :=
  if showCharges && negb (charge (atom a) =? 0)%Z then
    Some ([ Translate (radius a - Fin 4)%js (- (radius a - Fin 4))%js ],
          {| cx := Fin 0; cy := Fin 0; r := Fin 6; strokeWidth := Fin 1 |})
  else None.

(** The background circle of the atom, inside
    [<g transform="translate(atom.x, atom.y)">]. *)
Definition atomCircle (a : ScaledAtom) : Circle :=
  {| cx := Fin 0; cy := Fin 0; r := radius a; strokeWidth := Fin 2 |}.

Definition atomTransform (a : ScaledAtom) : list Transform :=
  [ Translate (x a) (y a) ].

(** *** Meaning of the emitted SVG

    A transform list maps the coordinates of a nested element to those of
    the enclosing one: the items apply from the last to the first;
    [rotate(d)] turns by [d] degrees, [translate(tx, ty)] shifts. *)

Definition point : Type := (R * R)%type.

Definition applyTransform (t : Transform) (p : point) : point :=
  match t with
  | Translate tx ty => (fst p + val tx, snd p + val ty)
  | Rotate deg =>
      let th := val deg * Rtrigo1.PI / 180 in
      (cos th * fst p - sin th * snd p, sin th * fst p + cos th * snd p)
  end.

Definition applyTransforms (ts : list Transform) (p : point) : point :=
  fold_right applyTransform p ts.

(** A circle placed in the coordinates outside of its enclosing groups:
    its centre and the radius it covers, half the stroke included
    (rotations and translations keep the radius). *)
Record Disc : Type := {
  centre : point;
  rad : R
}.

Definition place (ts : list Transform) (c : Circle) : Disc :=
  {| centre := applyTransforms ts (val (cx c), val (cy c));
     rad := val (r c) + val (strokeWidth c) / 2 |}.

(** The dots of the lone pairs of an atom, in the atom's own frame (the
    inside of its [translate(atom.x, atom.y)] group). *)
Definition lonePairDiscs (showLonePairs : bool) (a : ScaledAtom) : list Disc :=
  match lonePairGroup showLonePairs a with
  | Some g =>
      flat_map (fun m =>
                  map (place (groupTransform g ++ markerTransform m)) (dots m))
               (markers g)
  | None => []
  end.

Definition chargeDiscs (showCharges : bool) (a : ScaledAtom) : list Disc :=
  match chargeBadge showCharges a with
  | Some (ts, c) => [ place ts c ]
  | None => []
  end.

(** Every circle drawn for an atom, in the coordinates of the view box. *)
Definition atomDiscs (showLonePairs showCharges : bool) (a : ScaledAtom)
  : list Disc :=
  map (fun d => {| centre := applyTransforms (atomTransform a) (centre d);
                   rad := rad d |})
      (place [] (atomCircle a)
       :: lonePairDiscs showLonePairs a ++ chargeDiscs showCharges a).

End Lewis.

(** ** The vector and quaternion operations of three.js that [BondMesh]
    calls ([Vector3] and [Quaternion] of the library, on [jsnum]) *)

Module Three.

Record Vector3 : Type := {
  vx : jsnum;
  vy : jsnum;
  vz : jsnum
}.

Record Quaternion : Type := {
  qx : jsnum;
  qy : jsnum;
  qz : jsnum;
  qw : jsnum
}.

Definition addVectors (a b : Vector3) : Vector3 :=
  {| vx := (vx a + vx b)%js; vy := (vy a + vy b)%js; vz := (vz a + vz b)%js |}.

Definition subVectors (a b : Vector3) : Vector3 :=
  {| vx := (vx a - vx b)%js; vy := (vy a - vy b)%js; vz := (vz a - vz b)%js |}.

Definition add (v w : Vector3) : Vector3 := addVectors v w.

Definition multiplyScalar (v : Vector3) (s : jsnum) : Vector3 :=
  {| vx := (vx v * s)%js; vy := (vy v * s)%js; vz := (vz v * s)%js |}.

Definition divideScalar (v : Vector3) (s : jsnum) : Vector3 :=
  multiplyScalar v (Fin 1 / s)%js.

Definition dot (v w : Vector3) : jsnum :=
  (vx v * vx w + vy v * vy w + vz v * vz w)%js.

Definition length (v : Vector3) : jsnum :=
  JS.sqrt (vx v * vx v + vy v * vy v + vz v * vz v)%js.

(** [divideScalar(this.length() || 1)] *)
Definition normalize (v : Vector3) : Vector3 :=
  divideScalar v (JS.or_else (length v) (Fin 1)).

Definition qlength (q : Quaternion) : jsnum :=
  JS.sqrt (qx q * qx q + qy q * qy q + qz q * qz q + qw q * qw q)%js.

Definition qnormalize (q : Quaternion) : Quaternion :=
  let l := qlength q in
  if JS.eqb l (Fin 0) then
    {| qx := Fin 0; qy := Fin 0; qz := Fin 0; qw := Fin 1 |}
  else
    let l := (Fin 1 / l)%js in
    {| qx := (qx q * l)%js; qy := (qy q * l)%js;
       qz := (qz q * l)%js; qw := (qw q * l)%js |}.

(** [Number.EPSILON] *)
Definition Number_EPSILON : jsnum := Fin (/ 2 ^ 52).

Section Tolerance.

(** The threshold under which [setFromUnitVectors] takes its two arguments
    for opposite.  Releases of the library differ in this constant
    ([Number.EPSILON] in the ones that compare with it), so it is a
    parameter of the model; the properties below hold for every value in
    (0, 1]. *)
Variable EPS : jsnum.

Definition setFromUnitVectors (vFrom vTo : Vector3) : Quaternion :=
  let r := (dot vFrom vTo + Fin 1)%js in
  if (r <? EPS)%js then
    (* vFrom and vTo point in opposite directions *)
    let r := Fin 0 in
    if (JS.abs (vx vFrom) >? JS.abs (vz vFrom))%js then
      qnormalize {| qx := (- vy vFrom)%js; qy := vx vFrom; qz := Fin 0; qw := r |}
    else
      qnormalize {| qx := Fin 0; qy := (- vz vFrom)%js; qz := vy vFrom; qw := r |}
  else
    qnormalize
      {| qx := (vy vFrom * vz vTo - vz vFrom * vy vTo)%js;
         qy := (vz vFrom * vx vTo - vx vFrom * vz vTo)%js;
         qz := (vx vFrom * vy vTo - vy vFrom * vx vTo)%js;
         qw := r |}.

End Tolerance.

Definition applyQuaternion (v : Vector3) (q : Quaternion) : Vector3 :=
  let tx := (Fin 2 * (qy q * vz v - qz q * vy v))%js in
  let ty := (Fin 2 * (qz q * vx v - qx q * vz v))%js in
  let tz := (Fin 2 * (qx q * vy v - qy q * vx v))%js in
  {| vx := (vx v + qw q * tx + qy q * tz - qz q * ty)%js;
     vy := (vy v + qw q * ty + qz q * tx - qx q * tz)%js;
     vz := (vz v + qw q * tz + qx q * ty - qy q * tx)%js |}.

End Three.

(** ** The cylinders of one bond ([Molecule3D.tsx]) *)

Module Mol3D.

Import Three.

(** A [<mesh>] with a [<cylinderGeometry>]: its key, placement and the
    geometry arguments [radiusTop, radiusBottom, height, radialSegments]. *)
Record Mesh : Type := {
  key : string;
  position : Vector3;
  quaternion : Quaternion;
  radiusTop : jsnum;
  radiusBottom : jsnum;
  height : jsnum;
  radialSegments : Z
}.

Definition cylinder (k : string) (pos : Vector3) (q : Quaternion)
  (radius len : jsnum) : Mesh :=
  {| key := k; position := pos; quaternion := q;
     radiusTop := radius; radiusBottom := radius; height := len;
     radialSegments := 16 |}.

Definition up : Vector3 := {| vx := Fin 0; vy := Fin 1; vz := Fin 0 |}.
Definition unitX : Vector3 := {| vx := Fin 1; vy := Fin 0; vz := Fin 0 |}.

Definition position3d (a : Atom) : Vector3 :=
  {| vx := x3d a; vy := y3d a; vz := z3d a |}.

Section Bond.

(** The tolerance of the library's [setFromUnitVectors]. *)
Variable EPS : jsnum.

Definition BondMesh (start end_ : Vector3) (order : Z) : list Mesh :=
  let mid := multiplyScalar (addVectors start end_) (Fin (1 / 2)) in
  let diff := subVectors end_ start in
  let length := Three.length diff in
  let quaternion := setFromUnitVectors EPS up (normalize diff) in
  let radius := Fin (8 / 100) in
  let offset := Fin (15 / 100) in
  if (order =? 1)%Z then
    [ cylinder "1" mid quaternion radius length ]
  else if (order =? 2)%Z then
    let localX := applyQuaternion unitX quaternion in
    let pos1 := add mid (multiplyScalar localX offset) in
    let pos2 := add mid (multiplyScalar localX (- offset)%js) in
    [ cylinder "d1" pos1 quaternion radius length;
      cylinder "d2" pos2 quaternion radius length ]
  else
    let localX := applyQuaternion unitX quaternion in
    let pos1 := add mid (multiplyScalar localX offset) in
    let pos2 := add mid (multiplyScalar localX (- offset)%js) in
    [ cylinder "t1" mid quaternion radius length;
      cylinder "t2" pos1 quaternion radius length;
      cylinder "t3" pos2 quaternion radius length ].

(** The body of [data.bonds.map] in [Molecule3D]: [null] is the empty list. *)
Definition bondMeshes (ats : list Atom) (bond : Bond) : list Mesh :=
  match index ats (source bond), index ats (target bond) with
  | Some startAtom, Some endAtom =>
      BondMesh (position3d startAtom) (position3d endAtom) (order bond)
  | _, _ => []
  end.

End Bond.

End Mol3D.

(** ** Notions of the specification *)

Module Spec.

Import Lewis.

Definition finite2d (a : Atom) : Prop := finite (x2d a) /\ finite (y2d a).

Definition finite3d (a : Atom) : Prop :=
  finite (x3d a) /\ finite (y3d a) /\ finite (z3d a).

Definition finiteXY (a : ScaledAtom) : Prop := finite (x a) /\ finite (y a).

(** Both indices of the bond resolve to an element. *)
Definition resolves {A : Type} (arr : list A) (b : Bond) : bool :=
  match index arr (source b), index arr (target b) with
  | Some _, Some _ => true
  | _, _ => false
  end.

Definition resolvedBonds {A : Type} (arr : list A) (bs : list Bond)
  : list Bond :=
  filter (resolves arr) bs.

(** Euclidean distance in the plane. *)
Definition dist (p q : point) : R :=
  sqrt ((fst p - fst q) * (fst p - fst q) + (snd p - snd q) * (snd p - snd q)).

Definition raw2d (a : Atom) : point := (val (x2d a), val (y2d a)).

Definition pos (a : ScaledAtom) : point := (val (x a), val (y a)).

(** Length of a bond under a choice of positions (0 when it does not
    resolve). *)
Definition bondLength {A : Type} (position : A -> point) (arr : list A)
  (b : Bond) : R :=
  match index arr (source b), index arr (target b) with
  | Some s, Some t => dist (position s) (position t)
  | _, _ => 0
  end.

Definition sumR (l : list R) : R := fold_right Rplus 0 l.

(** Mean length of the bonds that resolve. *)
Definition meanLength {A : Type} (position : A -> point) (arr : list A)
  (bs : list Bond) : R :=
  sumR (map (bondLength position arr) (resolvedBonds arr bs))
  / INR (List.length (resolvedBonds arr bs)).

(** Step 1 of the layout: the mean raw bond length, 1 when no bond
    resolves. *)
Definition meanRawLength (ats : list Atom) (bs : list Bond) : R :=
  match resolvedBonds ats bs with
  | [] => 1
  | _ :: _ => meanLength raw2d ats bs
  end.

(** Step 2: target length over mean length, the default 60 when the mean is
    not above 0.001. *)
Definition scaleFactor (ats : list Atom) (bs : list Bond) : R :=
  let m := meanRawLength ats bs in
  if Rlt_dec (1 / 1000) m then 60 / m else 60.

(** Step 3: the position scaled by one factor on both axes. *)
Definition scaled (s : R) (a : Atom) : ScaledAtom :=
  {| atom := a; x := Fin (val (x2d a) * s); y := Fin (val (y2d a) * s) |}.

End Spec.

(** ** Molecules used as concrete inputs *)

Module Examples.

Definition mkAtom (i : Z) (el : string) (px py : R) : Atom :=
  {| id := i; element := el;
     x2d := Fin px; y2d := Fin py;
     x3d := Fin px; y3d := Fin py; z3d := Fin 0;
     lonePairs := 0; charge := 0 |}.

Definition mkBond (s t o : Z) : Bond :=
  {| source := s; target := t; order := o |}.

Definition mkData (ats : list Atom) (bs : list Bond) : MoleculeData :=
  {| formula := EmptyString; name := EmptyString; description := EmptyString;
     molecularGeometry := EmptyString; hybridization := EmptyString;
     resonanceInfo := EmptyString;
     atoms := ats; bonds := bs |}.

(** A bent molecule with two bonds of raw length 5 and one bond whose target
    does not exist. *)
Definition bentO : Atom :=
  {| id := 0; element := "O";
     x2d := Fin 0; y2d := Fin 0; x3d := Fin 0; y3d := Fin 0; z3d := Fin 0;
     lonePairs := 2; charge := (-1) |}.
Definition bentH1 : Atom := mkAtom 1 "H" 3 4.
Definition bentH2 : Atom := mkAtom 2 "H" (-3) 4.
Definition bent : MoleculeData :=
  mkData [ bentO; bentH1; bentH2 ]
         [ mkBond 0 1 1; mkBond 0 2 1; mkBond 0 7 1 ].

(** Two atoms half a thousandth apart, joined by a single bond. *)
Definition tinyA : Atom := mkAtom 0 "H" 0 0.
Definition tinyB : Atom := mkAtom 1 "H" (1 / 2000) 0.
Definition tinyBond : Bond := mkBond 0 1 1.
Definition tiny : MoleculeData := mkData [ tinyA; tinyB ] [ tinyBond ].

(** Two atoms at the same place, joined by a double bond. *)
Definition overlapA : Atom := mkAtom 0 "C" 1 2.
Definition overlapB : Atom := mkAtom 1 "O" 1 2.
Definition overlapBond : Bond := mkBond 0 1 2.
Definition overlap : MoleculeData := mkData [ overlapA; overlapB ] [ overlapBond ].

(** An atom with one lone pair, at the origin of the normalized frame. *)
Definition onePair : Lewis.ScaledAtom :=
  {| Lewis.atom :=
       {| id := 0; element := "N";
          x2d := Fin 0; y2d := Fin 0; x3d := Fin 0; y3d := Fin 0; z3d := Fin 0;
          lonePairs := 1; charge := 0 |};
     Lewis.x := Fin 0; Lewis.y := Fin 0 |}.

End Examples.

(** ** Bond lines as the specification words them *)

Module SpecLines.

Import Lewis Spec.

Definition segment (p q : point) : Line :=
  {| x1 := Fin (fst p); y1 := Fin (snd p); x2 := Fin (fst q); y2 := Fin (snd q) |}.

(** The unit normal of the direction from [p] to [q]: the direction turned
    by a quarter turn, over its length. *)
Definition unitNormal (p q : point) : point :=
  (- (snd q - snd p) / dist q p, (fst q - fst p) / dist q p).

Definition shift (k : R) (n p : point) : point :=
  (fst p + k * fst n, snd p + k * snd n).

(** The segment from [p] to [q] moved by the signed distance [k] along the
    unit normal. *)
Definition offsetSegment (k : R) (p q : point) : Line :=
  segment (shift k (unitNormal p q) p) (shift k (unitNormal p q) q).

(** Order 1: the centre segment.  Order 2: two segments at distance 3 on
    either side.  Order 3: the centre segment and two segments at distance
    3 * 2.5 on either side. *)
Definition bondSegments (o : Z) (p q : point) : list Line :=
  if (o =? 1)%Z then [ segment p q ]
  else if (o =? 2)%Z then [ offsetSegment 3 p q; offsetSegment (- 3) p q ]
  else if (o =? 3)%Z then
    [ segment p q;
      offsetSegment (3 * (5 / 2)) p q;
      offsetSegment (- (3 * (5 / 2))) p q ]
  else [].

End SpecLines.

(** ** Notions for the spatial engine *)

Module Spec3D.

Import Three.

(** A vector and a quaternion with real components. *)
Definition vec3 (a b c : R) : Vector3 :=
  {| vx := Fin a; vy := Fin b; vz := Fin c |}.

Definition quat (a b c d : R) : Quaternion :=
  {| qx := Fin a; qy := Fin b; qz := Fin c; qw := Fin d |}.

Definition finiteV (v : Vector3) : Prop :=
  finite (vx v) /\ finite (vy v) /\ finite (vz v).

Definition finiteQ (q : Quaternion) : Prop :=
  finite (qx q) /\ finite (qy q) /\ finite (qz q) /\ finite (qw q).

Definition finiteMesh (m : Mol3D.Mesh) : Prop :=
  finiteV (Mol3D.position m) /\ finiteQ (Mol3D.quaternion m) /\
  finite (Mol3D.height m) /\
  finite (Mol3D.radiusTop m) /\ finite (Mol3D.radiusBottom m).

(** Euclidean norm of a real triple. *)
Definition norm (a b c : R) : R := sqrt (a * a + b * b + c * c).

(** The quaternion has length 1. *)
Definition unitQ (q : Quaternion) : Prop :=
  val (qx q) * val (qx q) + val (qy q) * val (qy q)
  + val (qz q) * val (qz q) + val (qw q) * val (qw q) = 1.


(** [p] and [p'] are mirror images of each other through the point [m]. *)
Definition mirrored (m p p' : Vector3) : Prop :=
  val (vx p) + val (vx p') = 2 * val (vx m) /\
  val (vy p) + val (vy p') = 2 * val (vy m) /\
  val (vz p) + val (vz p') = 2 * val (vz m).


End Spec3D.

(** ** Extent of the decorations of an atom *)

Module SpecFrame.

(** The largest reach of a drawn circle from its atom's centre along an
    axis: the atom radius 14, the gap 4 to the lone-pair ring, the ring
    radius 6, the half-width 2.5 of a pair and the dot radius 1.8. *)
Definition maxDecorationRadius : R := 14 + 4 + 6 + 5 / 2 + 9 / 5.

(** The closed square of half-side [d] around [c] contains the disc. *)
Definition withinSquare (c : Lewis.point) (d : R) (k : Lewis.Disc) : Prop :=
  fst c - d <= fst (Lewis.centre k) - Lewis.rad k /\
  fst (Lewis.centre k) + Lewis.rad k <= fst c + d /\
  snd c - d <= snd (Lewis.centre k) - Lewis.rad k /\
  snd (Lewis.centre k) + Lewis.rad k <= snd c + d.

(** The open rectangle of the view box contains the closed square of
    half-side [d] around [c]. *)
Definition frameContainsSquare (vb : Lewis.ViewBox) (c : Lewis.point) (d : R)
  : Prop :=
  val (Lewis.boxX vb) < fst c - d /\
  fst c + d < val (Lewis.boxX vb) + val (Lewis.boxW vb) /\
  val (Lewis.boxY vb) < snd c - d /\
  snd c + d < val (Lewis.boxY vb) + val (Lewis.boxH vb).

(** The open rectangle of the view box contains the disc. *)
Definition frameContainsDisc (vb : Lewis.ViewBox) (k : Lewis.Disc) : Prop :=
  val (Lewis.boxX vb) < fst (Lewis.centre k) - Lewis.rad k /\
  fst (Lewis.centre k) + Lewis.rad k < val (Lewis.boxX vb) + val (Lewis.boxW vb) /\
  val (Lewis.boxY vb) < snd (Lewis.centre k) - Lewis.rad k /\
  snd (Lewis.centre k) + Lewis.rad k < val (Lewis.boxY vb) + val (Lewis.boxH vb).

Definition finiteBox (vb : Lewis.ViewBox) : Prop :=
  finite (Lewis.boxX vb) /\ finite (Lewis.boxY vb) /\
  finite (Lewis.boxW vb) /\ finite (Lewis.boxH vb).

End SpecFrame.

(** ** Placement of the lone pairs *)

Module SpecPairs.

Import Lewis.

(** The angle, in radians, by which marker [i] of [k] is turned. *)
Definition theta (k : Z) (i : nat) : R :=
  INR i * (2 * PI / IZR k) - PI / 2.

(** The point of the ring of radius 6 reached from its top point (0, -6) by
    a turn of [th] (SVG coordinates: [y] grows downward). *)
Definition onRing (th : R) : point := (6 * sin th, - (6 * cos th)).

(** The centre of a marker, relative to the centre of the ring. *)
Definition markerCentre (m : PairMarker) : point :=
  applyTransforms (markerTransform m) (0, 0).

(** The centres of the dots of a marker, relative to the centre of the
    ring. *)
Definition dotCentres (m : PairMarker) : list point :=
  map (fun c => applyTransforms (markerTransform m) (val (cx c), val (cy c)))
      (dots m).

(** The centre of the ring, relative to the atom's centre. *)
Definition ringCentre (g : LonePairGroup) : point :=
  applyTransforms (groupTransform g) (0, 0).

(** Straight above the origin. *)
Definition upward (p : point) : Prop := fst p = 0 /\ snd p < 0.

End SpecPairs.

(** ** Bonds used as concrete inputs of the spatial engine *)

Module Examples3D.

Definition origin : Three.Vector3 := Spec3D.vec3 0 0 0.

(** The other end of a bond 1.5 long along the x axis. *)
Definition alongX : Three.Vector3 := Spec3D.vec3 (3 / 2) 0 0.



(** A point with the coordinate 10^308. *)
Definition remote : Three.Vector3 := Spec3D.vec3 (10 ^ 308) 0 0.

End Examples3D.

(** ** The colour table ([types.ts]) and the spheres ([Molecule3D.tsx]) *)

Module Types.

Record CPKColor : Type := {
  color : string;
  radius : jsnum
}.

Definition DEFAULT : CPKColor := {| color := "#FF69B4"; radius := Fin (8 / 10) |}.

(** The object literal [CPK_COLORS], key by key. *)
Definition CPK_COLORS : list (string * CPKColor) :=
  [ ("H"%string, {| color := "#FFFFFF"; radius := Fin (3 / 10) |});
    ("C"%string, {| color := "#909090"; radius := Fin (7 / 10) |});
    ("N"%string, {| color := "#3050F8"; radius := Fin (7 / 10) |});
    ("O"%string, {| color := "#FF0D0D"; radius := Fin (6 / 10) |});
    ("F"%string, {| color := "#90E050"; radius := Fin (5 / 10) |});
    ("CL"%string, {| color := "#1FF01F"; radius := Fin (9 / 10) |});
    ("BR"%string, {| color := "#A62929"; radius := Fin (11 / 10) |});
    ("I"%string, {| color := "#940094"; radius := Fin (13 / 10) |});
    ("HE"%string, {| color := "#D9FFFF"; radius := Fin 1 |});
    ("NE"%string, {| color := "#B3E3F5"; radius := Fin 1 |});
    ("AR"%string, {| color := "#80D1E3"; radius := Fin 1 |});
    ("S"%string, {| color := "#FFFF30"; radius := Fin 1 |});
    ("P"%string, {| color := "#FF8000"; radius := Fin 1 |});
    ("DEFAULT"%string, DEFAULT) ].

(** [table[key]]: the entry of the first pair with that key. *)
Fixpoint lookup (table : list (string * CPKColor)) (key : string)
  : option CPKColor :=
  match table with
  | [] => None
  | (k, c) :: rest => if String.eqb k key then Some c else lookup rest key
  end.

(** [CPK_COLORS[element.toUpperCase()] || CPK_COLORS.DEFAULT], the
    expression both components start from. *)
Definition cpkOf (element : string) : CPKColor :=
  match lookup CPK_COLORS (toUpperCase element) with
  | Some c => c
  | None => DEFAULT
  end.

End Types.

Module Scene3D.

Import Three.

(** The [<group>] of one atom: its position, the arguments of the
    [<sphereGeometry>], the material's colour and the label, present when
    labels are shown. *)
Record AtomGroup : Type := {
  position : Vector3;
  sphereRadius : jsnum;
  widthSegments : Z;
  heightSegments : Z;
  materialColor : string;
  label : option string
}.

Definition AtomMesh (atom : Atom) (showLabel : bool) : AtomGroup :=
  let cpk := Types.cpkOf (element atom) in
  let color := Types.color cpk in
  let radius := (Types.radius cpk * Fin (4 / 10))%js in
  {| position := {| vx := x3d atom; vy := y3d atom; vz := z3d atom |};
     sphereRadius := radius;
     widthSegments := 32;
     heightSegments := 32;
     materialColor := color;
     label := if showLabel then Some (element atom) else None |}.

(** [RotatingGroup]: the callback of [useFrame] on the ref of the group
    ([None] while the ref is not set), holding the group's [rotation.y]. *)
Definition onFrame (ref : option jsnum) (delta : jsnum) : option jsnum :=
  match ref with
  | Some rotationY => Some (rotationY + delta * Fin (1 / 10))%js
  | None => None
  end.

(** The callback over the frames of a run, in order. *)
Definition runFrames (ref : option jsnum) (deltas : list jsnum) : option jsnum :=
  fold_left onFrame deltas ref.

Section Scene.

(** The tolerance of the library's [setFromUnitVectors]. *)
Variable EPS : jsnum.

(** The children of the inner [<group>] of [Molecule3D]: one atom group per
    atom, then one entry per bond. *)
Definition Molecule3D (data : MoleculeData) (showLabels : bool)
  : list AtomGroup * list (list Mol3D.Mesh) :=
  (map (fun atom => AtomMesh atom showLabels) (atoms data),
   map (Mol3D.bondMeshes EPS (atoms data)) (bonds data)).

End Scene.

End Scene3D.

(** ** The rest of the planar view ([LewisStructure.tsx]) *)

Module LewisView.

Import Lewis.

(** The fill of the charge badge and the text it shows. *)
Definition chargeFill (a : ScaledAtom) : string :=
  if (charge (atom a) >? 0)%Z then "#ef4444" else "#3b82f6".

Definition chargeText (a : ScaledAtom) : string :=
  if (charge (atom a) >? 0)%Z then "+" else "-".

(** The whole badge: the group's transform, its circle, the fill and the
    text. *)
Definition chargeBadgeView (showCharges : bool) (a : ScaledAtom)
  : option (list Transform * Circle * string * string) :=
  match chargeBadge showCharges a with
  | Some (ts, c) => Some (ts, c, chargeFill a, chargeText a)
  | None => None
  end.

(** [hoveredAtom === atom.id], on the state [hoveredAtom : number | null]. *)
Definition isHovered (hoveredAtom : option Z) (a : ScaledAtom) : bool :=
  match hoveredAtom with
  | Some h => (h =? id (atom a))%Z
  | None => false
  end.

(** The stroke of the background circle. *)
Definition circleStroke (hoveredAtom : option Z) (a : ScaledAtom) : string :=
  if isHovered hoveredAtom a then "#6366f1" else "transparent".

(** [onMouseEnter] and [onMouseLeave] of an atom's group. *)
Definition onMouseEnter (a : ScaledAtom) : option Z := Some (id (atom a)).
Definition onMouseLeave : option Z := None.

(** [data.atoms.find(a => a.id === hoveredAtom)] *)
Definition findHovered (data : MoleculeData) (h : Z) : option Atom :=
  find (fun a => (id a =? h)%Z) (atoms data).

(** The tooltip: the element, the class of the charge, the charge and the
    lone pairs, each read through [?.] from the atom found; no tooltip while
    nothing is hovered. *)
Record Tooltip : Type := {
  tipElement : option string;
  tipChargeClass : string;
  tipCharge : option Z;
  tipLonePairs : option Z
}.

Definition chargeClass (c : option Z) : string :=
  match c with
  | Some z =>
      if (z >? 0)%Z then "text-red-400"
      else if (z <? 0)%Z then "text-blue-400"
      else "text-slate-300"
  | None => "text-slate-300"
  end.

Definition tooltip (data : MoleculeData) (hoveredAtom : option Z)
  : option Tooltip :=
  match hoveredAtom with
  | Some h =>
      let found := findHovered data h in
      Some {| tipElement := option_map element found;
              tipChargeClass := chargeClass (option_map charge found);
              tipCharge := option_map charge found;
              tipLonePairs := option_map lonePairs found |}
  | None => None
  end.

End LewisView.

(** ** The page ([App]) *)

Module App.

(** The state of the component.  [pending] counts the calls of
    [generateMoleculeData] that have not settled yet; it is not a field of
    the component but of the run. *)
Record State : Type := {
  formula : string;
  loading : bool;
  data : option MoleculeData;
  error : option string;
  showLonePairs : bool;
  showCharges : bool;
  showLabels3D : bool;
  pending : nat
}.

Definition initial : State :=
  {| formula := EmptyString; loading := false; data := None; error := None;
     showLonePairs := true; showCharges := true; showLabels3D := true;
     pending := 0 |}.

Definition failureMessage : string :=
  "Failed to generate molecule. Please check the formula or try again.".

Section Handlers.

(** [String.prototype.trim], a function of the language. *)
Variable trim : string -> string.

(** A string is truthy when it is not empty. *)
Definition truthy (s : string) : bool :=
  match s with EmptyString => false | String _ _ => true end.

(** [handleGenerate] up to its [await]: nothing for a blank formula,
    otherwise the three state updates and the call, whose argument is
    returned. *)
Definition handleGenerate (st : State) : State * option string :=
  if negb (truthy (trim (formula st))) then (st, None)
  else
    ({| formula := formula st; loading := true; data := None; error := None;
        showLonePairs := showLonePairs st; showCharges := showCharges st;
        showLabels3D := showLabels3D st; pending := S (pending st) |},
     Some (trim (formula st))).

(** [handleGenerate] from its [await] on: the call has returned a molecule
    ([Some]) or thrown ([None]); [finally] clears [loading]. *)
Definition settle (outcome : option MoleculeData) (st : State) : State :=
  {| formula := formula st;
     loading := false;
     data := match outcome with Some result => Some result | None => data st end;
     error := match outcome with
              | Some _ => error st
              | None => Some failureMessage
              end;
     showLonePairs := showLonePairs st; showCharges := showCharges st;
     showLabels3D := showLabels3D st; pending := Nat.pred (pending st) |}.

Definition setFormula (s : string) (st : State) : State :=
  {| formula := s; loading := loading st; data := data st; error := error st;
     showLonePairs := showLonePairs st; showCharges := showCharges st;
     showLabels3D := showLabels3D st; pending := pending st |}.

Definition toggleLonePairs (st : State) : State :=
  {| formula := formula st; loading := loading st; data := data st;
     error := error st;
     showLonePairs := negb (showLonePairs st); showCharges := showCharges st;
     showLabels3D := showLabels3D st; pending := pending st |}.

Definition toggleCharges (st : State) : State :=
  {| formula := formula st; loading := loading st; data := data st;
     error := error st;
     showLonePairs := showLonePairs st; showCharges := negb (showCharges st);
     showLabels3D := showLabels3D st; pending := pending st |}.

Definition toggleLabels (st : State) : State :=
  {| formula := formula st; loading := loading st; data := data st;
     error := error st;
     showLonePairs := showLonePairs st; showCharges := showCharges st;
     showLabels3D := negb (showLabels3D st); pending := pending st |}.

(** What the user and the data provider can do to the page. *)
Inductive Event : Type :=
| Type_ (s : string)
| Submit
| Settle (outcome : option MoleculeData)
| ToggleLonePairs
| ToggleCharges
| ToggleLabels.

(** One event on the page.  The form's only submit button is
    [disabled={loading}], so a submission happens only while [loading] is
    false; a call settles only while one is pending. *)
Inductive step : State -> Event -> State -> Prop :=
| step_type s st : step st (Type_ s) (setFormula s st)
| step_submit st :
    loading st = false -> step st Submit (fst (handleGenerate st))
| step_settle outcome st :
    (0 < pending st)%nat -> step st (Settle outcome) (settle outcome st)
| step_lone st : step st ToggleLonePairs (toggleLonePairs st)
| step_charges st : step st ToggleCharges (toggleCharges st)
| step_labels st : step st ToggleLabels (toggleLabels st).

(** The states the page reaches from its first render. *)
Inductive reachable : State -> Prop :=
| reach_initial : reachable initial
| reach_step st ev st' : reachable st -> step st ev st' -> reachable st'.

End Handlers.

(** The three numbers of the header and the statistics panel. *)
Definition bondCount (d : MoleculeData) : nat := List.length (bonds d).

Definition totalAtoms (d : MoleculeData) : nat := List.length (atoms d).

Definition totalLonePairs (d : MoleculeData) : Z :=
  fold_left (fun acc a => (acc + lonePairs a)%Z) (atoms d) 0%Z.

Definition totalCharge (d : MoleculeData) : Z :=
  fold_left (fun acc a => (acc + charge a)%Z) (atoms d) 0%Z.

(** What the page shows of the results: the error banner when [error] is
    set, the results section when [data] is. *)
Definition showsError (st : State) : bool :=
  match error st with Some message => truthy message | None => false end.

Definition showsResults (st : State) : bool :=
  match data st with Some _ => true | None => false end.

(** What is to hold of the page in every state it reaches: one call is
    pending while [loading] is set and none otherwise; nothing is shown
    while loading; a molecule and an error are never there together; the
    only error is the failure message. *)
Definition invariant (st : State) : Prop :=
  pending st = (if loading st then 1%nat else 0%nat) /\
  (loading st = true -> data st = None /\ error st = None) /\
  (data st = None \/ error st = None) /\
  (error st = None \/ error st = Some failureMessage).

End App.

(** ** Aids for stating further properties *)

Module Units.

(** The atom with its raw planar coordinates multiplied by [c]: the same
    drawing in another unit of length. *)
Definition rescaleAtom (c : R) (a : Atom) : Atom :=
  {| id := id a; element := element a;
     x2d := Fin (val (x2d a) * c); y2d := Fin (val (y2d a) * c);
     x3d := x3d a; y3d := y3d a; z3d := z3d a;
     lonePairs := lonePairs a; charge := charge a |}.

Definition rescale (c : R) (d : MoleculeData) : MoleculeData :=
  {| formula := formula d; name := name d; description := description d;
     molecularGeometry := molecularGeometry d;
     hybridization := hybridization d; resonanceInfo := resonanceInfo d;
     atoms := map (rescaleAtom c) (atoms d); bonds := bonds d |}.

(** The two normalized coordinates of an atom. *)
Definition coords (a : Lewis.ScaledAtom) : jsnum * jsnum :=
  (Lewis.x a, Lewis.y a).

(** The point [(px, py)] is finite and inside the open rectangle of the view
    box. *)
Definition inBox (vb : Lewis.ViewBox) (px py : jsnum) : Prop :=
  finite px /\ finite py /\
  val (Lewis.boxX vb) < val px < val (Lewis.boxX vb) + val (Lewis.boxW vb) /\
  val (Lewis.boxY vb) < val py < val (Lewis.boxY vb) + val (Lewis.boxH vb).

(** Squared Euclidean distance of two vectors with finite coordinates. *)
Definition dist2 (v w : Three.Vector3) : R :=
  (val (Three.vx v) - val (Three.vx w)) * (val (Three.vx v) - val (Three.vx w))
  + (val (Three.vy v) - val (Three.vy w)) * (val (Three.vy v) - val (Three.vy w))
  + (val (Three.vz v) - val (Three.vz w)) * (val (Three.vz v) - val (Three.vz w)).

(** Number of pair markers drawn for an atom when lone pairs are shown. *)
Definition markerCount (a : Lewis.ScaledAtom) : nat :=
  match Lewis.lonePairGroup true a with
  | Some g => List.length (Lewis.markers g)
  | None => 0
  end.

End Units.

(** ** Numbers with the range of binary64

    The operators above are exact on finite values.  The ones below add the
    range of an IEEE double: the result of an operation is the exact result
    brought into range, an infinity as soon as its magnitude reaches
    2^1024 - 2^970, the least magnitude that rounds to one.  Comparison,
    negation, [Math.sqrt], [Math.min], [Math.max] and [Math.abs] cannot
    leave the range and are the ones of [JS].  Rounding within the range and
    underflow to zero are not modelled. *)

Module JS64.

Definition OVERFLOW : R := 2 ^ 1024 - 2 ^ 970.

Definition range (a : jsnum) : jsnum :=
  match a with
  | Fin x =>
      if Rle_dec OVERFLOW x then PInf
      else if Rle_dec x (- OVERFLOW) then NInf
      else a
  | _ => a
  end.

Definition add (a b : jsnum) : jsnum := range (JS.add a b).

Definition sub (a b : jsnum) : jsnum := range (JS.sub a b).

Definition mul (a b : jsnum) : jsnum := range (JS.mul a b).

Definition div (a b : jsnum) : jsnum := range (JS.div a b).

End JS64.

Declare Scope js64_scope.
Delimit Scope js64_scope with js64.
Arguments JS64.add (a b)%_js64.
Arguments JS64.sub (a b)%_js64.
Arguments JS64.mul (a b)%_js64.
Arguments JS64.div (a b)%_js64.
Infix "+" := JS64.add : js64_scope.
Infix "-" := JS64.sub : js64_scope.
Infix "*" := JS64.mul : js64_scope.
Infix "/" := JS64.div : js64_scope.
Notation "- a" := (JS.neg a) : js64_scope.
Infix "<?" := JS.ltb (at level 70) : js64_scope.
Infix ">?" := JS.gtb (at level 70) : js64_scope.

(** ** The planar layout and the bond lines, with the range of binary64
    ([LewisStructure.tsx], the same code as in [Lewis]) *)

Module Lewis64.

Definition addBond (ats : list Atom) (st : jsnum * nat) (bond : Bond)
  : jsnum * nat :=
  match index ats (source bond), index ats (target bond) with
  | Some s, Some t =>
      let dx := (x2d s - x2d t)%js64 in
      let dy := (y2d s - y2d t)%js64 in
      ((fst st + JS.sqrt (dx * dx + dy * dy)%js64)%js64, S (snd st))
  | _, _ => st
  end.

Definition bondTotals (ats : list Atom) (bs : list Bond) : jsnum * nat :=
  fold_left (addBond ats) bs (Fin 0, 0%nat).

Definition avgLen (ats : list Atom) (bs : list Bond) : jsnum :=
  let '(totalLength, bondCount) := bondTotals ats bs in
  if (0 <? bondCount)%nat then (totalLength / Fin (INR bondCount))%js64
  else Fin 1.

Definition scaleOf (avg : jsnum) : jsnum :=
  if (avg >? Fin (1 / 1000))%js64
  then (Lewis.TARGET_BOND_LENGTH / avg)%js64 else Fin 60.

Definition scale (ats : list Atom) (bs : list Bond) : jsnum :=
  scaleOf (avgLen ats bs).

Definition scaleAtom (sc : jsnum) (a : Atom) : Lewis.ScaledAtom :=
  {| Lewis.atom := a;
     Lewis.x := (x2d a * sc)%js64; Lewis.y := (y2d a * sc)%js64 |}.

(** The bounding-box loop only compares: it is [Lewis.bbox]. *)
Definition layout (data : MoleculeData) : Lewis.Layout :=
  match atoms data with
  | [] =>
      {| Lewis.normalizedAtoms := [];
         Lewis.layoutBonds := [];
         Lewis.viewBox := {| Lewis.boxX := Fin 0; Lewis.boxY := Fin 0;
                             Lewis.boxW := Fin 100; Lewis.boxH := Fin 100 |} |}
  | _ :: _ =>
      let sc := scale (atoms data) (bonds data) in
      let scaledAtoms := map (scaleAtom sc) (atoms data) in
      let '(minX, maxX, minY, maxY) := Lewis.bbox scaledAtoms in
      {| Lewis.normalizedAtoms := scaledAtoms;
         Lewis.layoutBonds := bonds data;
         Lewis.viewBox :=
           {| Lewis.boxX := (minX - Lewis.PADDING)%js64;
              Lewis.boxY := (minY - Lewis.PADDING)%js64;
              Lewis.boxW := ((maxX - minX) + Lewis.PADDING * Fin 2)%js64;
              Lewis.boxH := ((maxY - minY) + Lewis.PADDING * Fin 2)%js64 |} |}
  end.

Definition bondLines (nas : list Lewis.ScaledAtom) (bond : Bond)
  : list Lewis.Line :=
  match index nas (source bond), index nas (target bond) with
  | Some start, Some end_ =>
      let dx := (Lewis.x end_ - Lewis.x start)%js64 in
      let dy := (Lewis.y end_ - Lewis.y start)%js64 in
      let len := JS.sqrt (dx * dx + dy * dy)%js64 in
      if (len <? Fin 1)%js64 then []
      else
        let nx := (- dy / len)%js64 in
        let ny := (dx / len)%js64 in
        let offset := Fin 3 in
        if (order bond =? 1)%Z then
          [ {| Lewis.x1 := Lewis.x start; Lewis.y1 := Lewis.y start;
               Lewis.x2 := Lewis.x end_; Lewis.y2 := Lewis.y end_ |} ]
        else if (order bond =? 2)%Z then
          [ {| Lewis.x1 := (Lewis.x start + nx * offset)%js64;
               Lewis.y1 := (Lewis.y start + ny * offset)%js64;
               Lewis.x2 := (Lewis.x end_ + nx * offset)%js64;
               Lewis.y2 := (Lewis.y end_ + ny * offset)%js64 |};
            {| Lewis.x1 := (Lewis.x start - nx * offset)%js64;
               Lewis.y1 := (Lewis.y start - ny * offset)%js64;
               Lewis.x2 := (Lewis.x end_ - nx * offset)%js64;
               Lewis.y2 := (Lewis.y end_ - ny * offset)%js64 |} ]
        else if (order bond =? 3)%Z then
          [ {| Lewis.x1 := Lewis.x start; Lewis.y1 := Lewis.y start;
               Lewis.x2 := Lewis.x end_; Lewis.y2 := Lewis.y end_ |};
            {| Lewis.x1 := (Lewis.x start + nx * offset * Fin (5 / 2))%js64;
               Lewis.y1 := (Lewis.y start + ny * offset * Fin (5 / 2))%js64;
               Lewis.x2 := (Lewis.x end_ + nx * offset * Fin (5 / 2))%js64;
               Lewis.y2 := (Lewis.y end_ + ny * offset * Fin (5 / 2))%js64 |};
            {| Lewis.x1 := (Lewis.x start - nx * offset * Fin (5 / 2))%js64;
               Lewis.y1 := (Lewis.y start - ny * offset * Fin (5 / 2))%js64;
               Lewis.x2 := (Lewis.x end_ - nx * offset * Fin (5 / 2))%js64;
               Lewis.y2 := (Lewis.y end_ - ny * offset * Fin (5 / 2))%js64 |} ]
        else []
  | _, _ => []
  end.

End Lewis64.

(** ** The vector and quaternion operations and [BondMesh], with the range
    of binary64 (the same code as in [Three] and [Mol3D]) *)

Module Three64.

Import Three.

Definition addVectors (a b : Vector3) : Vector3 :=
  {| vx := (vx a + vx b)%js64; vy := (vy a + vy b)%js64;
     vz := (vz a + vz b)%js64 |}.

Definition subVectors (a b : Vector3) : Vector3 :=
  {| vx := (vx a - vx b)%js64; vy := (vy a - vy b)%js64;
     vz := (vz a - vz b)%js64 |}.

Definition add (v w : Vector3) : Vector3 := addVectors v w.

Definition multiplyScalar (v : Vector3) (s : jsnum) : Vector3 :=
  {| vx := (vx v * s)%js64; vy := (vy v * s)%js64; vz := (vz v * s)%js64 |}.

Definition divideScalar (v : Vector3) (s : jsnum) : Vector3 :=
  multiplyScalar v (Fin 1 / s)%js64.

Definition dot (v w : Vector3) : jsnum :=
  (vx v * vx w + vy v * vy w + vz v * vz w)%js64.

Definition length (v : Vector3) : jsnum :=
  JS.sqrt (vx v * vx v + vy v * vy v + vz v * vz v)%js64.

Definition normalize (v : Vector3) : Vector3 :=
  divideScalar v (JS.or_else (length v) (Fin 1)).

Definition qlength (q : Quaternion) : jsnum :=
  JS.sqrt (qx q * qx q + qy q * qy q + qz q * qz q + qw q * qw q)%js64.

Definition qnormalize (q : Quaternion) : Quaternion :=
  let l := qlength q in
  if JS.eqb l (Fin 0) then
    {| qx := Fin 0; qy := Fin 0; qz := Fin 0; qw := Fin 1 |}
  else
    let l := (Fin 1 / l)%js64 in
    {| qx := (qx q * l)%js64; qy := (qy q * l)%js64;
       qz := (qz q * l)%js64; qw := (qw q * l)%js64 |}.

Section Tolerance.

(** The tolerance of the library, as in [Three.setFromUnitVectors]. *)
Variable EPS : jsnum.

Definition setFromUnitVectors (vFrom vTo : Vector3) : Quaternion :=
  let r := (dot vFrom vTo + Fin 1)%js64 in
  if (r <? EPS)%js64 then
    let r := Fin 0 in
    if (JS.abs (vx vFrom) >? JS.abs (vz vFrom))%js64 then
      qnormalize {| qx := (- vy vFrom)%js64; qy := vx vFrom; qz := Fin 0; qw := r |}
    else
      qnormalize {| qx := Fin 0; qy := (- vz vFrom)%js64; qz := vy vFrom; qw := r |}
  else
    qnormalize
      {| qx := (vy vFrom * vz vTo - vz vFrom * vy vTo)%js64;
         qy := (vz vFrom * vx vTo - vx vFrom * vz vTo)%js64;
         qz := (vx vFrom * vy vTo - vy vFrom * vx vTo)%js64;
         qw := r |}.

End Tolerance.

Definition applyQuaternion (v : Vector3) (q : Quaternion) : Vector3 :=
  let tx := (Fin 2 * (qy q * vz v - qz q * vy v))%js64 in
  let ty := (Fin 2 * (qz q * vx v - qx q * vz v))%js64 in
  let tz := (Fin 2 * (qx q * vy v - qy q * vx v))%js64 in
  {| vx := (vx v + qw q * tx + qy q * tz - qz q * ty)%js64;
     vy := (vy v + qw q * ty + qz q * tx - qx q * tz)%js64;
     vz := (vz v + qw q * tz + qx q * ty - qy q * tx)%js64 |}.

End Three64.

Module Mol3D64.

Import Three Three64.

Section Bond.

(** The tolerance of the library's [setFromUnitVectors]. *)
Variable EPS : jsnum.

Definition BondMesh (start end_ : Vector3) (order : Z) : list Mol3D.Mesh :=
  let mid := multiplyScalar (addVectors start end_) (Fin (1 / 2)) in
  let diff := subVectors end_ start in
  let length := Three64.length diff in
  let quaternion := setFromUnitVectors EPS Mol3D.up (normalize diff) in
  let radius := Fin (8 / 100) in
  let offset := Fin (15 / 100) in
  if (order =? 1)%Z then
    [ Mol3D.cylinder "1" mid quaternion radius length ]
  else if (order =? 2)%Z then
    let localX := applyQuaternion Mol3D.unitX quaternion in
    let pos1 := add mid (multiplyScalar localX offset) in
    let pos2 := add mid (multiplyScalar localX (- offset)%js64) in
    [ Mol3D.cylinder "d1" pos1 quaternion radius length;
      Mol3D.cylinder "d2" pos2 quaternion radius length ]
  else
    let localX := applyQuaternion Mol3D.unitX quaternion in
    let pos1 := add mid (multiplyScalar localX offset) in
    let pos2 := add mid (multiplyScalar localX (- offset)%js64) in
    [ Mol3D.cylinder "t1" mid quaternion radius length;
      Mol3D.cylinder "t2" pos1 quaternion radius length;
      Mol3D.cylinder "t3" pos2 quaternion radius length ].

Definition bondMeshes (ats : list Atom) (bond : Bond) : list Mol3D.Mesh :=
  match index ats (source bond), index ats (target bond) with
  | Some startAtom, Some endAtom =>
      BondMesh (Mol3D.position3d startAtom) (Mol3D.position3d endAtom)
               (order bond)
  | _, _ => []
  end.

End Bond.

End Mol3D64.

(** ** The steps of the layout as the specification words them, over
    numbers with the range of binary64 *)

Module Spec64.

(** Euclidean length of a bond between the raw positions, squares and sum
    brought into range ([NaN] when the bond does not resolve). *)
Definition bondLength (ats : list Atom) (b : Bond) : jsnum :=
  match index ats (source b), index ats (target b) with
  | Some s, Some t =>
      let dx := (x2d s - x2d t)%js64 in
      let dy := (y2d s - y2d t)%js64 in
      JS.sqrt (dx * dx + dy * dy)%js64
  | _, _ => NaN
  end.

(** Sum from the left, starting at 0. *)
Definition sum (l : list jsnum) : jsnum := fold_left JS64.add l (Fin 0).

(** Step 1: the mean length of the bonds that resolve, 1 when none does. *)
Definition meanRawLength (ats : list Atom) (bs : list Bond) : jsnum :=
  match Spec.resolvedBonds ats bs with
  | [] => Fin 1
  | _ :: _ =>
      (sum (map (bondLength ats) (Spec.resolvedBonds ats bs))
       / Fin (INR (List.length (Spec.resolvedBonds ats bs))))%js64
  end.

(** Step 2: target length over mean length, the default 60 when the mean is
    not above 0.001. *)
Definition scaleFactor (ats : list Atom) (bs : list Bond) : jsnum :=
  let m := meanRawLength ats bs in
  if (m >? Fin (1 / 1000))%js64 then (Fin 60 / m)%js64 else Fin 60.

(** Step 3: both coordinates multiplied by one factor. *)
Definition scaled (s : jsnum) (a : Atom) : jsnum * jsnum :=
  ((x2d a * s)%js64, (y2d a * s)%js64).

End Spec64.

(** ** Ranges of the inputs *)

Module Range.

(** A finite number of magnitude at most [b]. *)
Definition within (b : R) (c : jsnum) : Prop :=
  match c with Fin r => - b <= r <= b | _ => False end.

(** The raw planar coordinates of an atom, and the coordinates of a point
    of space, are within [b]. *)
Definition planar (b : R) (a : Atom) : Prop :=
  within b (x2d a) /\ within b (y2d a).

Definition spatial (b : R) (v : Three.Vector3) : Prop :=
  within b (Three.vx v) /\ within b (Three.vy v) /\ within b (Three.vz v).

(** An array of JavaScript has fewer than 2^32 elements. *)
Definition arraySized {A : Type} (l : list A) : Prop :=
  INR (List.length l) < 2 ^ 32.

(** Coordinates up to [wide] keep every square and sum of the two engines
    far below the overflow threshold; up to [drawing], the normalized
    coordinates stay where a double still resolves the padding and the
    offsets of the decorations to a few millionths; up to [scene], a double
    resolves the strand offset 0.15 to thirteen digits.  A bond at least
    [tiny] long keeps the squares of its direction out of the underflow
    range. *)
Definition wide : R := 10 ^ 100.
Definition drawing : R := 10 ^ 6.
Definition scene : R := 10 ^ 3.
Definition tiny : R := / 10 ^ 100.

End Range.

(** ** Further concrete inputs *)

Module Samples.

(** An oxygen with the charge -2 and three lone pairs. *)
Definition oxide : Atom :=
  {| id := 3; element := "O";
     x2d := Fin 1; y2d := Fin 1; x3d := Fin 1; y3d := Fin 1; z3d := Fin 1;
     lonePairs := 3; charge := (-2) |}.

(** Two atoms at the same place with the raw coordinate 10^308, joined by a
    single bond. *)
Definition remoteA : Atom :=
  {| id := 0; element := "C";
     x2d := Fin (10 ^ 308); y2d := Fin 0;
     x3d := Fin (10 ^ 308); y3d := Fin 0; z3d := Fin 0;
     lonePairs := 0; charge := 0 |}.
Definition remoteB : Atom :=
  {| id := 1; element := "C";
     x2d := Fin (10 ^ 308); y2d := Fin 0;
     x3d := Fin (10 ^ 308); y3d := Fin 0; z3d := Fin 0;
     lonePairs := 0; charge := 0 |}.
Definition remoteBond : Bond := Examples.mkBond 0 1 1.
Definition remotePair : MoleculeData :=
  Examples.mkData [ remoteA; remoteB ] [ remoteBond ].


(** The page after "H2O" was typed into the form. *)
Definition typed : App.State := App.setFormula "H2O" App.initial.

(** Frame times of three frames, in seconds. *)
Definition frames : list jsnum := [ Fin (1 / 60); Fin (1 / 30); Fin (1 / 60) ].

End Samples.

(** * Properties *)

(** ** Arithmetic of [jsnum] on finite values *)

Lemma finite_inv (a : jsnum) : finite a -> a = Fin (val a).
Proof. destruct a; simpl; intros H; try contradiction; reflexivity. Qed.

Lemma div_fin (a b : R) : b <> 0 -> (Fin a / Fin b)%js = Fin (a / b).
Proof.
  intros Hb. unfold JS.div. destruct (Req_dec_T b 0) as [E | _]; [contradiction | reflexivity].
Qed.

Lemma sqrt_fin (a : R) : 0 <= a -> JS.sqrt (Fin a) = Fin (sqrt a).
Proof.
  intros Ha. unfold JS.sqrt. destruct (Rlt_dec a 0) as [L | _]; [lra | reflexivity].
Qed.

Lemma ltb_fin_true (a b : R) : a < b -> (Fin a <? Fin b)%js = true.
Proof. intros H. unfold JS.ltb. destruct (Rlt_dec a b); [reflexivity | contradiction]. Qed.

Lemma ltb_fin_false (a b : R) : b <= a -> (Fin a <? Fin b)%js = false.
Proof. intros H. unfold JS.ltb. destruct (Rlt_dec a b); [lra | reflexivity]. Qed.

Lemma sumsq_nonneg (a b : R) : 0 <= a * a + b * b.
Proof.
  pose proof (Rle_0_sqr a) as Ha. pose proof (Rle_0_sqr b) as Hb.
  unfold Rsqr in *. lra.
Qed.

Lemma sumR_cons (a : R) (l : list R) : Spec.sumR (a :: l) = a + Spec.sumR l.
Proof. reflexivity. Qed.

Lemma index_In {A : Type} (arr : list A) (i : Z) (a : A) :
  index arr i = Some a -> In a arr.
Proof.
  unfold index. destruct (i <? 0)%Z; [discriminate |]. apply nth_error_In.
Qed.

Lemma index_map {A B : Type} (f : A -> B) (arr : list A) (i : Z) :
  index (map f arr) i = option_map f (index arr i).
Proof.
  unfold index. destruct (i <? 0)%Z; [reflexivity |]. apply nth_error_map.
Qed.

(** ** The scale of the layout *)

Section ScaleDerivation.

Import Lewis Spec.

Variable ats : list Atom.
Hypothesis ats_finite : Forall finite2d ats.

Lemma index_finite2d (i : Z) (a : Atom) : index ats i = Some a -> finite2d a.
Proof.
  intros H. apply index_In in H. rewrite Forall_forall in ats_finite. auto.
Qed.

(** One turn of the first loop adds the bond's length and counts it when the
    bond resolves, and leaves the state alone otherwise. *)
Lemma addBond_spec (t : R) (n : nat) (b : Bond) :
  addBond ats (Fin t, n) b =
  if resolves ats b then (Fin (t + bondLength raw2d ats b), S n)
  else (Fin t, n).
Proof.
  unfold addBond, resolves, bondLength.
  destruct (index ats (source b)) as [s |] eqn:Hs; [| reflexivity].
  destruct (index ats (target b)) as [u |] eqn:Hu; [| reflexivity].
  destruct (index_finite2d _ _ Hs) as [Hsx Hsy].
  destruct (index_finite2d _ _ Hu) as [Hux Huy].
  rewrite (finite_inv _ Hsx), (finite_inv _ Hsy), (finite_inv _ Hux), (finite_inv _ Huy).
  cbn [fst snd JS.sub JS.neg JS.add JS.mul].
  rewrite sqrt_fin by apply sumsq_nonneg.
  unfold dist, raw2d. cbn [fst snd val].
  do 3 f_equal; ring.
Qed.

Lemma bondTotals_from (bs : list Bond) (t : R) (n : nat) :
  fold_left (addBond ats) bs (Fin t, n) =
  (Fin (t + sumR (map (bondLength raw2d ats) (resolvedBonds ats bs))),
   (n + List.length (resolvedBonds ats bs))%nat).
Proof.
  revert t n. induction bs as [| b bs IH]; intros t n; cbn [fold_left].
  - cbn. rewrite Rplus_0_r, Nat.add_0_r. reflexivity.
  - rewrite addBond_spec. unfold resolvedBonds. cbn [filter].
    destruct (resolves ats b).
    + fold (resolvedBonds ats bs). rewrite IH. cbn [map List.length].
      rewrite sumR_cons.
      apply f_equal2; [apply f_equal; ring | lia].
    + apply IH.
Qed.

Lemma bondTotals_spec (bs : list Bond) :
  bondTotals ats bs =
  (Fin (sumR (map (bondLength raw2d ats) (resolvedBonds ats bs))),
   List.length (resolvedBonds ats bs)).
Proof.
  unfold bondTotals. rewrite bondTotals_from.
  apply f_equal2; [apply f_equal; ring | reflexivity].
Qed.

Lemma avgLen_spec (bs : list Bond) :
  avgLen ats bs = Fin (meanRawLength ats bs).
Proof.
  unfold avgLen. rewrite bondTotals_spec. unfold meanRawLength, meanLength.
  destruct (resolvedBonds ats bs) as [| b rs] eqn:E.
  - reflexivity.
  - replace (0 <? List.length (b :: rs))%nat with true by reflexivity.
    rewrite div_fin; [reflexivity |].
    apply not_0_INR. discriminate.
Qed.

Lemma scale_spec (bs : list Bond) :
  scale ats bs = Fin (scaleFactor ats bs).
Proof.
  unfold scale, scaleOf, scaleFactor, JS.gtb. rewrite avgLen_spec.
  unfold JS.ltb, TARGET_BOND_LENGTH.
  destruct (Rlt_dec (1 / 1000) (meanRawLength ats bs)) as [L | L].
  - apply div_fin. lra.
  - reflexivity.
Qed.

Lemma scaleAtom_spec (s : R) (a : Atom) :
  finite2d a -> scaleAtom (Fin s) a = scaled s a.
Proof.
  intros [Hx Hy]. unfold scaleAtom, scaled.
  rewrite (finite_inv _ Hx), (finite_inv _ Hy). reflexivity.
Qed.

Lemma scaledAtoms_spec (s : R) :
  map (scaleAtom (Fin s)) ats = map (scaled s) ats.
Proof.
  apply map_ext_in. intros a Ha. apply scaleAtom_spec.
  rewrite Forall_forall in ats_finite. auto.
Qed.

End ScaleDerivation.

Lemma layout_normalizedAtoms (data : MoleculeData) :
  atoms data <> [] ->
  Lewis.normalizedAtoms (Lewis.layout data) =
  map (Lewis.scaleAtom (Lewis.scale (atoms data) (bonds data))) (atoms data).
Proof.
  intros Hne. unfold Lewis.layout.
  destruct (atoms data) as [| a rest] eqn:E; [contradiction |].
  destruct (Lewis.bbox _) as [[[minX maxX] minY] maxY]. reflexivity.
Qed.

Lemma layout_viewBox (data : MoleculeData) :
  atoms data <> [] ->
  Lewis.viewBox (Lewis.layout data) =
  let '(minX, maxX, minY, maxY) :=
    Lewis.bbox (map (Lewis.scaleAtom (Lewis.scale (atoms data) (bonds data)))
                    (atoms data)) in
  {| Lewis.boxX := (minX - Lewis.PADDING)%js;
     Lewis.boxY := (minY - Lewis.PADDING)%js;
     Lewis.boxW := ((maxX - minX) + Lewis.PADDING * Fin 2)%js;
     Lewis.boxH := ((maxY - minY) + Lewis.PADDING * Fin 2)%js |}.
Proof.
  intros Hne. unfold Lewis.layout.
  destruct (atoms data) as [| a rest] eqn:E; [contradiction |].
  destruct (Lewis.bbox _) as [[[minX maxX] minY] maxY]. reflexivity.
Qed.

(** ** The scale derivation, in exact arithmetic *)

(** In exact arithmetic: on a non-empty atom list with finite raw
    coordinates, the first loop sums the Euclidean lengths of exactly the
    bonds whose two indices resolve and counts them; the mean is that sum
    over that count, and 1 when no bond resolves; the scale is 60 over the
    mean when the mean exceeds 0.001 and 60 otherwise; every normalized
    position is the raw one with both coordinates multiplied by the
    scale. *)
Lemma scale_derivation_exact (data : MoleculeData) :
  atoms data <> [] ->
  Forall Spec.finite2d (atoms data) ->
  let ats := atoms data in
  let bs := bonds data in
  let resolved := Spec.resolvedBonds ats bs in
  let total := Spec.sumR (map (Spec.bondLength Spec.raw2d ats) resolved) in
  Lewis.bondTotals ats bs = (Fin total, List.length resolved) /\
  (resolved = [] -> Lewis.avgLen ats bs = Fin 1) /\
  (resolved <> [] ->
   Lewis.avgLen ats bs = Fin (total / INR (List.length resolved))) /\
  (1 / 1000 < val (Lewis.avgLen ats bs) ->
   Lewis.scale ats bs = Fin (60 / val (Lewis.avgLen ats bs))) /\
  (val (Lewis.avgLen ats bs) <= 1 / 1000 -> Lewis.scale ats bs = Fin 60) /\
  Lewis.normalizedAtoms (Lewis.layout data) =
  map (Spec.scaled (val (Lewis.scale ats bs))) ats.
Proof.
  intros Hne Hfin ats bs resolved total.
  pose proof (avgLen_spec ats Hfin bs) as Havg.
  pose proof (scale_spec ats Hfin bs) as Hsc.
  fold bs in Havg, Hsc. rewrite Havg.
  unfold Spec.scaleFactor in Hsc. cbn [val].
  repeat split.
  - apply bondTotals_spec; assumption.
  - intros E. unfold Spec.meanRawLength. fold resolved. rewrite E. reflexivity.
  - intros E. unfold Spec.meanRawLength, Spec.meanLength. fold resolved.
    destruct resolved; [contradiction | reflexivity].
  - intros L. rewrite Hsc.
    destruct (Rlt_dec _ _); [reflexivity | contradiction].
  - intros L. rewrite Hsc.
    destruct (Rlt_dec _ _); [lra | reflexivity].
  - rewrite layout_normalizedAtoms by assumption. fold ats bs.
    rewrite scale_spec by assumption. cbn [val].
    apply scaledAtoms_spec; assumption.
Qed.

(** ** Bond lengths after scaling *)

Section MeanNormalized.

Import Lewis Spec.

Lemma resolves_map {A B : Type} (f : A -> B) (arr : list A) (b : Bond) :
  resolves (map f arr) b = resolves arr b.
Proof.
  unfold resolves. rewrite !index_map.
  destruct (index arr (source b)), (index arr (target b)); reflexivity.
Qed.

Lemma resolvedBonds_map {A B : Type} (f : A -> B) (arr : list A)
  (bs : list Bond) :
  resolvedBonds (map f arr) bs = resolvedBonds arr bs.
Proof.
  unfold resolvedBonds. apply filter_ext. intros b. apply resolves_map.
Qed.

(** Scaling both coordinates by [s >= 0] scales distances by [s]. *)
Lemma dist_scaled (s : R) (a b : Atom) :
  0 <= s -> dist (pos (scaled s a)) (pos (scaled s b)) = s * dist (raw2d a) (raw2d b).
Proof.
  intros Hs. unfold dist, pos, scaled, raw2d. cbn [fst snd val x y].
  set (dx := val (x2d a) - val (x2d b)). set (dy := val (y2d a) - val (y2d b)).
  replace ((val (x2d a) * s - val (x2d b) * s) * (val (x2d a) * s - val (x2d b) * s)
           + (val (y2d a) * s - val (y2d b) * s) * (val (y2d a) * s - val (y2d b) * s))
    with ((s * s) * (dx * dx + dy * dy)) by (unfold dx, dy; ring).
  rewrite sqrt_mult_alt by (apply Rle_0_sqr).
  rewrite sqrt_square by assumption. reflexivity.
Qed.


Lemma sumR_scale (s : R) (f : Bond -> R) (l : list Bond) :
  sumR (map (fun b => s * f b) l) = s * sumR (map f l).
Proof.
  induction l as [| b l IH]; cbn [map].
  - cbn. ring.
  - rewrite !sumR_cons, IH. ring.
Qed.


Lemma resolvedBonds_nil_atoms (bs : list Bond) :
  resolvedBonds (@nil Atom) bs = [].
Proof.
  induction bs as [| b bs IH]; [reflexivity |].
  unfold resolvedBonds. cbn [filter]. unfold resolves at 1, index.
  destruct (source b <? 0)%Z; [apply IH |].
  destruct (Z.to_nat (source b)); cbn [nth_error]; apply IH.
Qed.

End MeanNormalized.

(** ** The lines of one bond *)

Section BondLines.

Import Lewis Spec SpecLines.

Variable nas : list ScaledAtom.
Variable bond : Bond.
Variables s e : ScaledAtom.
Hypothesis Hs : index nas (source bond) = Some s.
Hypothesis He : index nas (target bond) = Some e.
Hypothesis Fs : finiteXY s.
Hypothesis Fe : finiteXY e.

(** The guard [len < 1] on finite positions. *)
Lemma bondLines_short : dist (pos e) (pos s) < 1 -> bondLines nas bond = [].
Proof.
  intros Hd. unfold bondLines. rewrite Hs, He. cbv zeta.
  destruct Fs as [Fsx Fsy], Fe as [Fex Fey].
  rewrite (finite_inv _ Fsx), (finite_inv _ Fsy), (finite_inv _ Fex), (finite_inv _ Fey).
  cbn [JS.sub JS.neg JS.add JS.mul].
  rewrite sqrt_fin by apply sumsq_nonneg.
  rewrite ltb_fin_true; [reflexivity |].
  unfold dist, pos in Hd. cbn [fst snd] in Hd.
  replace (val (x e) + - val (x s)) with (val (x e) - val (x s)) by ring.
  replace (val (y e) + - val (y s)) with (val (y e) - val (y s)) by ring.
  exact Hd.
Qed.

Lemma bondLines_long :
  1 <= dist (pos e) (pos s) ->
  bondLines nas bond = bondSegments (order bond) (pos s) (pos e).
Proof.
  intros Hd. unfold bondLines. rewrite Hs, He. cbv zeta.
  destruct Fs as [Fsx Fsy], Fe as [Fex Fey].
  unfold bondSegments, offsetSegment, segment, shift, unitNormal.
  revert Hd. unfold dist, pos. cbn [fst snd].
  rewrite (finite_inv _ Fsx), (finite_inv _ Fsy), (finite_inv _ Fex), (finite_inv _ Fey).
  cbn [JS.sub JS.neg JS.add JS.mul val].
  replace (val (x e) + - val (x s)) with (val (x e) - val (x s)) by ring.
  replace (val (y e) + - val (y s)) with (val (y e) - val (y s)) by ring.
  set (dx := val (x e) - val (x s)). set (dy := val (y e) - val (y s)).
  set (len := sqrt (dx * dx + dy * dy)). intros Hd.
  rewrite sqrt_fin by apply sumsq_nonneg. fold len.
  rewrite ltb_fin_false by exact Hd.
  rewrite !div_fin by lra.
  cbn [JS.sub JS.neg JS.add JS.mul].
  destruct (order bond =? 1)%Z; [reflexivity |].
  destruct (order bond =? 2)%Z.
  { repeat (f_equal; try (field; lra)). }
  destruct (order bond =? 3)%Z; [| reflexivity].
  repeat (f_equal; try (field; lra)).
Qed.

End BondLines.

(** ** The example molecules *)

Lemma dist_horizontal (a b c : R) : Spec.dist (a, c) (b, c) = Rabs (a - b).
Proof.
  unfold Spec.dist. cbn [fst snd].
  replace ((a - b) * (a - b) + (c - c) * (c - c)) with (Rsqr (a - b))
    by (unfold Rsqr; ring).
  apply sqrt_Rsqr_abs.
Qed.

Lemma tiny_finite : Forall Spec.finite2d (atoms Examples.tiny).
Proof. repeat constructor. Qed.

Lemma tiny_meanRaw :
  Spec.meanLength Spec.raw2d (atoms Examples.tiny) (bonds Examples.tiny)
  = 1 / 2000.
Proof.
  unfold Spec.meanLength.
  replace (Spec.resolvedBonds (atoms Examples.tiny) (bonds Examples.tiny))
    with [Examples.tinyBond] by reflexivity.
  cbn [map List.length Spec.sumR fold_right INR].
  unfold Spec.bondLength.
  change (index (atoms Examples.tiny) (source Examples.tinyBond))
    with (Some Examples.tinyA).
  change (index (atoms Examples.tiny) (target Examples.tinyBond))
    with (Some Examples.tinyB).
  unfold Spec.raw2d. cbn [Examples.tinyA Examples.tinyB Examples.mkAtom x2d y2d val].
  rewrite dist_horizontal, Rabs_left by lra. lra.
Qed.

(** The mean is below the threshold, so the default scale applies. *)
Lemma tiny_scale :
  Lewis.scale (atoms Examples.tiny) (bonds Examples.tiny) = Fin 60.
Proof.
  rewrite scale_spec by exact tiny_finite.
  unfold Spec.scaleFactor, Spec.meanRawLength.
  replace (Spec.resolvedBonds (atoms Examples.tiny) (bonds Examples.tiny))
    with [Examples.tinyBond] by reflexivity.
  rewrite tiny_meanRaw. cbv zeta.
  destruct (Rlt_dec _ _); [lra | reflexivity].
Qed.

Lemma tiny_normalized :
  Lewis.normalizedAtoms (Lewis.layout Examples.tiny)
  = [ Spec.scaled 60 Examples.tinyA; Spec.scaled 60 Examples.tinyB ].
Proof.
  rewrite layout_normalizedAtoms by discriminate.
  rewrite tiny_scale, scaledAtoms_spec by exact tiny_finite. reflexivity.
Qed.

Lemma tiny_normalized_dist :
  Spec.dist (Spec.pos (Spec.scaled 60 Examples.tinyB))
            (Spec.pos (Spec.scaled 60 Examples.tinyA)) = 3 / 100.
Proof.
  unfold Spec.pos, Spec.scaled.
  cbn [Lewis.x Lewis.y val Examples.tinyA Examples.tinyB Examples.mkAtom x2d y2d].
  replace (0 * 60) with 0 by ring.
  rewrite dist_horizontal, Rabs_right by lra. lra.
Qed.


Lemma bent_finite : Forall Spec.finite2d (atoms Examples.bent).
Proof. repeat constructor. Qed.

Lemma dist_3_4 (a b : R) :
  (a = 3 \/ a = -3) -> (b = 4 \/ b = -4) -> sqrt (a * a + b * b) = 5.
Proof.
  intros Ha Hb. apply sqrt_lem_1; [apply sumsq_nonneg | lra |].
  destruct Ha as [-> | ->], Hb as [-> | ->]; lra.
Qed.

Lemma bent_meanRaw :
  Spec.meanLength Spec.raw2d (atoms Examples.bent) (bonds Examples.bent) = 5.
Proof.
  unfold Spec.meanLength.
  replace (Spec.resolvedBonds (atoms Examples.bent) (bonds Examples.bent))
    with [Examples.mkBond 0 1 1; Examples.mkBond 0 2 1] by reflexivity.
  cbn [map List.length Spec.sumR fold_right].
  unfold Spec.bondLength.
  change (index (atoms Examples.bent) (source (Examples.mkBond 0 1 1)))
    with (Some Examples.bentO).
  change (index (atoms Examples.bent) (target (Examples.mkBond 0 1 1)))
    with (Some Examples.bentH1).
  change (index (atoms Examples.bent) (source (Examples.mkBond 0 2 1)))
    with (Some Examples.bentO).
  change (index (atoms Examples.bent) (target (Examples.mkBond 0 2 1)))
    with (Some Examples.bentH2).
  unfold Spec.raw2d, Spec.dist.
  cbn [Examples.bentO Examples.bentH1 Examples.bentH2 Examples.mkAtom
       x2d y2d val fst snd].
  rewrite !dist_3_4 by lra.
  change (INR 2) with (1 + 1). lra.
Qed.

(** The bent molecule is scaled by 60 / 5. *)
Example bent_scale :
  Lewis.scale (atoms Examples.bent) (bonds Examples.bent) = Fin 12.
Proof.
  rewrite scale_spec by exact bent_finite.
  unfold Spec.scaleFactor, Spec.meanRawLength.
  replace (Spec.resolvedBonds (atoms Examples.bent) (bonds Examples.bent))
    with [Examples.mkBond 0 1 1; Examples.mkBond 0 2 1] by reflexivity.
  rewrite bent_meanRaw. cbv zeta.
  destruct (Rlt_dec _ _); [f_equal; lra | lra].
Qed.

Lemma bent_normalized :
  Lewis.normalizedAtoms (Lewis.layout Examples.bent)
  = [ Spec.scaled 12 Examples.bentO; Spec.scaled 12 Examples.bentH1;
      Spec.scaled 12 Examples.bentH2 ].
Proof.
  rewrite layout_normalizedAtoms by discriminate.
  rewrite bent_scale, scaledAtoms_spec by exact bent_finite. reflexivity.
Qed.

Lemma bent_normalized_dist :
  Spec.dist (Spec.pos (Spec.scaled 12 Examples.bentH1))
            (Spec.pos (Spec.scaled 12 Examples.bentO)) = 60.
Proof.
  rewrite dist_scaled by lra.
  unfold Spec.dist, Spec.raw2d.
  cbn [Examples.bentO Examples.bentH1 Examples.mkAtom x2d y2d val fst snd].
  rewrite dist_3_4 by lra. lra.
Qed.

(** The single bond from the oxygen to the first hydrogen is one line
    between the two normalized centres, and the frame is the box of the
    three centres grown by the padding. *)
Example bent_bond_line :
  Lewis.bondLines (Lewis.normalizedAtoms (Lewis.layout Examples.bent))
                  (Examples.mkBond 0 1 1)
  = [ {| Lewis.x1 := Fin (0 * 12); Lewis.y1 := Fin (0 * 12);
         Lewis.x2 := Fin (3 * 12); Lewis.y2 := Fin (4 * 12) |} ].
Proof.
  rewrite bent_normalized.
  rewrite (bondLines_long _ _ (Spec.scaled 12 Examples.bentO)
             (Spec.scaled 12 Examples.bentH1));
    try reflexivity; try (split; exact I).
  rewrite bent_normalized_dist. lra.
Qed.

Example bent_viewBox :
  Lewis.viewBox (Lewis.layout Examples.bent)
  = {| Lewis.boxX := Fin (- 76); Lewis.boxY := Fin (- 40);
       Lewis.boxW := Fin 152; Lewis.boxH := Fin 128 |}.
Proof.
  rewrite layout_viewBox by discriminate.
  rewrite bent_scale, scaledAtoms_spec by exact bent_finite.
  unfold Lewis.bbox.
  cbn [map atoms Examples.bent Examples.mkData fold_left Lewis.bboxStep
       Spec.scaled Lewis.x Lewis.y Examples.bentO Examples.bentH1
       Examples.bentH2 Examples.mkAtom x2d y2d val].
  unfold JS.min, JS.max, JS.ltb, Lewis.PADDING.
  repeat match goal with
         | |- context [Rlt_dec ?a ?b] => destruct (Rlt_dec a b); try lra
         end.
  cbn [JS.sub JS.add JS.neg JS.mul].
  f_equal; f_equal; lra.
Qed.

(** ** The mean normalized bond length, in exact arithmetic *)



(** ** C3 and C9: the segments of a bond *)

Lemma unitNormal_unit (p q : Lewis.point) :
  0 < Spec.dist q p ->
  let n := SpecLines.unitNormal p q in
  fst n * fst n + snd n * snd n = 1 /\
  fst n * (fst q - fst p) + snd n * (snd q - snd p) = 0.
Proof.
  intros Hd. unfold SpecLines.unitNormal. cbn [fst snd].
  assert (Hsq : Spec.dist q p * Spec.dist q p
                = (fst q - fst p) * (fst q - fst p) + (snd q - snd p) * (snd q - snd p)).
  { unfold Spec.dist. apply sqrt_sqrt, sumsq_nonneg. }
  set (d := Spec.dist q p) in *. set (dx := fst q - fst p) in *.
  set (dy := snd q - snd p) in *.
  split.
  - replace (- dy / d * (- dy / d) + dx / d * (dx / d))
      with ((dx * dx + dy * dy) / (d * d)) by (field; lra).
    rewrite <- Hsq. field. lra.
  - field. lra.
Qed.




(** C9: on finite normalized positions, a bond whose endpoints are less
    than 1 apart gets no line, whatever its order; and whenever a line is
    drawn the endpoints are at least 1 apart. *)
Theorem C9_short_bond_skipped (nas : list Lewis.ScaledAtom) (bond : Bond)
  (s e : Lewis.ScaledAtom) :
  index nas (source bond) = Some s ->
  index nas (target bond) = Some e ->
  Spec.finiteXY s -> Spec.finiteXY e ->
  (Spec.dist (Spec.pos e) (Spec.pos s) < 1 -> Lewis.bondLines nas bond = []) /\
  (Lewis.bondLines nas bond <> [] -> 1 <= Spec.dist (Spec.pos e) (Spec.pos s)).
Proof.
  intros Hs He Fs Fe. split.
  - apply bondLines_short; assumption.
  - intros Hne. destruct (Rle_lt_dec 1 (Spec.dist (Spec.pos e) (Spec.pos s))) as [L | L];
      [exact L |].
    exfalso. apply Hne. apply (bondLines_short nas bond s e); assumption.
Qed.

(** The bond of [tiny] joins distinct raw endpoints and is skipped. *)
Lemma C9_short_bond_skipped_witness :
  Lewis.bondLines (Lewis.normalizedAtoms (Lewis.layout Examples.tiny))
                  Examples.tinyBond = [].
Proof.
  refine (proj1
    (C9_short_bond_skipped (Lewis.normalizedAtoms (Lewis.layout Examples.tiny))
       Examples.tinyBond
       (Spec.scaled 60 Examples.tinyA) (Spec.scaled 60 Examples.tinyB)
       _ _ _ _) _).
  - rewrite tiny_normalized. reflexivity.
  - rewrite tiny_normalized. reflexivity.
  - split; exact I.
  - split; exact I.
  - rewrite tiny_normalized_dist. lra.
Defined.

(** ** C8: the empty atom list *)

(** C8: with no atoms the layout is the fixed frame "0 0 100 100" with no
    normalized atoms and no bonds (whatever bonds the record lists); the
    four numbers of the frame are finite. *)
Theorem C8_empty_atoms (data : MoleculeData) :
  atoms data = [] ->
  Lewis.layout data =
  {| Lewis.normalizedAtoms := [];
     Lewis.layoutBonds := [];
     Lewis.viewBox := {| Lewis.boxX := Fin 0; Lewis.boxY := Fin 0;
                         Lewis.boxW := Fin 100; Lewis.boxH := Fin 100 |} |} /\
  finite (Lewis.boxX (Lewis.viewBox (Lewis.layout data))) /\
  finite (Lewis.boxY (Lewis.viewBox (Lewis.layout data))) /\
  finite (Lewis.boxW (Lewis.viewBox (Lewis.layout data))) /\
  finite (Lewis.boxH (Lewis.viewBox (Lewis.layout data))).
Proof.
  intros E. unfold Lewis.layout. rewrite E. cbn. repeat split.
Qed.

Lemma C8_empty_atoms_witness :
  Lewis.normalizedAtoms
    (Lewis.layout (Examples.mkData [] [Examples.mkBond 0 1 1])) = [] /\
  Lewis.layoutBonds
    (Lewis.layout (Examples.mkData [] [Examples.mkBond 0 1 1])) = [].
Proof.
  destruct (C8_empty_atoms (Examples.mkData [] [Examples.mkBond 0 1 1]) eq_refl)
    as [H _].
  rewrite H. split; reflexivity.
Defined.

(** ** C10: bond orders other than 1, 2 and 3 *)

Lemma bondLines_other_order (nas : list Lewis.ScaledAtom) (bond : Bond) :
  order bond <> 1%Z -> order bond <> 2%Z -> order bond <> 3%Z ->
  Lewis.bondLines nas bond = [].
Proof.
  intros H1 H2 H3. unfold Lewis.bondLines.
  destruct (index nas (source bond)); [| reflexivity].
  destruct (index nas (target bond)); [| reflexivity].
  cbv zeta. destruct (JS.ltb _ _); [reflexivity |].
  apply Z.eqb_neq in H1, H2, H3. rewrite H1, H2, H3. reflexivity.
Qed.

Lemma BondMesh_other_order (eps : jsnum) (start end_ : Three.Vector3) (o : Z) :
  o <> 1%Z -> o <> 2%Z ->
  Mol3D.BondMesh eps start end_ o = Mol3D.BondMesh eps start end_ 3.
Proof.
  intros H1 H2. unfold Mol3D.BondMesh.
  apply Z.eqb_neq in H1, H2. rewrite H1, H2. reflexivity.
Qed.

(** C10: for a bond whose order is none of 1, 2, 3 the planar engine draws
    no line, while the spatial engine builds exactly what it builds for a
    triple bond: three cylinders (for a bond whose indices resolve). *)
Theorem C10_other_orders (eps : jsnum) (nas : list Lewis.ScaledAtom)
  (ats : list Atom) (bond : Bond) :
  order bond <> 1%Z -> order bond <> 2%Z -> order bond <> 3%Z ->
  Lewis.bondLines nas bond = [] /\
  Mol3D.bondMeshes eps ats bond =
    Mol3D.bondMeshes eps ats
      {| source := source bond; target := target bond; order := 3 |} /\
  (Spec.resolves ats bond = true ->
   List.length (Mol3D.bondMeshes eps ats bond) = 3%nat).
Proof.
  intros H1 H2 H3. split; [apply bondLines_other_order; assumption |].
  unfold Mol3D.bondMeshes, Spec.resolves. cbn [source target order].
  destruct (index ats (source bond)) as [a |];
    [| split; [reflexivity | discriminate]].
  destruct (index ats (target bond)) as [b |];
    [| split; [reflexivity | discriminate]].
  rewrite BondMesh_other_order by assumption.
  split; [reflexivity |]. intros _. reflexivity.
Qed.

Lemma C10_other_orders_witness :
  Lewis.bondLines (Lewis.normalizedAtoms (Lewis.layout Examples.bent))
                  (Examples.mkBond 0 1 0) = [] /\
  List.length (Mol3D.bondMeshes Three.Number_EPSILON (atoms Examples.bent)
                 (Examples.mkBond 0 1 0))
  = 3%nat.
Proof.
  destruct (C10_other_orders Three.Number_EPSILON
              (Lewis.normalizedAtoms (Lewis.layout Examples.bent))
              (atoms Examples.bent) (Examples.mkBond 0 1 0))
    as [H2d [_ H3d]]; try discriminate.
  split; [exact H2d | apply H3d; reflexivity].
Defined.

(** ** The three.js operations on finite values *)

Section ThreeFinite.

Import Three Spec3D.

Lemma finiteV_inv (v : Vector3) :
  finiteV v -> v = vec3 (val (vx v)) (val (vy v)) (val (vz v)).
Proof.
  intros (Hx & Hy & Hz). destruct v as [a b c]. cbn in *.
  rewrite (finite_inv _ Hx), (finite_inv _ Hy), (finite_inv _ Hz). reflexivity.
Qed.

Lemma sumsq3_nonneg (a b c : R) : 0 <= a * a + b * b + c * c.
Proof.
  pose proof (sumsq_nonneg a b). pose proof (Rle_0_sqr c) as Hc.
  unfold Rsqr in Hc. lra.
Qed.

Lemma sumsq4_nonneg (a b c d : R) : 0 <= a * a + b * b + c * c + d * d.
Proof.
  pose proof (sumsq3_nonneg a b c). pose proof (Rle_0_sqr d) as Hd.
  unfold Rsqr in Hd. lra.
Qed.

Lemma length_vec3 (a b c : R) : Three.length (vec3 a b c) = Fin (norm a b c).
Proof.
  unfold Three.length, vec3, norm. cbn [vx vy vz JS.mul JS.add].
  apply sqrt_fin, sumsq3_nonneg.
Qed.

Lemma subVectors_vec3 (a b c a' b' c' : R) :
  subVectors (vec3 a b c) (vec3 a' b' c') = vec3 (a - a') (b - b') (c - c').
Proof. reflexivity. Qed.

Lemma addVectors_vec3 (a b c a' b' c' : R) :
  addVectors (vec3 a b c) (vec3 a' b' c') = vec3 (a + a') (b + b') (c + c').
Proof. reflexivity. Qed.

Lemma multiplyScalar_vec3 (a b c k : R) :
  multiplyScalar (vec3 a b c) (Fin k) = vec3 (a * k) (b * k) (c * k).
Proof. reflexivity. Qed.

(** [normalize] divides by the length, and by 1 when the length is 0. *)
Lemma normalize_vec3 (a b c : R) :
  norm a b c <> 0 ->
  normalize (vec3 a b c)
  = vec3 (a * (1 / norm a b c)) (b * (1 / norm a b c)) (c * (1 / norm a b c)).
Proof.
  intros Hn. unfold normalize. rewrite length_vec3.
  unfold JS.or_else, JS.truthy.
  destruct (Req_dec_T (norm a b c) 0) as [E | _]; [contradiction |].
  unfold divideScalar. rewrite div_fin by assumption. reflexivity.
Qed.

Lemma normalize_vec3_zero (a b c : R) :
  norm a b c = 0 ->
  normalize (vec3 a b c) = vec3 (a * (1 / 1)) (b * (1 / 1)) (c * (1 / 1)).
Proof.
  intros Hn. unfold normalize. rewrite length_vec3.
  unfold JS.or_else, JS.truthy.
  destruct (Req_dec_T (norm a b c) 0) as [_ | N]; [| contradiction].
  unfold divideScalar. rewrite div_fin by lra. reflexivity.
Qed.

Lemma qnormalize_quat (a b c d : R) :
  let n := sqrt (a * a + b * b + c * c + d * d) in
  n <> 0 ->
  qnormalize (quat a b c d)
  = quat (a * (1 / n)) (b * (1 / n)) (c * (1 / n)) (d * (1 / n)).
Proof.
  intros n Hn. unfold qnormalize, qlength, quat.
  cbn [qx qy qz qw JS.mul JS.add].
  rewrite sqrt_fin by apply sumsq4_nonneg. fold n.
  unfold JS.eqb. destruct (Req_dec_T n 0) as [E | _]; [contradiction |].
  rewrite div_fin by assumption. reflexivity.
Qed.

(** The two branches of [setFromUnitVectors] from the up axis. *)
Lemma setFromUnitVectors_up_far (eps a b c : R) :
  eps <= 0 * a + 1 * b + 0 * c + 1 ->
  setFromUnitVectors (Fin eps) Mol3D.up (vec3 a b c)
  = qnormalize (quat (1 * c - 0 * b) (0 * a - 0 * c) (0 * b - 1 * a)
                     (0 * a + 1 * b + 0 * c + 1)).
Proof.
  intros Hr. unfold setFromUnitVectors, dot, Mol3D.up, vec3.
  cbn [vx vy vz JS.mul JS.add JS.sub JS.neg].
  rewrite ltb_fin_false by exact Hr. reflexivity.
Qed.

Lemma setFromUnitVectors_up_opposite (eps a b c : R) :
  0 * a + 1 * b + 0 * c + 1 < eps ->
  setFromUnitVectors (Fin eps) Mol3D.up (vec3 a b c)
  = qnormalize (quat 0 (- 0) 1 0).
Proof.
  intros Hr. unfold setFromUnitVectors, dot, Mol3D.up, vec3.
  cbn [vx vy vz JS.mul JS.add JS.sub JS.neg].
  rewrite ltb_fin_true by exact Hr.
  unfold JS.gtb, JS.abs. rewrite ltb_fin_false by lra. reflexivity.
Qed.

Lemma applyQuaternion_fin (a b c x y z w : R) :
  applyQuaternion (vec3 a b c) (quat x y z w)
  = let tx := 2 * (y * c - z * b) in
    let ty := 2 * (z * a - x * c) in
    let tz := 2 * (x * b - y * a) in
    vec3 (a + w * tx + y * tz - z * ty)
         (b + w * ty + z * tx - x * tz)
         (c + w * tz + x * ty - y * tx).
Proof. reflexivity. Qed.

End ThreeFinite.

(** ** Bonds of length zero, in exact arithmetic *)


Lemma Number_EPSILON_le_1 : / 2 ^ 52 <= 1.
Proof.
  assert (H : 1 <= 2 ^ 52) by (apply pow_R1_Rle; lra).
  pose proof (Rinv_le_contravar 1 (2 ^ 52) Rlt_0_1 H) as H'.
  rewrite Rinv_1 in H'. exact H'.
Qed.

Section ZeroLength.

Import Three Spec3D Mol3D.

(** The tolerance of the library and the common position of the two
    endpoints. *)
Variable eps : R.
Hypothesis eps_le_1 : eps <= 1.
Variables a b c : R.

Lemma zero_diff_norm : norm (a - a) (b - b) (c - c) = 0.
Proof.
  unfold norm.
  replace ((a - a) * (a - a) + (b - b) * (b - b) + (c - c) * (c - c)) with 0 by ring.
  apply sqrt_0.
Qed.

(** With coinciding endpoints the direction stays the zero vector and the
    orientation is the identity quaternion. *)
Lemma zero_bond_quaternion :
  setFromUnitVectors (Fin eps) up
    (normalize (subVectors (vec3 a b c) (vec3 a b c)))
  = quat 0 0 0 1.
Proof.
  rewrite subVectors_vec3, normalize_vec3_zero by apply zero_diff_norm.
  rewrite setFromUnitVectors_up_far by lra.
  set (x := 1 * ((c - c) * (1 / 1)) - 0 * ((b - b) * (1 / 1))).
  set (y := 0 * ((a - a) * (1 / 1)) - 0 * ((c - c) * (1 / 1))).
  set (z := 0 * ((b - b) * (1 / 1)) - 1 * ((a - a) * (1 / 1))).
  set (w := 0 * ((a - a) * (1 / 1)) + 1 * ((b - b) * (1 / 1))
            + 0 * ((c - c) * (1 / 1)) + 1).
  assert (Hx : x = 0) by (unfold x; field).
  assert (Hy : y = 0) by (unfold y; field).
  assert (Hz : z = 0) by (unfold z; field).
  assert (Hw : w = 1) by (unfold w; field).
  rewrite Hx, Hy, Hz, Hw.
  assert (Hn : sqrt (0 * 0 + 0 * 0 + 0 * 0 + 1 * 1) = 1).
  { replace (0 * 0 + 0 * 0 + 0 * 0 + 1 * 1) with 1 by ring. apply sqrt_1. }
  rewrite qnormalize_quat by (rewrite Hn; lra).
  rewrite Hn. unfold quat. f_equal; f_equal; field.
Qed.

Lemma zero_bond_length :
  Three.length (subVectors (vec3 a b c) (vec3 a b c)) = Fin 0.
Proof. rewrite subVectors_vec3, length_vec3, zero_diff_norm. reflexivity. Qed.

Lemma BondMesh_zero_length (o : Z) :
  Forall (fun m => finiteMesh m /\ height m = Fin 0 /\ quaternion m = quat 0 0 0 1)
         (BondMesh (Fin eps) (vec3 a b c) (vec3 a b c) o).
Proof.
  unfold BondMesh. cbv zeta.
  rewrite zero_bond_quaternion, zero_bond_length.
  destruct (o =? 1)%Z; [| destruct (o =? 2)%Z];
    repeat constructor.
Qed.

End ZeroLength.

Lemma dist_same (p : Lewis.point) : Spec.dist p p = 0.
Proof.
  unfold Spec.dist.
  replace ((fst p - fst p) * (fst p - fst p) + (snd p - snd p) * (snd p - snd p))
    with 0 by ring.
  apply sqrt_0.
Qed.

Lemma bondLines_zero_length (data : MoleculeData) (bond : Bond) (a b : Atom) :
  Forall Spec.finite2d (atoms data) ->
  index (atoms data) (source bond) = Some a ->
  index (atoms data) (target bond) = Some b ->
  x2d a = x2d b -> y2d a = y2d b ->
  Lewis.bondLines (Lewis.normalizedAtoms (Lewis.layout data)) bond = [].
Proof.
  intros Hfin Ha Hb Hx Hy.
  assert (Hne : atoms data <> []).
  { intros E. rewrite E in Ha. unfold index in Ha.
    destruct (source bond <? 0)%Z; [discriminate |].
    destruct (Z.to_nat (source bond)); discriminate. }
  rewrite layout_normalizedAtoms, scale_spec, scaledAtoms_spec by assumption.
  set (sc := Spec.scaleFactor (atoms data) (bonds data)).
  apply (bondLines_short _ _ (Spec.scaled sc a) (Spec.scaled sc b)).
  - rewrite index_map, Ha. reflexivity.
  - rewrite index_map, Hb. reflexivity.
  - split; exact I.
  - split; exact I.
  - replace (Spec.pos (Spec.scaled sc b)) with (Spec.pos (Spec.scaled sc a)).
    + rewrite dist_same. lra.
    + unfold Spec.pos, Spec.scaled. cbn [Lewis.x Lewis.y val].
      rewrite Hx, Hy. reflexivity.
Qed.

(** In exact arithmetic: for a bond whose two atoms resolve and sit at the
    same place, the planar engine draws no line, and every cylinder the
    spatial engine builds is finite, of height 0 and with the identity
    orientation. *)
Lemma zero_length_bond_exact (eps : R) (data : MoleculeData) (bond : Bond)
  (a b : Atom) :
  eps <= 1 ->
  index (atoms data) (source bond) = Some a ->
  index (atoms data) (target bond) = Some b ->
  (Forall Spec.finite2d (atoms data) ->
   x2d a = x2d b -> y2d a = y2d b ->
   Lewis.bondLines (Lewis.normalizedAtoms (Lewis.layout data)) bond = []) /\
  (Spec.finite3d a ->
   Mol3D.position3d a = Mol3D.position3d b ->
   Forall (fun m => Spec3D.finiteMesh m /\
                    Mol3D.height m = Fin 0 /\
                    Mol3D.quaternion m = Spec3D.quat 0 0 0 1)
          (Mol3D.bondMeshes (Fin eps) (atoms data) bond)).
Proof.
  intros Heps Ha Hb. split.
  - intros Hfin Hx Hy. apply (bondLines_zero_length data bond a b); assumption.
  - intros Hf Hp. unfold Mol3D.bondMeshes. rewrite Ha, Hb, <- Hp.
    assert (Hv : Spec3D.finiteV (Mol3D.position3d a)) by exact Hf.
    rewrite (finiteV_inv _ Hv). apply BondMesh_zero_length. exact Heps.
Qed.

(** ** The view frame, in exact arithmetic *)

Section BoundingBox.

Import Lewis Spec.

Lemma min_fin (a b : R) :
  exists m, JS.min (Fin a) (Fin b) = Fin m /\ m <= a /\ m <= b.
Proof.
  unfold JS.min, JS.ltb. destruct (Rlt_dec b a).
  - exists b. repeat split; lra.
  - exists a. repeat split; lra.
Qed.

Lemma max_fin (a b : R) :
  exists m, JS.max (Fin a) (Fin b) = Fin m /\ a <= m /\ b <= m.
Proof.
  unfold JS.max, JS.ltb. destruct (Rlt_dec a b).
  - exists b. repeat split; lra.
  - exists a. repeat split; lra.
Qed.

(** From a finite state the loop ends in a finite state that bounds the
    start state and every atom it visited. *)
Lemma bbox_from (nas : list ScaledAtom) :
  Forall finiteXY nas ->
  forall a b c d : R,
  exists a' b' c' d' : R,
    fold_left bboxStep nas (Fin a, Fin b, Fin c, Fin d)
    = (Fin a', Fin b', Fin c', Fin d') /\
    a' <= a /\ b <= b' /\ c' <= c /\ d <= d' /\
    forall na, In na nas ->
      a' <= val (x na) <= b' /\ c' <= val (y na) <= d'.
Proof.
  induction 1 as [| na nas [Fx Fy] _ IH]; intros a b c d.
  - exists a, b, c, d. cbn. repeat split; try lra; try contradiction.
  - cbn [fold_left bboxStep].
    rewrite (finite_inv _ Fx), (finite_inv _ Fy).
    destruct (min_fin a (val (x na))) as (a1 & -> & ? & ?).
    destruct (max_fin b (val (x na))) as (b1 & -> & ? & ?).
    destruct (min_fin c (val (y na))) as (c1 & -> & ? & ?).
    destruct (max_fin d (val (y na))) as (d1 & -> & ? & ?).
    destruct (IH a1 b1 c1 d1) as (a' & b' & c' & d' & E & ? & ? & ? & ? & Hin).
    exists a', b', c', d'. split; [exact E |].
    split; [lra |]. split; [lra |]. split; [lra |]. split; [lra |].
    intros na' [<- | Hna]; [lra | apply Hin, Hna].
Qed.

Lemma bbox_spec (na0 : ScaledAtom) (nas : list ScaledAtom) :
  Forall finiteXY (na0 :: nas) ->
  exists a b c d : R,
    bbox (na0 :: nas) = (Fin a, Fin b, Fin c, Fin d) /\
    forall na, In na (na0 :: nas) ->
      a <= val (x na) <= b /\ c <= val (y na) <= d.
Proof.
  intros Hf. inversion Hf as [| ? ? [Fx Fy] Hrest]; subst.
  unfold bbox. cbn [fold_left bboxStep].
  rewrite (finite_inv _ Fx), (finite_inv _ Fy). cbn [JS.min JS.max JS.ltb].
  destruct (bbox_from nas Hrest (val (x na0)) (val (x na0)) (val (y na0)) (val (y na0)))
    as (a & b & c & d & E & ? & ? & ? & ? & Hin).
  exists a, b, c, d. split; [exact E |].
  intros na [<- | Hna]; [lra | apply Hin, Hna].
Qed.

End BoundingBox.

Section Frame.

Import Lewis Spec SpecFrame.

Lemma maxDecorationRadius_lt_padding : maxDecorationRadius < val PADDING.
Proof. unfold maxDecorationRadius, PADDING. cbn [val]. lra. Qed.

(** The frame leaves a margin of the padding around every atom centre. *)
Lemma layout_frame (data : MoleculeData) (na : ScaledAtom) (d : R) :
  Forall finite2d (atoms data) ->
  In na (normalizedAtoms (layout data)) ->
  d < val PADDING ->
  finiteBox (viewBox (layout data)) /\ finiteXY na /\
  frameContainsSquare (viewBox (layout data)) (pos na) d.
Proof.
  intros Hfin Hin Hd.
  assert (Hne : atoms data <> []).
  { intros E. unfold layout in Hin. rewrite E in Hin. exact Hin. }
  rewrite layout_viewBox by assumption.
  rewrite layout_normalizedAtoms in Hin by assumption.
  rewrite scale_spec, scaledAtoms_spec in * by assumption.
  set (sc := scaleFactor (atoms data) (bonds data)) in *.
  assert (Hf : Forall finiteXY (map (scaled sc) (atoms data))).
  { apply Forall_map, Forall_forall. intros; split; exact I. }
  destruct (atoms data) as [| a0 rest]; [contradiction |].
  change (map (scaled sc) (a0 :: rest))
    with (scaled sc a0 :: map (scaled sc) rest) in *.
  destruct (bbox_spec _ _ Hf) as (a & b & c & e & Eb & Hall).
  rewrite Eb.
  specialize (Hall na Hin). rewrite Forall_forall in Hf.
  split; [repeat split |]. split; [apply Hf, Hin |].
  unfold frameContainsSquare, pos, PADDING in *.
  cbn [boxX boxY boxW boxH val fst snd JS.sub JS.add JS.neg JS.mul] in *.
  lra.
Qed.

(** Every circle drawn for an atom stays in the square of half-side
    [maxDecorationRadius] around the atom's centre. *)
Lemma atomDiscs_within (showLonePairs showCharges : bool) (na : ScaledAtom)
  (k : Disc) :
  In k (atomDiscs showLonePairs showCharges na) ->
  withinSquare (pos na) maxDecorationRadius k.
Proof.
  unfold atomDiscs. rewrite in_map_iff. intros (k0 & <- & Hin).
  unfold withinSquare, pos, maxDecorationRadius, atomTransform.
  cbn [centre rad applyTransforms fold_right applyTransform fst snd].
  assert (Hr : val (radius na) = 10 \/ val (radius na) = 14).
  { unfold radius. destruct (isHydrogen na); [left | right]; reflexivity. }
  destruct Hin as [<- | Hin].
  - unfold place, atomCircle.
    cbn [centre rad applyTransforms fold_right fst snd cx cy r strokeWidth val].
    destruct Hr as [-> | ->]; lra.
  - apply in_app_or in Hin. destruct Hin as [Hin | Hin].
    + unfold lonePairDiscs, lonePairGroup in Hin.
      destruct (showLonePairs && (0 <? lonePairs (atom na))%Z); [| contradiction].
      cbn [markers groupTransform] in Hin.
      rewrite in_flat_map in Hin. destruct Hin as (m & Hm & Hk).
      rewrite in_map_iff in Hm. destruct Hm as (i & <- & _).
      cbn [pairMarker markerTransform dots map app] in Hk.
      unfold place in Hk.
      cbn [applyTransforms fold_right applyTransform cx cy r strokeWidth val
           fst snd] in Hk.
      set (th := val (pairAngle (lonePairs (atom na)) i * Fin 180 / JS.PI)%js
                 * PI / 180) in Hk.
      pose proof (COS_bound th) as [Hc1 Hc2].
      pose proof (SIN_bound th) as [Hs1 Hs2].
      assert (Hg : val (- (radius na + Fin 4))%js = - (val (radius na) + 4)).
      { unfold radius. destruct (isHydrogen na); reflexivity. }
      rewrite Hg in Hk.
      destruct Hk as [<- | [<- | []]]; cbn [centre rad fst snd JS.neg val];
        destruct Hr as [-> | ->]; lra.
    + unfold chargeDiscs, chargeBadge in Hin.
      destruct (showCharges && negb (charge (atom na) =? 0)%Z); [| contradiction].
      destruct Hin as [<- | []].
      unfold place. cbn [applyTransforms fold_right applyTransform cx cy r
                         strokeWidth val centre rad fst snd].
      unfold radius. destruct (isHydrogen na);
        cbn [JS.sub JS.add JS.neg val]; lra.
Qed.

End Frame.

(** In exact arithmetic: for finite raw coordinates the view frame is
    finite and, around every normalized atom centre, strictly contains the
    square whose half-side is the largest reach of a decoration; every
    circle drawn for the atom lies in that square. *)
Lemma frame_contains_decorations_exact (data : MoleculeData)
  (showLonePairs showCharges : bool) (na : Lewis.ScaledAtom) :
  atoms data <> [] ->
  Forall Spec.finite2d (atoms data) ->
  In na (Lewis.normalizedAtoms (Lewis.layout data)) ->
  let vb := Lewis.viewBox (Lewis.layout data) in
  SpecFrame.finiteBox vb /\
  SpecFrame.frameContainsSquare vb (Spec.pos na) SpecFrame.maxDecorationRadius /\
  forall k, In k (Lewis.atomDiscs showLonePairs showCharges na) ->
    SpecFrame.withinSquare (Spec.pos na) SpecFrame.maxDecorationRadius k /\
    SpecFrame.frameContainsDisc vb k.
Proof.
  intros _ Hfin Hin vb.
  destruct (layout_frame data na SpecFrame.maxDecorationRadius Hfin Hin
              maxDecorationRadius_lt_padding) as (Hb & _ & Hsq).
  split; [exact Hb |]. split; [exact Hsq |].
  intros k Hk.
  pose proof (atomDiscs_within _ _ _ _ Hk) as Hw.
  split; [exact Hw |].
  unfold SpecFrame.frameContainsDisc, SpecFrame.frameContainsSquare,
    SpecFrame.withinSquare in *.
  fold vb in Hsq. lra.
Qed.

(** ** The lone-pair markers *)

Section LonePairs.

Import Lewis SpecPairs.

Lemma max_k_1_nonzero (k : Z) : IZR (Z.max k 1) <> 0.
Proof. apply not_0_IZR. lia. Qed.

Lemma pairAngle_fin (k : Z) (i : nat) :
  pairAngle k i = Fin (INR i * 2 * PI / IZR (Z.max k 1) - PI / 2).
Proof.
  unfold pairAngle, JS.PI, ofZ. cbn [JS.mul].
  rewrite !div_fin by (try apply max_k_1_nonzero; lra). reflexivity.
Qed.

(** The turn the SVG applies for marker [i], in radians. *)
Lemma marker_turn (k : Z) (i : nat) :
  (0 < k)%Z ->
  val (pairAngle k i * Fin 180 / JS.PI)%js * PI / 180 = theta k i.
Proof.
  intros Hk. rewrite pairAngle_fin. unfold JS.PI. cbn [JS.mul].
  rewrite div_fin by apply PI_neq0. cbn [val].
  rewrite Z.max_l by lia. unfold theta.
  field. split; [apply not_0_IZR; lia | apply PI_neq0].
Qed.

Lemma markerCentre_spec (k : Z) (i : nat) :
  (0 < k)%Z -> markerCentre (pairMarker k i) = onRing (theta k i).
Proof.
  intros Hk. unfold markerCentre, pairMarker. cbv zeta.
  cbn [markerTransform applyTransforms fold_right applyTransform fst snd JS.neg val].
  rewrite marker_turn by assumption. unfold onRing. f_equal; ring.
Qed.

Lemma dotCentres_spec (k : Z) (i : nat) :
  (0 < k)%Z ->
  let th := theta k i in
  let c := markerCentre (pairMarker k i) in
  dotCentres (pairMarker k i)
  = [ (fst c - 5 / 2 * cos th, snd c - 5 / 2 * sin th);
      (fst c + 5 / 2 * cos th, snd c + 5 / 2 * sin th) ].
Proof.
  intros Hk th c. unfold c. rewrite markerCentre_spec by assumption.
  unfold dotCentres, pairMarker, onRing. cbv zeta.
  cbn [markerTransform dots map applyTransforms fold_right applyTransform
       fst snd JS.neg val cx cy].
  rewrite marker_turn by assumption. fold th.
  repeat first [ apply (f_equal2 (@cons point)) | apply (f_equal2 (@pair R R))
               | reflexivity | ring ].
Qed.

Lemma theta_first (k : Z) : theta k 0 = - (PI / 2).
Proof. unfold theta. cbn [INR]. ring. Qed.

Lemma theta_step (k : Z) (i : nat) :
  theta k (S i) - theta k i = 2 * PI / IZR k.
Proof. unfold theta. rewrite S_INR. unfold Rdiv. ring. Qed.

Lemma onRing_first : onRing (- (PI / 2)) = (- 6, 0).
Proof.
  unfold onRing. rewrite sin_neg, cos_neg, sin_PI2, cos_PI2. f_equal; ring.
Qed.

Lemma lonePairGroup_some (a : ScaledAtom) :
  (0 < lonePairs (atom a))%Z ->
  lonePairGroup true a
  = Some {| groupTransform := [ Translate (Fin 0) (- (radius a + Fin 4))%js ];
            markers := map (pairMarker (lonePairs (atom a)))
                           (seq 0 (Z.to_nat (lonePairs (atom a)))) |}.
Proof.
  intros Hk. unfold lonePairGroup.
  apply Z.ltb_lt in Hk. rewrite Hk. reflexivity.
Qed.

Lemma lonePairGroup_none (a : ScaledAtom) :
  (lonePairs (atom a) <= 0)%Z -> lonePairGroup true a = None.
Proof.
  intros Hk. unfold lonePairGroup.
  apply Z.ltb_ge in Hk. rewrite Hk. reflexivity.
Qed.

End LonePairs.

(** What the code emits for the lone pairs.  With the lone pairs shown, an
    atom with [k <= 0] lone pairs gets no marker group, and none either when
    they are hidden; an atom with [k > 0] gets exactly [k] markers around a
    ring of radius 6 whose centre is [radius + 4] above the atom.  Marker
    [i] sits at the ring's top point turned by [i * 2π/k - π/2], so
    consecutive markers are [2π/k] apart, and the first one is a quarter
    turn before the top.  Each marker has two dots of radius 1.8, placed
    2.5 to either side of the marker's centre along the direction
    perpendicular to the radius through it. *)
Lemma lone_pair_markers_placed (a : Lewis.ScaledAtom) :
  let k := lonePairs (Lewis.atom a) in
  Lewis.lonePairGroup false a = None /\
  ((k <= 0)%Z -> Lewis.lonePairGroup true a = None) /\
  ((0 < k)%Z ->
   exists g,
     Lewis.lonePairGroup true a = Some g /\
     List.length (Lewis.markers g) = Z.to_nat k /\
     SpecPairs.ringCentre g = (0, - (val (Lewis.radius a) + 4)) /\
     forall i, (i < Z.to_nat k)%nat ->
       exists m,
         nth_error (Lewis.markers g) i = Some m /\
         SpecPairs.markerCentre m = SpecPairs.onRing (SpecPairs.theta k i) /\
         SpecPairs.dotCentres m =
           [ (fst (SpecPairs.markerCentre m) - 5 / 2 * cos (SpecPairs.theta k i),
              snd (SpecPairs.markerCentre m) - 5 / 2 * sin (SpecPairs.theta k i));
             (fst (SpecPairs.markerCentre m) + 5 / 2 * cos (SpecPairs.theta k i),
              snd (SpecPairs.markerCentre m) + 5 / 2 * sin (SpecPairs.theta k i)) ] /\
         map Lewis.r (Lewis.dots m) = [ Fin (9 / 5); Fin (9 / 5) ]) /\
  (forall i, SpecPairs.theta k (S i) - SpecPairs.theta k i = 2 * PI / IZR k) /\
  (forall th,
     fst (SpecPairs.onRing th) * fst (SpecPairs.onRing th)
     + snd (SpecPairs.onRing th) * snd (SpecPairs.onRing th) = 6 * 6 /\
     fst (SpecPairs.onRing th) * cos th + snd (SpecPairs.onRing th) * sin th = 0) /\
  SpecPairs.onRing (SpecPairs.theta k 0) = (- 6, 0).
Proof.
  intros k. split; [reflexivity |].
  split; [apply lonePairGroup_none |].
  split.
  - intros Hk. eexists. split; [apply lonePairGroup_some; exact Hk |].
    cbn [Lewis.markers Lewis.groupTransform]. fold k.
    split; [rewrite length_map, length_seq; reflexivity |].
    split.
    + unfold SpecPairs.ringCentre.
      cbn [Lewis.groupTransform Lewis.applyTransforms fold_right
           Lewis.applyTransform fst snd val].
      unfold Lewis.radius. destruct (Lewis.isHydrogen a);
        cbn [JS.add JS.neg val]; f_equal; ring.
    + intros i Hi. exists (Lewis.pairMarker k i).
      split.
      { rewrite nth_error_map, nth_error_seq.
        apply Nat.ltb_lt in Hi. rewrite Hi. reflexivity. }
      split; [apply markerCentre_spec; exact Hk |].
      split; [apply dotCentres_spec; exact Hk | reflexivity].
  - split; [intros i; apply theta_step |].
    split.
    + intros th. unfold SpecPairs.onRing. cbn [fst snd].
      pose proof (sin2_cos2 th) as H. unfold Rsqr in H.
      split; [| ring].
      replace (6 * sin th * (6 * sin th) + - (6 * cos th) * - (6 * cos th))
        with (36 * (sin th * sin th + cos th * cos th)) by ring.
      rewrite H. ring.
    + rewrite theta_first. apply onRing_first.
Qed.

(** C7: the code on an atom with one lone pair, the lone pairs shown.  It
    emits the one marker the specification asks for, but centres it 6 to
    the left of the ring's centre, level with it, where the specification
    has the first pair upward: the translation by [(0, -6)] already points
    to the top of the ring, and the starting angle [-π/2] turns it a
    quarter turn away. *)
Theorem C7_first_pair_not_upward :
  option_map Lewis.markers (Lewis.lonePairGroup true Examples.onePair)
  = Some [ Lewis.pairMarker 1 0 ] /\
  SpecPairs.markerCentre (Lewis.pairMarker 1 0) = (- 6, 0) /\
  ~ SpecPairs.upward (SpecPairs.markerCentre (Lewis.pairMarker 1 0)).
Proof.
  assert (Hc : SpecPairs.markerCentre (Lewis.pairMarker 1 0) = (- 6, 0)).
  { rewrite markerCentre_spec by lia. rewrite theta_first. apply onRing_first. }
  split; [reflexivity |]. split; [exact Hc |].
  rewrite Hc. unfold SpecPairs.upward. cbn [fst snd]. lra.
Qed.

(** ** The cylinders of a bond, in exact arithmetic *)

Lemma vec3_eq (x y z x' y' z' : R) :
  x = x' -> y = y' -> z = z' -> Spec3D.vec3 x y z = Spec3D.vec3 x' y' z'.
Proof. intros -> -> ->. reflexivity. Qed.

Section Orientation.

Import Three Spec3D Mol3D.

(** The tolerance of the library, and a direction [(a, b, c)] of length 1. *)
Variable eps : R.
Hypothesis eps_range : 0 < eps <= 1.
Variables a b c : R.
Hypothesis unit_abc : a * a + b * b + c * c = 1.



End Orientation.


Section BondCylinders.

Import Three Spec3D Mol3D.


Lemma norm_sqr (x y z : R) : norm x y z * norm x y z = x * x + y * y + z * z.
Proof. unfold norm. apply sqrt_sqrt, sumsq3_nonneg. Qed.



End BondCylinders.


(** The scenario of the specification: a triple bond 1.5 long.  The three
    cylinders sit on the axis and 0.15 to either side of it. *)
Lemma alongX_direction :
  Three.normalize (Three.subVectors Examples3D.alongX Examples3D.origin)
  = Spec3D.vec3 1 0 0.
Proof.
  unfold Examples3D.alongX, Examples3D.origin.
  assert (Hn : Spec3D.norm (3 / 2 - 0) (0 - 0) (0 - 0) = 3 / 2).
  { unfold Spec3D.norm. apply sqrt_lem_1; lra. }
  rewrite subVectors_vec3, normalize_vec3 by (rewrite Hn; lra).
  rewrite Hn. apply vec3_eq; field.
Qed.

Example alongX_cylinders :
  map Mol3D.position
    (Mol3D.BondMesh Three.Number_EPSILON Examples3D.origin Examples3D.alongX 3)
  = [ Spec3D.vec3 (3 / 4) 0 0;
      Spec3D.vec3 (3 / 4) (- (15 / 100)) 0;
      Spec3D.vec3 (3 / 4) (15 / 100) 0 ] /\
  map Mol3D.height
    (Mol3D.BondMesh Three.Number_EPSILON Examples3D.origin Examples3D.alongX 3)
  = [ Fin (3 / 2); Fin (3 / 2); Fin (3 / 2) ].
Proof.
  pose proof Number_EPSILON_le_1 as He.
  unfold Mol3D.BondMesh. cbv zeta.
  change ((3 =? 1)%Z) with false. change ((3 =? 2)%Z) with false.
  cbn [map Mol3D.position Mol3D.height Mol3D.cylinder].
  rewrite alongX_direction.
  unfold Three.Number_EPSILON.
  rewrite setFromUnitVectors_up_far by lra.
  set (n := sqrt ((1 * 0 - 0 * 0) * (1 * 0 - 0 * 0)
                  + (0 * 1 - 0 * 0) * (0 * 1 - 0 * 0)
                  + (0 * 0 - 1 * 1) * (0 * 0 - 1 * 1)
                  + (0 * 1 + 1 * 0 + 0 * 0 + 1) * (0 * 1 + 1 * 0 + 0 * 0 + 1))).
  assert (Hnn : n * n = 2).
  { unfold n. rewrite sqrt_sqrt by apply sumsq4_nonneg. ring. }
  assert (Hn : 0 < n).
  { apply sqrt_lt_R0. lra. }
  rewrite qnormalize_quat by (fold n; lra). fold n.
  set (k := 1 / n).
  assert (Hk : k * n = 1) by (unfold k; field; lra).
  unfold Mol3D.unitX. fold (Spec3D.vec3 1 0 0).
  rewrite applyQuaternion_fin. cbv zeta.
  unfold Examples3D.alongX, Examples3D.origin, Three.add. cbn [JS.neg].
  rewrite !addVectors_vec3, !multiplyScalar_vec3, !addVectors_vec3.
  rewrite subVectors_vec3, length_vec3.
  clearbody k n. clear Hn He.
  split.
  - assert (Hkk : 2 * (k * k) = 1) by nsatz.
    repeat first [ apply (f_equal2 (@cons Three.Vector3)) | reflexivity
                 | apply vec3_eq; ring_simplify; nra ].
  - assert (Hl : Spec3D.norm (3 / 2 - 0) (0 - 0) (0 - 0) = 3 / 2).
    { unfold Spec3D.norm. apply sqrt_lem_1; lra. }
    rewrite Hl. reflexivity.
Qed.

(** * Further properties of the code *)

(** ** The planar layout *)

Lemma layout_atoms (data : MoleculeData) :
  map Lewis.atom (Lewis.normalizedAtoms (Lewis.layout data)) = atoms data.
Proof.
  destruct (atoms data) as [| a rest] eqn:E.
  - unfold Lewis.layout. rewrite E. reflexivity.
  - rewrite layout_normalizedAtoms by (rewrite E; discriminate).
    rewrite map_map. cbn [Lewis.scaleAtom Lewis.atom].
    rewrite map_id. exact E.
Qed.

Lemma layout_resolves (data : MoleculeData) (b : Bond) :
  Spec.resolves (Lewis.normalizedAtoms (Lewis.layout data)) b
  = Spec.resolves (atoms data) b.
Proof.
  pose proof (resolves_map Lewis.atom
                (Lewis.normalizedAtoms (Lewis.layout data)) b) as H.
  rewrite layout_atoms in H. symmetry. exact H.
Qed.

(** X1: the layout keeps every atom, in its place and with its fields, so
    the index of a bond resolves among the normalized atoms exactly when it
    resolves among the atoms of the record: the drawing pass skips the
    bonds the averaging pass skipped, and no others for want of an atom. *)
Theorem X1_layout_keeps_atoms (data : MoleculeData) :
  map Lewis.atom (Lewis.normalizedAtoms (Lewis.layout data)) = atoms data /\
  List.length (Lewis.normalizedAtoms (Lewis.layout data))
  = List.length (atoms data) /\
  (forall i, option_map Lewis.atom
               (index (Lewis.normalizedAtoms (Lewis.layout data)) i)
             = index (atoms data) i) /\
  (forall b, Spec.resolves (Lewis.normalizedAtoms (Lewis.layout data)) b
             = Spec.resolves (atoms data) b).
Proof.
  split; [apply layout_atoms |].
  split.
  { pose proof (length_map Lewis.atom
                  (Lewis.normalizedAtoms (Lewis.layout data))) as H.
    rewrite layout_atoms in H. symmetry. exact H. }
  split; [| apply layout_resolves].
  intros i. rewrite <- index_map, layout_atoms. reflexivity.
Qed.

Lemma scaleFactor_bounds (ats : list Atom) (bs : list Bond) :
  0 < Spec.scaleFactor ats bs < 60000.
Proof.
  unfold Spec.scaleFactor. cbv zeta.
  destruct (Rlt_dec (1 / 1000) (Spec.meanRawLength ats bs)) as [L | _]; [| lra].
  set (m := Spec.meanRawLength ats bs) in *.
  assert (Hm : 0 < m) by lra.
  split.
  - apply Rdiv_lt_0_compat; lra.
  - apply (Rmult_lt_reg_r m); [exact Hm |].
    replace (60 / m * m) with 60 by (field; lra). lra.
Qed.

(** In exact arithmetic: on finite raw coordinates the scale is strictly
    between 0 and 60000 and every normalized coordinate is finite. *)
Lemma scale_bounded_exact (data : MoleculeData) :
  Forall Spec.finite2d (atoms data) ->
  exists s : R,
    Lewis.scale (atoms data) (bonds data) = Fin s /\ 0 < s < 60000 /\
    Forall Spec.finiteXY (Lewis.normalizedAtoms (Lewis.layout data)).
Proof.
  intros Hfin. exists (Spec.scaleFactor (atoms data) (bonds data)).
  split; [apply scale_spec; exact Hfin |].
  split; [apply scaleFactor_bounds |].
  destruct (atoms data) as [| a rest] eqn:E.
  - unfold Lewis.layout. rewrite E. constructor.
  - rewrite layout_normalizedAtoms by (rewrite E; discriminate).
    rewrite E in *. rewrite scale_spec, scaledAtoms_spec by exact Hfin.
    apply Forall_map, Forall_forall. intros; split; exact I.
Qed.

(** In exact arithmetic: the layout multiplies by a positive number, so it
    keeps the order of the atoms along each axis. *)
Lemma layout_keeps_order_exact (data : MoleculeData) (a b : Atom) :
  Forall Spec.finite2d (atoms data) ->
  In a (atoms data) -> In b (atoms data) ->
  let sc := Lewis.scale (atoms data) (bonds data) in
  In (Lewis.scaleAtom sc a) (Lewis.normalizedAtoms (Lewis.layout data)) /\
  In (Lewis.scaleAtom sc b) (Lewis.normalizedAtoms (Lewis.layout data)) /\
  (val (x2d a) < val (x2d b) <->
   val (Lewis.x (Lewis.scaleAtom sc a)) < val (Lewis.x (Lewis.scaleAtom sc b))) /\
  (val (y2d a) < val (y2d b) <->
   val (Lewis.y (Lewis.scaleAtom sc a)) < val (Lewis.y (Lewis.scaleAtom sc b))) /\
  (Spec.raw2d a = Spec.raw2d b <->
   Spec.pos (Lewis.scaleAtom sc a) = Spec.pos (Lewis.scaleAtom sc b)).
Proof.
  intros Hfin Ha Hb sc.
  assert (Hne : atoms data <> []) by (intros E; rewrite E in Ha; exact Ha).
  rewrite layout_normalizedAtoms by exact Hne. fold sc.
  split; [apply in_map; exact Ha |]. split; [apply in_map; exact Hb |].
  unfold sc. rewrite scale_spec by exact Hfin.
  pose proof (scaleFactor_bounds (atoms data) (bonds data)) as [Hs _].
  set (s := Spec.scaleFactor (atoms data) (bonds data)) in *.
  rewrite Forall_forall in Hfin.
  rewrite (scaleAtom_spec s a (Hfin a Ha)), (scaleAtom_spec s b (Hfin b Hb)).
  unfold Spec.scaled, Spec.pos, Spec.raw2d. cbn [Lewis.x Lewis.y val].
  split; [| split].
  - split; intros H.
    + apply Rmult_lt_compat_r; assumption.
    + apply (Rmult_lt_reg_r s); assumption.
  - split; intros H.
    + apply Rmult_lt_compat_r; assumption.
    + apply (Rmult_lt_reg_r s); assumption.
  - split; intros H.
    + injection H as -> ->. reflexivity.
    + injection H as Hx Hy.
      apply Rmult_eq_reg_r in Hx; [| lra].
      apply Rmult_eq_reg_r in Hy; [| lra].
      rewrite Hx, Hy. reflexivity.
Qed.

Section UnitInvariance.

Import Lewis Spec Units.

Lemma dist_mul (s a b a' b' : R) :
  0 <= s -> dist (a * s, b * s) (a' * s, b' * s) = s * dist (a, b) (a', b').
Proof.
  intros Hs. unfold dist. cbn [fst snd].
  replace ((a * s - a' * s) * (a * s - a' * s) + (b * s - b' * s) * (b * s - b' * s))
    with ((s * s) * ((a - a') * (a - a') + (b - b') * (b - b'))) by ring.
  rewrite sqrt_mult_alt by (apply Rle_0_sqr).
  rewrite sqrt_square by assumption. reflexivity.
Qed.

Lemma bondLength_rescaled (c : R) (ats : list Atom) (b : Bond) :
  0 <= c ->
  bondLength raw2d (map (rescaleAtom c) ats) b = c * bondLength raw2d ats b.
Proof.
  intros Hc. unfold bondLength. rewrite !index_map.
  destruct (index ats (source b)) as [u |]; cbn [option_map]; [| ring].
  destruct (index ats (target b)) as [v |]; cbn [option_map]; [| ring].
  unfold raw2d, rescaleAtom. cbn [x2d y2d val]. apply dist_mul; assumption.
Qed.

Lemma meanLength_rescaled (c : R) (ats : list Atom) (bs : list Bond) :
  0 <= c ->
  meanLength raw2d (map (rescaleAtom c) ats) bs = c * meanLength raw2d ats bs.
Proof.
  intros Hc. unfold meanLength. rewrite resolvedBonds_map.
  rewrite (map_ext _ (fun b => c * bondLength raw2d ats b)).
  - rewrite sumR_scale. unfold Rdiv. ring.
  - intros b. apply bondLength_rescaled; assumption.
Qed.

Lemma bbox_coords (l l' : list ScaledAtom) :
  map coords l = map coords l' -> bbox l = bbox l'.
Proof.
  unfold bbox. generalize (PInf, NInf, PInf, NInf).
  revert l'. induction l as [| a l IH]; intros [| a' l'] st H;
    try discriminate; [reflexivity |].
  cbn [map] in H. injection H as Hx Hy Hl.
  cbn [fold_left]. unfold bboxStep at 2 4.
  destruct st as [[[mx Mx] my] My]. rewrite Hx, Hy. apply IH, Hl.
Qed.

Lemma index_coords (l l' : list ScaledAtom) (i : Z) :
  map coords l = map coords l' ->
  option_map coords (index l i) = option_map coords (index l' i).
Proof. intros H. rewrite <- !index_map, H. reflexivity. Qed.

(** The lines of a bond depend on the normalized atoms through their
    coordinates only. *)
Lemma bondLines_coords (l l' : list ScaledAtom) (b : Bond) :
  map coords l = map coords l' -> bondLines l b = bondLines l' b.
Proof.
  intros H. unfold bondLines.
  pose proof (index_coords l l' (source b) H) as Hs.
  pose proof (index_coords l l' (target b) H) as Ht.
  destruct (index l (source b)) as [s |], (index l' (source b)) as [s' |];
    try discriminate; [| reflexivity].
  destruct (index l (target b)) as [t |], (index l' (target b)) as [t' |];
    try discriminate; [| reflexivity].
  cbn [option_map] in Hs, Ht. unfold coords in Hs, Ht.
  injection Hs as Hsx Hsy. injection Ht as Htx Hty.
  rewrite Hsx, Hsy, Htx, Hty. reflexivity.
Qed.

End UnitInvariance.

(** X4: the drawing does not depend on the unit of the raw coordinates.
    When all raw planar coordinates are multiplied by a positive [c] and
    the mean raw bond length is above 0.001 before and after, the
    normalized coordinates, the view box and the lines of every bond are
    the same. *)
Theorem X4_layout_unit_invariant (c : R) (data : MoleculeData) :
  0 < c ->
  Forall Spec.finite2d (atoms data) ->
  Spec.resolvedBonds (atoms data) (bonds data) <> [] ->
  1 / 1000 < Spec.meanLength Spec.raw2d (atoms data) (bonds data) ->
  1 / 1000 < c * Spec.meanLength Spec.raw2d (atoms data) (bonds data) ->
  map Units.coords (Lewis.normalizedAtoms (Lewis.layout (Units.rescale c data)))
  = map Units.coords (Lewis.normalizedAtoms (Lewis.layout data)) /\
  Lewis.viewBox (Lewis.layout (Units.rescale c data))
  = Lewis.viewBox (Lewis.layout data) /\
  forall b,
    Lewis.bondLines (Lewis.normalizedAtoms (Lewis.layout (Units.rescale c data))) b
    = Lewis.bondLines (Lewis.normalizedAtoms (Lewis.layout data)) b.
Proof.
  intros Hc Hfin Hres Hm Hcm.
  assert (Hne : atoms data <> []).
  { intros E. rewrite E in Hres. apply Hres, resolvedBonds_nil_atoms. }
  assert (Hne' : atoms (Units.rescale c data) <> []).
  { cbn [Units.rescale atoms]. destruct (atoms data); [contradiction | discriminate]. }
  assert (Hfin' : Forall Spec.finite2d (atoms (Units.rescale c data))).
  { cbn [Units.rescale atoms]. apply Forall_map, Forall_forall.
    intros; split; exact I. }
  set (m := Spec.meanLength Spec.raw2d (atoms data) (bonds data)) in *.
  assert (Hs : Spec.scaleFactor (atoms data) (bonds data) = 60 / m).
  { unfold Spec.scaleFactor, Spec.meanRawLength.
    destruct (Spec.resolvedBonds (atoms data) (bonds data)); [contradiction |].
    fold m. cbv zeta. destruct (Rlt_dec _ _); [reflexivity | contradiction]. }
  assert (Hs' : Spec.scaleFactor (atoms (Units.rescale c data))
                  (bonds (Units.rescale c data)) = 60 / (c * m)).
  { unfold Spec.scaleFactor, Spec.meanRawLength.
    cbn [Units.rescale atoms bonds].
    rewrite resolvedBonds_map.
    destruct (Spec.resolvedBonds (atoms data) (bonds data)); [contradiction |].
    rewrite meanLength_rescaled by lra. fold m. cbv zeta.
    destruct (Rlt_dec _ _); [reflexivity | contradiction]. }
  assert (Hcoords :
    map Units.coords (Lewis.normalizedAtoms (Lewis.layout (Units.rescale c data)))
    = map Units.coords (Lewis.normalizedAtoms (Lewis.layout data))).
  { rewrite !layout_normalizedAtoms by assumption.
    rewrite !scale_spec, !scaledAtoms_spec by assumption.
    rewrite Hs, Hs'. cbn [Units.rescale atoms]. rewrite !map_map.
    apply map_ext. intros a.
    unfold Units.coords, Spec.scaled, Units.rescaleAtom.
    cbn [Lewis.x Lewis.y x2d y2d val].
    apply f_equal2; apply f_equal; field; lra. }
  split; [exact Hcoords |].
  split; [| intros b; apply bondLines_coords; exact Hcoords].
  rewrite !layout_viewBox by assumption.
  rewrite <- !layout_normalizedAtoms by assumption.
  rewrite (bbox_coords _ _ Hcoords). reflexivity.
Qed.

Lemma X4_layout_unit_invariant_witness :
  Lewis.viewBox (Lewis.layout (Units.rescale 1000 Examples.bent))
  = Lewis.viewBox (Lewis.layout Examples.bent).
Proof.
  apply (X4_layout_unit_invariant 1000 Examples.bent).
  - lra.
  - exact bent_finite.
  - discriminate.
  - rewrite bent_meanRaw. lra.
  - rewrite bent_meanRaw. lra.
Defined.

Section FrameTight.

Import Lewis Spec.

Lemma min_fin_cases (a b : R) :
  JS.min (Fin a) (Fin b) = Fin a \/ JS.min (Fin a) (Fin b) = Fin b.
Proof. unfold JS.min. destruct (JS.ltb _ _); [right | left]; reflexivity. Qed.

Lemma max_fin_cases (a b : R) :
  JS.max (Fin a) (Fin b) = Fin a \/ JS.max (Fin a) (Fin b) = Fin b.
Proof. unfold JS.max. destruct (JS.ltb _ _); [right | left]; reflexivity. Qed.

(** Each bound the loop ends with is the one it started from or a
    coordinate of an atom it visited. *)
Lemma bbox_from_attained (nas : list ScaledAtom) :
  Forall finiteXY nas ->
  forall a b c d : R,
  exists a' b' c' d' : R,
    fold_left bboxStep nas (Fin a, Fin b, Fin c, Fin d)
    = (Fin a', Fin b', Fin c', Fin d') /\
    (a' = a \/ exists na, In na nas /\ val (x na) = a') /\
    (b' = b \/ exists na, In na nas /\ val (x na) = b') /\
    (c' = c \/ exists na, In na nas /\ val (y na) = c') /\
    (d' = d \/ exists na, In na nas /\ val (y na) = d').
Proof.
  induction 1 as [| na nas [Fx Fy] _ IH]; intros a b c d.
  - exists a, b, c, d. cbn. repeat split; left; reflexivity.
  - cbn [fold_left bboxStep].
    rewrite (finite_inv _ Fx), (finite_inv _ Fy).
    assert (Hlift : forall (P : ScaledAtom -> R) v,
              (exists n, In n nas /\ P n = v) ->
              exists n, In n (na :: nas) /\ P n = v).
    { intros P v (n & Hn & E). exists n. split; [right; exact Hn | exact E]. }
    destruct (min_fin_cases a (val (x na))) as [Ea | Ea];
    destruct (max_fin_cases b (val (x na))) as [Eb | Eb];
    destruct (min_fin_cases c (val (y na))) as [Ec | Ec];
    destruct (max_fin_cases d (val (y na))) as [Ed | Ed];
    rewrite Ea, Eb, Ec, Ed;
    match goal with
    | |- context [fold_left bboxStep nas (Fin ?p, Fin ?q, Fin ?r, Fin ?s)] =>
        destruct (IH p q r s) as (a' & b' & c' & d' & E & Ha & Hb & Hc & Hd)
    end;
    exists a', b', c', d'; (split; [exact E |]);
    repeat split;
    match goal with
    | H : ?v = _ \/ _ |- ?v = _ \/ _ =>
        destruct H as [-> | H];
        [ first [ left; reflexivity
                | right; exists na; split; [left; reflexivity | reflexivity] ]
        | right; apply Hlift; exact H ]
    end.
Qed.

Lemma bbox_attained (na0 : ScaledAtom) (nas : list ScaledAtom) :
  Forall finiteXY (na0 :: nas) ->
  exists a b c d : R,
    bbox (na0 :: nas) = (Fin a, Fin b, Fin c, Fin d) /\
    (exists na, In na (na0 :: nas) /\ val (x na) = a) /\
    (exists na, In na (na0 :: nas) /\ val (x na) = b) /\
    (exists na, In na (na0 :: nas) /\ val (y na) = c) /\
    (exists na, In na (na0 :: nas) /\ val (y na) = d).
Proof.
  intros Hf. inversion Hf as [| ? ? [Fx Fy] Hrest]; subst.
  unfold bbox. cbn [fold_left bboxStep].
  rewrite (finite_inv _ Fx), (finite_inv _ Fy). cbn [JS.min JS.max JS.ltb].
  destruct (bbox_from_attained nas Hrest (val (x na0)) (val (x na0))
              (val (y na0)) (val (y na0)))
    as (a & b & c & d & E & Ha & Hb & Hc & Hd).
  exists a, b, c, d. split; [exact E |].
  repeat split;
    match goal with
    | H : ?v = _ \/ _ |- exists na, _ /\ _ = ?v =>
        destruct H as [-> | (n & Hn & En)];
        [ exists na0; split; [left; reflexivity | reflexivity]
        | exists n; split; [right; exact Hn | exact En] ]
    end.
Qed.

End FrameTight.

(** In exact arithmetic: on each of the four sides of the frame some
    normalized atom centre lies exactly the padding inside it, and the frame
    is at least 80 wide and 80 high. *)
Lemma frame_tight_exact (data : MoleculeData) :
  atoms data <> [] ->
  Forall Spec.finite2d (atoms data) ->
  let vb := Lewis.viewBox (Lewis.layout data) in
  let nas := Lewis.normalizedAtoms (Lewis.layout data) in
  (exists na, In na nas /\ val (Lewis.x na) - 40 = val (Lewis.boxX vb)) /\
  (exists na, In na nas /\
     val (Lewis.x na) + 40 = val (Lewis.boxX vb) + val (Lewis.boxW vb)) /\
  (exists na, In na nas /\ val (Lewis.y na) - 40 = val (Lewis.boxY vb)) /\
  (exists na, In na nas /\
     val (Lewis.y na) + 40 = val (Lewis.boxY vb) + val (Lewis.boxH vb)) /\
  80 <= val (Lewis.boxW vb) /\ 80 <= val (Lewis.boxH vb).
Proof.
  intros Hne Hfin vb nas. unfold vb, nas.
  rewrite layout_viewBox, layout_normalizedAtoms by assumption.
  rewrite scale_spec, scaledAtoms_spec by assumption.
  set (sc := Spec.scaleFactor (atoms data) (bonds data)).
  assert (Hf : Forall Spec.finiteXY (map (Spec.scaled sc) (atoms data))).
  { apply Forall_map, Forall_forall. intros; split; exact I. }
  destruct (atoms data) as [| a0 rest]; [contradiction |].
  change (map (Spec.scaled sc) (a0 :: rest))
    with (Spec.scaled sc a0 :: map (Spec.scaled sc) rest) in *.
  destruct (bbox_spec _ _ Hf) as (a & b & c & d & Eb & Hall).
  destruct (bbox_attained _ _ Hf) as (a' & b' & c' & d' & Eb' & Ha & Hb & Hc & Hd).
  rewrite Eb in Eb'. injection Eb' as <- <- <- <-. rewrite Eb.
  unfold Lewis.PADDING.
  cbn [Lewis.boxX Lewis.boxY Lewis.boxW Lewis.boxH val JS.sub JS.add JS.neg JS.mul].
  destruct Ha as (na & Hna & Ea), Hb as (nb & Hnb & Eb2),
           Hc as (nc & Hnc & Ec), Hd as (nd & Hnd & Ed).
  pose proof (Hall na Hna) as Ba. pose proof (Hall nc Hnc) as Bc.
  split; [exists na; split; [exact Hna | lra] |].
  split; [exists nb; split; [exact Hnb | lra] |].
  split; [exists nc; split; [exact Hnc | lra] |].
  split; [exists nd; split; [exact Hnd | lra] |].
  split; lra.
Qed.

(** ** The bond lines *)

Lemma unit_component (a b : R) : a * a + b * b = 1 -> - 1 <= a <= 1.
Proof.
  intros H. pose proof (Rle_0_sqr b) as Hb. unfold Rsqr in Hb.
  assert (Ha : a * a <= 1 * 1) by lra.
  split.
  - destruct (Rle_lt_dec (- 1) a) as [L | L]; [exact L | exfalso].
    assert (1 * 1 < (- a) * (- a))
      by (apply Rmult_le_0_lt_compat; lra).
    lra.
  - destruct (Rle_lt_dec a 1) as [L | L]; [exact L | exfalso].
    assert (1 * 1 < a * a) by (apply Rmult_le_0_lt_compat; lra).
    lra.
Qed.

(** An end of a segment moved by [k] along the unit normal stays within
    [|k|] of the end it started from, on each axis. *)
Lemma shift_near (k m : R) (p q c : Lewis.point) :
  0 < Spec.dist q p -> - m <= k <= m ->
  let c' := SpecLines.shift k (SpecLines.unitNormal p q) c in
  fst c - m <= fst c' <= fst c + m /\ snd c - m <= snd c' <= snd c + m.
Proof.
  intros Hd Hk. destruct (unitNormal_unit p q Hd) as [Hu _].
  set (n := SpecLines.unitNormal p q) in *. cbv zeta in Hu.
  pose proof (unit_component _ _ Hu) as Hx.
  assert (Hu' : snd n * snd n + fst n * fst n = 1) by lra.
  pose proof (unit_component _ _ Hu') as Hy.
  unfold SpecLines.shift. cbn [fst snd].
  assert (B : forall t, - 1 <= t <= 1 -> - m <= k * t <= m).
  { intros t Ht.
    destruct (Rle_lt_dec 0 k) as [K | K].
    - assert (k * t <= k * 1) by (apply Rmult_le_compat_l; lra).
      assert (k * (- 1) <= k * t) by (apply Rmult_le_compat_l; lra).
      lra.
    - assert ((- k) * t <= (- k) * 1) by (apply Rmult_le_compat_l; lra).
      assert ((- k) * (- 1) <= (- k) * t) by (apply Rmult_le_compat_l; lra).
      lra. }
  pose proof (B _ Hx). pose proof (B _ Hy). lra.
Qed.

(** In exact arithmetic: both ends of every line drawn for a bond are
    strictly inside the frame of the layout. *)
Lemma lines_inside_frame_exact (data : MoleculeData) (bond : Bond)
  (l : Lewis.Line) :
  Forall Spec.finite2d (atoms data) ->
  In l (Lewis.bondLines (Lewis.normalizedAtoms (Lewis.layout data)) bond) ->
  Units.inBox (Lewis.viewBox (Lewis.layout data)) (Lewis.x1 l) (Lewis.y1 l) /\
  Units.inBox (Lewis.viewBox (Lewis.layout data)) (Lewis.x2 l) (Lewis.y2 l).
Proof.
  intros Hfin Hl.
  set (nas := Lewis.normalizedAtoms (Lewis.layout data)) in *.
  destruct (index nas (source bond)) as [s |] eqn:Es;
    [| unfold Lewis.bondLines in Hl; rewrite Es in Hl; contradiction].
  destruct (index nas (target bond)) as [e |] eqn:Ee;
    [| unfold Lewis.bondLines in Hl; rewrite Es, Ee in Hl; contradiction].
  assert (Hp : 15 / 2 < val Lewis.PADDING) by (unfold Lewis.PADDING; cbn [val]; lra).
  destruct (layout_frame data s (15 / 2) Hfin (index_In _ _ _ Es) Hp)
    as (_ & Fs & Bs).
  destruct (layout_frame data e (15 / 2) Hfin (index_In _ _ _ Ee) Hp)
    as (_ & Fe & Be).
  destruct (Rlt_le_dec (Spec.dist (Spec.pos e) (Spec.pos s)) 1) as [Hd | Hd].
  { rewrite (bondLines_short nas bond s e Es Ee Fs Fe Hd) in Hl. contradiction. }
  rewrite (bondLines_long nas bond s e Es Ee Fs Fe Hd) in Hl.
  assert (Hd0 : 0 < Spec.dist (Spec.pos e) (Spec.pos s)) by lra.
  set (vb := Lewis.viewBox (Lewis.layout data)) in *.
  unfold SpecFrame.frameContainsSquare in Bs, Be.
  assert (Hseg : forall p q : Lewis.point,
            fst (Spec.pos s) - 15 / 2 <= fst p <= fst (Spec.pos s) + 15 / 2 ->
            snd (Spec.pos s) - 15 / 2 <= snd p <= snd (Spec.pos s) + 15 / 2 ->
            fst (Spec.pos e) - 15 / 2 <= fst q <= fst (Spec.pos e) + 15 / 2 ->
            snd (Spec.pos e) - 15 / 2 <= snd q <= snd (Spec.pos e) + 15 / 2 ->
            l = SpecLines.segment p q ->
            Units.inBox vb (Lewis.x1 l) (Lewis.y1 l) /\
            Units.inBox vb (Lewis.x2 l) (Lewis.y2 l)).
  { intros p q H1 H2 H3 H4 ->. unfold Units.inBox, SpecLines.segment.
    cbn [Lewis.x1 Lewis.y1 Lewis.x2 Lewis.y2 val finite].
    repeat split; lra. }
  assert (Hoff : forall k, - (15 / 2) <= k <= 15 / 2 ->
            l = SpecLines.offsetSegment k (Spec.pos s) (Spec.pos e) ->
            Units.inBox vb (Lewis.x1 l) (Lewis.y1 l) /\
            Units.inBox vb (Lewis.x2 l) (Lewis.y2 l)).
  { intros k Hk El.
    destruct (shift_near k (15 / 2) (Spec.pos s) (Spec.pos e) (Spec.pos s) Hd0 Hk)
      as [? ?].
    destruct (shift_near k (15 / 2) (Spec.pos s) (Spec.pos e) (Spec.pos e) Hd0 Hk)
      as [? ?].
    apply (Hseg _ _ ltac:(eassumption) ltac:(eassumption)
                    ltac:(eassumption) ltac:(eassumption) El). }
  assert (Hmid : l = SpecLines.segment (Spec.pos s) (Spec.pos e) ->
            Units.inBox vb (Lewis.x1 l) (Lewis.y1 l) /\
            Units.inBox vb (Lewis.x2 l) (Lewis.y2 l)).
  { apply Hseg; lra. }
  unfold SpecLines.bondSegments in Hl.
  destruct (order bond =? 1)%Z.
  { destruct Hl as [<- | []]. apply Hmid. reflexivity. }
  destruct (order bond =? 2)%Z.
  { destruct Hl as [<- | [<- | []]];
      [apply (Hoff 3) | apply (Hoff (- 3))]; try lra; reflexivity. }
  destruct (order bond =? 3)%Z; [| contradiction].
  destruct Hl as [<- | [<- | [<- | []]]].
  - apply Hmid. reflexivity.
  - apply (Hoff (3 * (5 / 2))); [lra | reflexivity].
  - apply (Hoff (- (3 * (5 / 2)))); [lra | reflexivity].
Qed.

(** ** Bonds and their indices *)

Lemma index_Some_iff {A : Type} (arr : list A) (i : Z) :
  (exists a, index arr i = Some a) <-> (0 <= i < Z.of_nat (List.length arr))%Z.
Proof.
  unfold index. destruct (Z.ltb_spec i 0) as [Hneg | Hpos].
  - split; [intros (a & E); discriminate | lia].
  - split.
    + intros (a & E).
      assert (Hn : nth_error arr (Z.to_nat i) <> None) by congruence.
      apply nth_error_Some in Hn. lia.
    + intros [_ Hlt].
      destruct (nth_error arr (Z.to_nat i)) as [a |] eqn:E; [exists a; reflexivity |].
      apply nth_error_None in E. lia.
Qed.

Lemma resolves_iff {A : Type} (arr : list A) (b : Bond) :
  Spec.resolves arr b = true <->
  (0 <= source b < Z.of_nat (List.length arr))%Z /\
  (0 <= target b < Z.of_nat (List.length arr))%Z.
Proof.
  rewrite <- !index_Some_iff. unfold Spec.resolves.
  destruct (index arr (source b)) as [s |], (index arr (target b)) as [t |];
    split; try discriminate.
  - intros _. split; [exists s | exists t]; reflexivity.
  - reflexivity.
  - intros [_ (a & E)]. discriminate.
  - intros [(a & E) _]. discriminate.
  - intros [(a & E) _]. discriminate.
Qed.

Lemma BondMesh_count (eps : jsnum) (p q : Three.Vector3) (o : Z) :
  List.length (Mol3D.BondMesh eps p q o)
  = if (o =? 1)%Z then 1%nat else if (o =? 2)%Z then 2%nat else 3%nat.
Proof.
  unfold Mol3D.BondMesh. destruct (o =? 1)%Z; [reflexivity |].
  destruct (o =? 2)%Z; reflexivity.
Qed.

(** X7: which bonds the spatial scene draws.  A bond gets cylinders exactly
    when both of its indices lie in the range of the atom list, whatever the
    coordinates and the order are; it then gets one cylinder for order 1,
    two for order 2 and three for every other order.  A bond with an index
    out of range is skipped. *)
Theorem X7_spatial_bond_indices (eps : jsnum) (ats : list Atom) (bond : Bond) :
  (Mol3D.bondMeshes eps ats bond <> [] <->
   (0 <= source bond < Z.of_nat (List.length ats))%Z /\
   (0 <= target bond < Z.of_nat (List.length ats))%Z) /\
  List.length (Mol3D.bondMeshes eps ats bond)
  = if Spec.resolves ats bond then
      if (order bond =? 1)%Z then 1%nat
      else if (order bond =? 2)%Z then 2%nat else 3%nat
    else 0%nat.
Proof.
  rewrite <- resolves_iff. unfold Mol3D.bondMeshes, Spec.resolves.
  destruct (index ats (source bond)) as [s |];
    [| split; [split; [intros H; contradiction | discriminate] | reflexivity]].
  destruct (index ats (target bond)) as [t |];
    [| split; [split; [intros H; contradiction | discriminate] | reflexivity]].
  split; [| apply BondMesh_count].
  split; [reflexivity |]. intros _ E.
  apply (f_equal (@List.length _)) in E. rewrite BondMesh_count in E.
  destruct (order bond =? 1)%Z; [discriminate |].
  destruct (order bond =? 2)%Z; discriminate.
Qed.

Lemma bondLines_count (nas : list Lewis.ScaledAtom) (bond : Bond) :
  Lewis.bondLines nas bond <> [] ->
  Spec.resolves nas bond = true /\
  (order bond = 1 \/ order bond = 2 \/ order bond = 3)%Z /\
  List.length (Lewis.bondLines nas bond) = Z.to_nat (order bond).
Proof.
  unfold Lewis.bondLines, Spec.resolves.
  destruct (index nas (source bond)) as [s |]; [| intros H; contradiction].
  destruct (index nas (target bond)) as [t |]; [| intros H; contradiction].
  cbv zeta. destruct (JS.ltb _ _); [intros H; contradiction |].
  destruct (Z.eqb_spec (order bond) 1) as [-> | _].
  { intros _. repeat split. left. reflexivity. }
  destruct (Z.eqb_spec (order bond) 2) as [-> | _].
  { intros _. repeat split. right. left. reflexivity. }
  destruct (Z.eqb_spec (order bond) 3) as [-> | _].
  { intros _. repeat split. right. right. reflexivity. }
  intros H. contradiction.
Qed.

(** X8: the two views agree on the bonds the plane shows.  Every bond for
    which the planar view draws lines has order 1, 2 or 3 and indices in
    range, and the spatial view of the same molecule draws it with as many
    cylinders as the planar view draws lines: the order. *)
Theorem X8_planar_bond_is_spatial (eps : jsnum) (data : MoleculeData)
  (bond : Bond) :
  Lewis.bondLines (Lewis.normalizedAtoms (Lewis.layout data)) bond <> [] ->
  (order bond = 1 \/ order bond = 2 \/ order bond = 3)%Z /\
  (0 <= source bond < Z.of_nat (List.length (atoms data)))%Z /\
  (0 <= target bond < Z.of_nat (List.length (atoms data)))%Z /\
  List.length (Lewis.bondLines (Lewis.normalizedAtoms (Lewis.layout data)) bond)
  = Z.to_nat (order bond) /\
  List.length (Mol3D.bondMeshes eps (atoms data) bond) = Z.to_nat (order bond).
Proof.
  intros Hne. destruct (bondLines_count _ _ Hne) as (Hr & Ho & Hc).
  rewrite layout_resolves in Hr.
  pose proof (proj1 (resolves_iff _ _) Hr) as [Hs Ht].
  split; [exact Ho |]. split; [exact Hs |]. split; [exact Ht |].
  split; [exact Hc |].
  unfold Mol3D.bondMeshes. unfold Spec.resolves in Hr.
  destruct (index (atoms data) (source bond)); [| discriminate].
  destruct (index (atoms data) (target bond)); [| discriminate].
  rewrite BondMesh_count.
  destruct Ho as [-> | [-> | ->]]; reflexivity.
Qed.

Lemma X8_planar_bond_is_spatial_witness :
  List.length (Mol3D.bondMeshes Three.Number_EPSILON (atoms Examples.bent)
                 (Examples.mkBond 0 1 1)) = 1%nat.
Proof.
  refine (proj2 (proj2 (proj2 (proj2
    (X8_planar_bond_is_spatial Three.Number_EPSILON Examples.bent
       (Examples.mkBond 0 1 1) _))))).
  rewrite bent_bond_line. discriminate.
Defined.

(** ** The cylinders of a bond for every finite input, in exact arithmetic *)

Section SpatialSafety.

Import Three Spec3D Mol3D.

(** [normalize] of a quaternion with real components: a unit quaternion in
    both of its branches. *)
Lemma qnormalize_unit (a b c d : R) :
  exists x y z w : R,
    qnormalize (quat a b c d) = quat x y z w /\
    x * x + y * y + z * z + w * w = 1.
Proof.
  set (n := sqrt (a * a + b * b + c * c + d * d)).
  destruct (Req_dec_T n 0) as [E | N].
  - exists 0, 0, 0, 1. split; [| ring].
    unfold qnormalize, qlength, quat. cbn [qx qy qz qw JS.mul JS.add].
    rewrite sqrt_fin by apply sumsq4_nonneg. fold n.
    unfold JS.eqb. destruct (Req_dec_T n 0) as [_ | N]; [reflexivity | contradiction].
  - exists (a * (1 / n)), (b * (1 / n)), (c * (1 / n)), (d * (1 / n)).
    split; [apply qnormalize_quat; exact N |].
    assert (Hnn : n * n = a * a + b * b + c * c + d * d)
      by apply sqrt_sqrt, sumsq4_nonneg.
    set (k := 1 / n).
    assert (Hk : k * n = 1) by (unfold k; field; exact N).
    clearbody k n. clear N. nsatz.
Qed.

Lemma normalize_finite (a b c : R) :
  exists a' b' c' : R, normalize (vec3 a b c) = vec3 a' b' c'.
Proof.
  destruct (Req_dec_T (norm a b c) 0) as [E | N].
  - rewrite normalize_vec3_zero by exact E. eauto.
  - rewrite normalize_vec3 by exact N. eauto.
Qed.

(** The orientation of a bond between finite endpoints is a unit
    quaternion, in each branch of [setFromUnitVectors] and for every
    tolerance. *)
Lemma orientation_unit (eps a b c : R) :
  exists x y z w : R,
    setFromUnitVectors (Fin eps) up (normalize (vec3 a b c)) = quat x y z w /\
    x * x + y * y + z * z + w * w = 1.
Proof.
  destruct (normalize_finite a b c) as (a' & b' & c' & ->).
  destruct (Rle_lt_dec eps (0 * a' + 1 * b' + 0 * c' + 1)) as [Hfar | Hnear].
  - rewrite setFromUnitVectors_up_far by exact Hfar. apply qnormalize_unit.
  - rewrite setFromUnitVectors_up_opposite by exact Hnear. apply qnormalize_unit.
Qed.

(** A unit quaternion turns the x axis into a vector of length 1. *)
Lemma lateral_unit (x y z w : R) :
  x * x + y * y + z * z + w * w = 1 ->
  exists lx ly lz : R,
    applyQuaternion unitX (quat x y z w) = vec3 lx ly lz /\
    lx * lx + ly * ly + lz * lz = 1.
Proof.
  intros Hu. unfold unitX. fold (vec3 1 0 0). rewrite applyQuaternion_fin.
  cbv zeta. eexists _, _, _. split; [reflexivity |]. nsatz.
Qed.

(** The cylinders of a bond between two points with real coordinates, for
    every order and tolerance. *)
Lemma BondMesh_real (eps s1 s2 s3 e1 e2 e3 : R) (o : Z) :
  exists x y z w lx ly lz : R,
    x * x + y * y + z * z + w * w = 1 /\
    lx * lx + ly * ly + lz * lz = 1 /\
    let q := quat x y z w in
    let len := Fin (norm (e1 - s1) (e2 - s2) (e3 - s3)) in
    let mid := vec3 ((s1 + e1) * (1 / 2)) ((s2 + e2) * (1 / 2))
                    ((s3 + e3) * (1 / 2)) in
    let side k := vec3 ((s1 + e1) * (1 / 2) + lx * k)
                       ((s2 + e2) * (1 / 2) + ly * k)
                       ((s3 + e3) * (1 / 2) + lz * k) in
    BondMesh (Fin eps) (vec3 s1 s2 s3) (vec3 e1 e2 e3) o
    = if (o =? 1)%Z then [ cylinder "1" mid q (Fin (8 / 100)) len ]
      else if (o =? 2)%Z then
        [ cylinder "d1" (side (15 / 100)) q (Fin (8 / 100)) len;
          cylinder "d2" (side (- (15 / 100))) q (Fin (8 / 100)) len ]
      else
        [ cylinder "t1" mid q (Fin (8 / 100)) len;
          cylinder "t2" (side (15 / 100)) q (Fin (8 / 100)) len;
          cylinder "t3" (side (- (15 / 100))) q (Fin (8 / 100)) len ].
Proof.
  destruct (orientation_unit eps (e1 - s1) (e2 - s2) (e3 - s3))
    as (x & y & z & w & Eq & Hu).
  destruct (lateral_unit x y z w Hu) as (lx & ly & lz & El & Hl).
  exists x, y, z, w, lx, ly, lz. split; [exact Hu |]. split; [exact Hl |].
  cbv zeta. unfold BondMesh. cbv zeta.
  rewrite subVectors_vec3, length_vec3, Eq, El, addVectors_vec3.
  rewrite multiplyScalar_vec3. unfold add. cbn [JS.neg].
  rewrite !multiplyScalar_vec3, !addVectors_vec3.
  reflexivity.
Qed.

End SpatialSafety.

(** In exact arithmetic: for finite endpoints each cylinder built has
    finite placement and geometry, a unit quaternion, the radius 0.08, 16
    radial segments, the distance of the endpoints as its height, and its
    centre at the midpoint or 0.15 away from it. *)
Lemma spatial_bond_safe_exact (eps : R) (start end_ : Three.Vector3) (o : Z)
  (m : Mol3D.Mesh) :
  Spec3D.finiteV start -> Spec3D.finiteV end_ ->
  In m (Mol3D.BondMesh (Fin eps) start end_ o) ->
  let mid := Three.multiplyScalar (Three.addVectors start end_) (Fin (1 / 2)) in
  Spec3D.finiteMesh m /\ Spec3D.unitQ (Mol3D.quaternion m) /\
  Mol3D.height m = Fin (sqrt (Units.dist2 end_ start)) /\
  Mol3D.radiusTop m = Fin (8 / 100) /\ Mol3D.radiusBottom m = Fin (8 / 100) /\
  Mol3D.radialSegments m = 16%Z /\
  (Units.dist2 (Mol3D.position m) mid = 0 \/
   Units.dist2 (Mol3D.position m) mid = (15 / 100) * (15 / 100)).
Proof.
  intros Hs He Hin mid. unfold mid. clear mid.
  rewrite (finiteV_inv _ Hs), (finiteV_inv _ He) in *.
  set (s1 := val (Three.vx start)) in *. set (s2 := val (Three.vy start)) in *.
  set (s3 := val (Three.vz start)) in *. set (e1 := val (Three.vx end_)) in *.
  set (e2 := val (Three.vy end_)) in *. set (e3 := val (Three.vz end_)) in *.
  clearbody s1 s2 s3 e1 e2 e3. clear Hs He.
  destruct (BondMesh_real eps s1 s2 s3 e1 e2 e3 o)
    as (x & y & z & w & lx & ly & lz & Hu & Hl & E).
  cbv zeta in E. rewrite E in Hin. clear E.
  rewrite addVectors_vec3, multiplyScalar_vec3.
  assert (Hcase :
    m = Mol3D.cylinder (Mol3D.key m)
          (Spec3D.vec3 ((s1 + e1) * (1 / 2)) ((s2 + e2) * (1 / 2))
                       ((s3 + e3) * (1 / 2)))
          (Spec3D.quat x y z w) (Fin (8 / 100))
          (Fin (Spec3D.norm (e1 - s1) (e2 - s2) (e3 - s3)))
    \/ exists k, (k = 15 / 100 \/ k = - (15 / 100)) /\
       m = Mol3D.cylinder (Mol3D.key m)
             (Spec3D.vec3 ((s1 + e1) * (1 / 2) + lx * k)
                          ((s2 + e2) * (1 / 2) + ly * k)
                          ((s3 + e3) * (1 / 2) + lz * k))
             (Spec3D.quat x y z w) (Fin (8 / 100))
             (Fin (Spec3D.norm (e1 - s1) (e2 - s2) (e3 - s3)))).
  { destruct (o =? 1)%Z; [| destruct (o =? 2)%Z].
    - destruct Hin as [<- | []]. left. reflexivity.
    - destruct Hin as [<- | [<- | []]]; right;
        [exists (15 / 100) | exists (- (15 / 100))];
        (split; [auto | reflexivity]).
    - destruct Hin as [<- | [<- | [<- | []]]];
        [left; reflexivity | right; exists (15 / 100)
         | right; exists (- (15 / 100))];
        (split; [auto | reflexivity]). }
  assert (Hh : forall k p,
    m = Mol3D.cylinder k p (Spec3D.quat x y z w) (Fin (8 / 100))
          (Fin (Spec3D.norm (e1 - s1) (e2 - s2) (e3 - s3))) ->
    Spec3D.finiteQ (Mol3D.quaternion m) /\ finite (Mol3D.height m) /\
    finite (Mol3D.radiusTop m) /\ finite (Mol3D.radiusBottom m) /\
    Spec3D.unitQ (Mol3D.quaternion m) /\
    Mol3D.height m
    = Fin (sqrt (Units.dist2 (Spec3D.vec3 e1 e2 e3) (Spec3D.vec3 s1 s2 s3))) /\
    Mol3D.radiusTop m = Fin (8 / 100) /\ Mol3D.radiusBottom m = Fin (8 / 100) /\
    Mol3D.radialSegments m = 16%Z /\ Mol3D.position m = p).
  { intros k p ->. unfold Mol3D.cylinder, Spec3D.finiteQ, Spec3D.unitQ,
      Spec3D.quat, Units.dist2, Spec3D.norm, Spec3D.vec3.
    cbn [Mol3D.quaternion Mol3D.height Mol3D.radiusTop Mol3D.radiusBottom
         Mol3D.radialSegments Mol3D.position Three.qx Three.qy Three.qz
         Three.qw Three.vx Three.vy Three.vz val finite].
    repeat split. exact Hu. }
  destruct Hcase as [Em | (k & Hk & Em)];
    destruct (Hh _ _ Em) as (Fq & Fh & Frt & Frb & Uq & Eh & Ert & Erb & Eseg & Ep);
    (split; [split; [rewrite Ep; repeat split
                    | split; [exact Fq | split; [exact Fh | split; [exact Frt | exact Frb]]]] |]);
    (split; [exact Uq |]); (split; [exact Eh |]); (split; [exact Ert |]);
    (split; [exact Erb |]); (split; [exact Eseg |]);
    rewrite Ep; unfold Units.dist2, Spec3D.vec3;
    cbn [Three.vx Three.vy Three.vz val].
  - left. ring.
  - right. clear Hh Em Ep. destruct Hk as [-> | ->]; nsatz.
Qed.

(** In exact arithmetic: for every order other than 1 the two side
    cylinders are mirrored through the midpoint and 0.30 apart, and the one
    at the midpoint of another order than 1 and 2 is 0.15 from either. *)
Lemma strand_separation_exact (eps : R) (start end_ : Three.Vector3) (o : Z) :
  Spec3D.finiteV start -> Spec3D.finiteV end_ -> o <> 1%Z ->
  let mid := Three.multiplyScalar (Three.addVectors start end_) (Fin (1 / 2)) in
  exists m1 m2 : Mol3D.Mesh,
    (if (o =? 2)%Z then Mol3D.BondMesh (Fin eps) start end_ o = [ m1; m2 ]
     else exists m0,
         Mol3D.BondMesh (Fin eps) start end_ o = [ m0; m1; m2 ] /\
         Mol3D.position m0 = mid /\
         Units.dist2 (Mol3D.position m0) (Mol3D.position m1)
         = (15 / 100) * (15 / 100) /\
         Units.dist2 (Mol3D.position m0) (Mol3D.position m2)
         = (15 / 100) * (15 / 100)) /\
    Spec3D.mirrored mid (Mol3D.position m1) (Mol3D.position m2) /\
    Units.dist2 (Mol3D.position m1) (Mol3D.position m2) = (3 / 10) * (3 / 10) /\
    val (Mol3D.radiusTop m1) + val (Mol3D.radiusTop m2) < 3 / 10 /\
    15 / 100 < val (Mol3D.radiusTop m1) + val (Mol3D.radiusTop m2).
Proof.
  intros Hs He Ho mid. unfold mid. clear mid.
  rewrite (finiteV_inv _ Hs), (finiteV_inv _ He) in *.
  set (s1 := val (Three.vx start)) in *. set (s2 := val (Three.vy start)) in *.
  set (s3 := val (Three.vz start)) in *. set (e1 := val (Three.vx end_)) in *.
  set (e2 := val (Three.vy end_)) in *. set (e3 := val (Three.vz end_)) in *.
  clearbody s1 s2 s3 e1 e2 e3. clear Hs He.
  destruct (BondMesh_real eps s1 s2 s3 e1 e2 e3 o)
    as (x & y & z & w & lx & ly & lz & Hu & Hl & E).
  cbv zeta in E. rewrite E. clear E.
  rewrite addVectors_vec3, multiplyScalar_vec3.
  apply Z.eqb_neq in Ho. rewrite Ho. clear Ho.
  destruct (o =? 2)%Z; eexists _, _; (split;
    [ first [ reflexivity
            | eexists; split; [reflexivity |]; split; [reflexivity |];
              unfold Units.dist2, Mol3D.cylinder, Spec3D.vec3;
              cbn [Mol3D.position Three.vx Three.vy Three.vz val];
              split;
              match goal with
              | |- ?L = ?c =>
                  replace L with (c * (lx * lx + ly * ly + lz * lz)) by field;
                  rewrite Hl; ring
              end ]
    | unfold Units.dist2, Spec3D.mirrored, Mol3D.cylinder, Spec3D.vec3;
      cbn [Mol3D.position Mol3D.radiusTop Three.vx Three.vy Three.vz val];
      split; [repeat split; ring |];
      split;
      [ match goal with
        | |- ?L = ?c =>
            replace L with (c * (lx * lx + ly * ly + lz * lz)) by field;
            rewrite Hl; ring
        end
      | split; lra ] ]).
Qed.

(** ** The atoms of the spatial scene and the element table *)

Lemma lookup_In (table : list (string * Types.CPKColor)) (key : string)
  (c : Types.CPKColor) :
  Types.lookup table key = Some c -> In c (map snd table).
Proof.
  induction table as [| [k c'] rest IH]; cbn [Types.lookup map snd].
  - discriminate.
  - destruct (String.eqb k key).
    + intros [= ->]. left. reflexivity.
    + intros H. right. apply IH, H.
Qed.

Lemma cpkOf_In (element : string) :
  In (Types.cpkOf element) (map snd Types.CPK_COLORS).
Proof.
  unfold Types.cpkOf.
  destruct (Types.lookup Types.CPK_COLORS (toUpperCase element)) as [c |] eqn:E.
  - apply (lookup_In _ _ _ E).
  - unfold Types.CPK_COLORS. cbn [map snd In]. do 13 right. left. reflexivity.
Qed.

Lemma upper_ascii_idem (c : ascii) : upper_ascii (upper_ascii c) = upper_ascii c.
Proof.
  destruct c as [[] [] [] [] [] [] [] []]; reflexivity.
Qed.

Lemma toUpperCase_idem (s : string) : toUpperCase (toUpperCase s) = toUpperCase s.
Proof.
  induction s as [| c s IH]; cbn [toUpperCase]; [reflexivity |].
  rewrite upper_ascii_idem, IH. reflexivity.
Qed.

(** X11: the sphere of an atom.  For every element string, in the table or
    not and in any letter case, the sphere has a finite radius between 0.12
    and 0.52, which is more than the radius 0.08 of the bond cylinders, and
    32 by 32 segments; the radius and the colour do not change when the
    element is written in upper case; the sphere sits at the atom's spatial
    coordinates. *)
Theorem X11_atom_sphere (atom : Atom) (showLabel : bool) :
  let g := Scene3D.AtomMesh atom showLabel in
  (exists r : R, Scene3D.sphereRadius g = Fin r /\
                 12 / 100 <= r <= 52 / 100 /\ 8 / 100 < r) /\
  Scene3D.widthSegments g = 32%Z /\ Scene3D.heightSegments g = 32%Z /\
  Scene3D.position g = Mol3D.position3d atom /\
  Types.cpkOf (toUpperCase (element atom)) = Types.cpkOf (element atom).
Proof.
  cbv zeta. unfold Scene3D.AtomMesh.
  cbn [Scene3D.sphereRadius Scene3D.widthSegments Scene3D.heightSegments
       Scene3D.position].
  split; [| split; [reflexivity | split; [reflexivity | split; [reflexivity |]]]].
  - pose proof (cpkOf_In (element atom)) as Hin.
    cbn [map snd Types.CPK_COLORS In] in Hin.
    repeat (destruct Hin as [<- | Hin];
            [ cbn [Types.radius Types.DEFAULT JS.mul];
              eexists; split; [reflexivity | lra] |]).
    contradiction.
  - unfold Types.cpkOf. rewrite toUpperCase_idem. reflexivity.
Qed.

(** X12: the two views agree on which atoms are small.  The planar view
    draws the circle of radius 10 exactly for the atoms whose sphere in the
    spatial view has the smallest radius of the table, 0.12 (hydrogen's);
    every other atom has the circle of radius 14 and a sphere of radius at
    least 0.2. *)
Theorem X12_hydrogen_is_small (a : Lewis.ScaledAtom) (showLabel : bool) :
  let sphere := Scene3D.sphereRadius (Scene3D.AtomMesh (Lewis.atom a) showLabel) in
  (Lewis.isHydrogen a = true /\ Lewis.radius a = Fin 10 /\
   val sphere = 12 / 100) \/
  (Lewis.isHydrogen a = false /\ Lewis.radius a = Fin 14 /\
   20 / 100 <= val sphere).
Proof.
  cbv zeta. unfold Lewis.radius, Lewis.isHydrogen, Scene3D.AtomMesh, Types.cpkOf.
  cbn [Scene3D.sphereRadius].
  destruct (String.eqb (toUpperCase (element (Lewis.atom a))) "H") eqn:E.
  - left. apply String.eqb_eq in E. rewrite E.
    cbn [Types.lookup Types.CPK_COLORS String.eqb Ascii.eqb Bool.eqb
         Types.radius JS.mul val].
    repeat split. lra.
  - right. split; [reflexivity |]. split; [reflexivity |].
    unfold Types.CPK_COLORS. cbn [Types.lookup].
    rewrite String.eqb_sym, E.
    repeat match goal with
           | |- context [String.eqb ?k ?key] => destruct (String.eqb k key)
           end;
      cbn [Types.radius Types.DEFAULT JS.mul val]; lra.
Qed.

(** ** The charge badge and the hover tooltip *)

(** X13: the charge badge tells the sign only.  The badge of an atom is
    drawn exactly when charges are shown and the charge is not 0; it is red
    with the text + for a positive charge and blue with the text - for a
    negative one; and two atoms of the same size class whose charges have
    the same sign get the same badge, whatever the magnitudes are. *)
Theorem X13_charge_badge_sign_only (showCharges : bool)
  (a a' : Lewis.ScaledAtom) :
  Lewis.isHydrogen a = Lewis.isHydrogen a' ->
  Z.sgn (charge (Lewis.atom a)) = Z.sgn (charge (Lewis.atom a')) ->
  LewisView.chargeBadgeView showCharges a
  = LewisView.chargeBadgeView showCharges a' /\
  (LewisView.chargeBadgeView showCharges a = None <->
   showCharges = false \/ charge (Lewis.atom a) = 0%Z) /\
  (forall ts c fill text,
     LewisView.chargeBadgeView showCharges a = Some (ts, c, fill, text) ->
     ((0 < charge (Lewis.atom a))%Z /\ fill = "#ef4444"%string /\
      text = "+"%string) \/
     ((charge (Lewis.atom a) < 0)%Z /\ fill = "#3b82f6"%string /\
      text = "-"%string)).
Proof.
  intros Hh Hs.
  unfold LewisView.chargeBadgeView, Lewis.chargeBadge, LewisView.chargeFill,
    LewisView.chargeText, Lewis.radius.
  rewrite <- Hh.
  destruct (charge (Lewis.atom a)) as [| p | p],
           (charge (Lewis.atom a')) as [| p' | p']; try discriminate Hs;
    destruct showCharges; cbn [andb negb Z.eqb Z.gtb Z.compare];
    (split; [reflexivity |]);
    (split; [split; [first [discriminate | intros _; auto]
                    | first [reflexivity | intros [H | H]; discriminate H]] |]);
    intros ts c fill text E; try discriminate E;
    injection E as <- <- <- <-; [left | right]; repeat split; lia.
Qed.

Lemma X13_charge_badge_sign_only_witness :
  LewisView.chargeBadgeView true (Spec.scaled 12 Examples.bentO)
  = LewisView.chargeBadgeView true (Spec.scaled 12 Samples.oxide).
Proof.
  refine (proj1 (X13_charge_badge_sign_only true (Spec.scaled 12 Examples.bentO)
                   (Spec.scaled 12 Samples.oxide) _ _)); reflexivity.
Defined.

Lemma find_unique_id (ats : list Atom) (a : Atom) :
  NoDup (map id ats) -> In a ats ->
  find (fun b => (id b =? id a)%Z) ats = Some a.
Proof.
  induction ats as [| b rest IH]; intros Hnd Hin; [contradiction |].
  cbn [map] in Hnd. inversion Hnd as [| ? ? Hnot Hrest]; subst.
  cbn [find]. destruct Hin as [-> | Hin].
  - rewrite Z.eqb_refl. reflexivity.
  - destruct (Z.eqb_spec (id b) (id a)) as [E | _].
    + exfalso. apply Hnot. rewrite E. apply in_map, Hin.
    + apply IH; assumption.
Qed.

Lemma unique_id_eq (ats : list Atom) (a b : Atom) :
  NoDup (map id ats) -> In a ats -> In b ats -> id a = id b -> a = b.
Proof.
  intros Hnd Ha Hb E.
  pose proof (find_unique_id ats a Hnd Ha) as Fa.
  pose proof (find_unique_id ats b Hnd Hb) as Fb.
  rewrite E in Fa. congruence.
Qed.

Lemma find_some_id (ats : list Atom) (a : Atom) :
  In a ats ->
  exists b, find (fun c => (id c =? id a)%Z) ats = Some b /\ In b ats /\
            id b = id a.
Proof.
  intros Hin.
  destruct (find (fun c => (id c =? id a)%Z) ats) as [b |] eqn:E.
  - apply find_some in E. destruct E as [Hb Hid]. apply Z.eqb_eq in Hid.
    exists b. repeat split; assumption.
  - exfalso. pose proof (find_none _ _ E a Hin) as H. cbn beta in H.
    rewrite Z.eqb_refl in H. discriminate.
Qed.

(** The normalized atoms are the scaled atoms of the molecule. *)
Lemma layout_In (data : MoleculeData) (na : Lewis.ScaledAtom) :
  In na (Lewis.normalizedAtoms (Lewis.layout data)) ->
  In (Lewis.atom na) (atoms data) /\
  exists sc, na = Lewis.scaleAtom sc (Lewis.atom na).
Proof.
  unfold Lewis.layout. destruct (atoms data) as [| a0 rest] eqn:E.
  - intros [].
  - cbv zeta. destruct (Lewis.bbox _) as [[[? ?] ?] ?].
    cbn [Lewis.normalizedAtoms]. rewrite in_map_iff.
    intros (a & <- & Ha). split; [exact Ha |].
    eexists. reflexivity.
Qed.

(** X14: hovering an atom of the drawing.  After the pointer enters the
    group of a drawn atom the tooltip is there and shows an atom of the
    molecule with the same id, never an empty record.  When the ids of the
    molecule are distinct it shows the element, charge and lone pairs of the
    very atom that was entered, and that atom is the only one whose circle
    is highlighted. *)
Theorem X14_hover_tooltip (data : MoleculeData) (na : Lewis.ScaledAtom) :
  In na (Lewis.normalizedAtoms (Lewis.layout data)) ->
  let h := LewisView.onMouseEnter na in
  (exists b, In b (atoms data) /\ id b = id (Lewis.atom na) /\
     LewisView.tooltip data h
     = Some {| LewisView.tipElement := Some (element b);
               LewisView.tipChargeClass :=
                 LewisView.chargeClass (Some (charge b));
               LewisView.tipCharge := Some (charge b);
               LewisView.tipLonePairs := Some (lonePairs b) |}) /\
  LewisView.isHovered h na = true /\
  LewisView.tooltip data LewisView.onMouseLeave = None /\
  (NoDup (map id (atoms data)) ->
   LewisView.findHovered data (id (Lewis.atom na)) = Some (Lewis.atom na) /\
   forall nb, In nb (Lewis.normalizedAtoms (Lewis.layout data)) ->
     (LewisView.isHovered h nb = true <-> nb = na)).
Proof.
  intros Hin h. unfold h. clear h.
  destruct (layout_In data na Hin) as [Ha (sc & Ena)].
  unfold LewisView.onMouseEnter, LewisView.tooltip, LewisView.findHovered,
    LewisView.isHovered, LewisView.onMouseLeave.
  split.
  { destruct (find_some_id (atoms data) (Lewis.atom na) Ha) as (b & Ef & Hb & Eid).
    exists b. split; [exact Hb |]. split; [exact Eid |].
    cbv zeta. rewrite Ef. reflexivity. }
  split; [apply Z.eqb_refl |]. split; [reflexivity |].
  intros Hnd. split; [apply find_unique_id; assumption |].
  intros nb Hnb. destruct (layout_In data nb Hnb) as [Hb (sc' & Enb)].
  split.
  - intros E. apply Z.eqb_eq in E.
    assert (Eat : Lewis.atom na = Lewis.atom nb)
      by (apply (unique_id_eq (atoms data)); assumption).
    pose proof (layout_atoms data) as Hmap.
    destruct (atoms data) as [| a0 rest] eqn:Eats; [contradiction |].
    rewrite layout_normalizedAtoms in Hin, Hnb by (rewrite Eats; discriminate).
    rewrite in_map_iff in Hin, Hnb.
    destruct Hin as (a1 & <- & _), Hnb as (a2 & <- & _).
    cbn [Lewis.scaleAtom Lewis.atom] in Eat. rewrite Eat. reflexivity.
  - intros ->. apply Z.eqb_refl.
Qed.

Lemma X14_hover_tooltip_witness :
  LewisView.isHovered
    (LewisView.onMouseEnter (Spec.scaled 12 Examples.bentH1))
    (Spec.scaled 12 Examples.bentH1) = true.
Proof.
  refine (proj1 (proj2 (X14_hover_tooltip Examples.bent
                          (Spec.scaled 12 Examples.bentH1) _))).
  rewrite bent_normalized. right. left. reflexivity.
Defined.

(** ** The numbers of the page against the drawings *)

Lemma fold_left_sumZ {A : Type} (f : A -> Z) (l : list A) (z : Z) :
  fold_left (fun acc a => (acc + f a)%Z) l z
  = (z + fold_right (fun a acc => f a + acc) 0 l)%Z.
Proof.
  revert z. induction l as [| a l IH]; intros z; cbn [fold_left fold_right].
  - lia.
  - rewrite IH. lia.
Qed.

Lemma markerCount_spec (na : Lewis.ScaledAtom) :
  Units.markerCount na = Z.to_nat (lonePairs (Lewis.atom na)).
Proof.
  unfold Units.markerCount, Lewis.lonePairGroup. cbn [andb].
  destruct (Z.ltb_spec 0 (lonePairs (Lewis.atom na))) as [Hpos | Hneg].
  - cbn [Lewis.markers]. rewrite length_map, length_seq. reflexivity.
  - destruct (lonePairs (Lewis.atom na)); try reflexivity; lia.
Qed.

Lemma markers_sum (nas : list Lewis.ScaledAtom) :
  Forall (fun a => (0 <= lonePairs a)%Z) (map Lewis.atom nas) ->
  fold_right (fun a acc => (lonePairs a + acc)%Z) 0%Z (map Lewis.atom nas)
  = Z.of_nat (list_sum (map Units.markerCount nas)).
Proof.
  induction nas as [| na nas IH]; cbn [map fold_right]; intros Hnn.
  - reflexivity.
  - inversion Hnn as [| ? ? Hna Hrest]; subst.
    change (list_sum (Units.markerCount na :: map Units.markerCount nas))
      with (Units.markerCount na + list_sum (map Units.markerCount nas))%nat.
    rewrite IH by exact Hrest. rewrite markerCount_spec. lia.
Qed.

(** X15: the lone pairs counted are the lone pairs drawn.  When no atom has
    a negative lone-pair count, the number in the statistics panel is the
    number of pair markers the planar view draws over all atoms while lone
    pairs are shown; with lone pairs hidden no atom gets a marker group. *)
Theorem X15_lone_pairs_counted (data : MoleculeData) :
  Forall (fun a => (0 <= lonePairs a)%Z) (atoms data) ->
  App.totalLonePairs data
  = Z.of_nat (list_sum (map Units.markerCount
                          (Lewis.normalizedAtoms (Lewis.layout data)))) /\
  Forall (fun na => Lewis.lonePairGroup false na = None)
         (Lewis.normalizedAtoms (Lewis.layout data)).
Proof.
  intros Hnn. split; [| apply Forall_forall; intros; reflexivity].
  unfold App.totalLonePairs. rewrite fold_left_sumZ.
  rewrite <- (layout_atoms data) in Hnn |- *.
  rewrite markers_sum by exact Hnn. lia.
Qed.

Lemma X15_lone_pairs_counted_witness :
  App.totalLonePairs Examples.bent
  = Z.of_nat (list_sum (map Units.markerCount
                          (Lewis.normalizedAtoms (Lewis.layout Examples.bent)))).
Proof.
  refine (proj1 (X15_lone_pairs_counted Examples.bent _)).
  repeat constructor; discriminate.
Defined.

(** The bonds the spatial scene draws are the ones that resolve. *)
Lemma drawn_bonds (eps : jsnum) (ats : list Atom) (bs : list Bond) :
  filter (fun ms => negb (Nat.eqb (List.length ms) 0))
         (map (Mol3D.bondMeshes eps ats) bs)
  = map (Mol3D.bondMeshes eps ats) (Spec.resolvedBonds ats bs).
Proof.
  unfold Spec.resolvedBonds.
  induction bs as [| b bs IH]; cbn [map filter]; [reflexivity |].
  assert (H : negb (Nat.eqb (List.length (Mol3D.bondMeshes eps ats b)) 0)
              = Spec.resolves ats b).
  { unfold Mol3D.bondMeshes, Spec.resolves.
    destruct (index ats (source b)); [| reflexivity].
    destruct (index ats (target b)); [| reflexivity].
    rewrite BondMesh_count.
    destruct (order b =? 1)%Z; [reflexivity |].
    destruct (order b =? 2)%Z; reflexivity. }
  rewrite H. destruct (Spec.resolves ats b); cbn [map]; rewrite IH; reflexivity.
Qed.

(** X16: the scene against the numbers of the page.  The spatial scene has
    one sphere per atom, as many as the statistics panel counts, each
    labelled with its element exactly when labels are shown, and one entry
    per bond, as many as the header counts; the entries that hold cylinders
    are those of the bonds whose indices resolve, so the header's number is
    an upper bound of the bonds drawn, reached exactly when every bond
    resolves. *)
Theorem X16_scene_counts (eps : jsnum) (data : MoleculeData)
  (showLabels : bool) :
  let scene := Scene3D.Molecule3D eps data showLabels in
  let drawn := filter (fun ms => negb (Nat.eqb (List.length ms) 0)) (snd scene) in
  List.length (fst scene) = App.totalAtoms data /\
  map Scene3D.label (fst scene)
  = map (fun a => if showLabels then Some (element a) else None) (atoms data) /\
  List.length (snd scene) = App.bondCount data /\
  List.length drawn
  = List.length (Spec.resolvedBonds (atoms data) (bonds data)) /\
  (List.length drawn <= App.bondCount data)%nat /\
  (List.length drawn = App.bondCount data <->
   forallb (Spec.resolves (atoms data)) (bonds data) = true).
Proof.
  cbv zeta. unfold Scene3D.Molecule3D, App.totalAtoms, App.bondCount.
  cbn [fst snd]. rewrite drawn_bonds, !length_map, map_map.
  split; [reflexivity |]. split; [reflexivity |]. split; [reflexivity |].
  split; [reflexivity |].
  unfold Spec.resolvedBonds.
  split; [apply filter_length_le |].
  induction (bonds data) as [| b bs IH]; cbn [filter forallb List.length].
  - split; reflexivity.
  - pose proof (filter_length_le (Spec.resolves (atoms data)) bs) as Hle.
    destruct (Spec.resolves (atoms data) b); cbn [List.length andb].
    + rewrite <- IH. lia.
    + split; [lia | discriminate].
Qed.

(** ** The page and its request *)

Section Page.

Variable trim : string -> string.

Lemma page_invariant_step (st st' : App.State) (ev : App.Event) :
  App.invariant st -> App.step trim st ev st' -> App.invariant st'.
Proof.
  intros (Hp & Hl & Hx & He) Hstep. unfold App.invariant.
  destruct Hstep as [s st | st Hload | outcome st Hpend | st | st | st];
    cbn [App.setFormula App.toggleLonePairs App.toggleCharges App.toggleLabels
         App.pending App.loading App.data App.error];
    try exact (conj Hp (conj Hl (conj Hx He))).
  - unfold App.handleGenerate.
    destruct (negb (App.truthy (trim (App.formula st)))); cbn [fst].
    + exact (conj Hp (conj Hl (conj Hx He))).
    + cbn [App.pending App.loading App.data App.error].
      rewrite Hp, Hload. repeat split; auto.
  - assert (Hload : App.loading st = true).
    { destruct (App.loading st); [reflexivity | lia]. }
    destruct (Hl Hload) as [Hd Herr]. rewrite Hload in Hp.
    unfold App.settle.
    cbn [App.pending App.loading App.data App.error].
    rewrite Hp, Hd, Herr.
    split; [reflexivity |]. split; [discriminate |].
    destruct outcome; split; auto.
Qed.

Lemma page_invariant_reachable (st : App.State) :
  App.reachable trim st -> App.invariant st.
Proof.
  induction 1 as [| st ev st' _ IH Hstep].
  - unfold App.invariant, App.initial.
    cbn [App.pending App.loading App.data App.error].
    repeat split; auto; discriminate.
  - exact (page_invariant_step st st' ev IH Hstep).
Qed.

End Page.

(** X17: one request at a time.  In every state the page reaches from its
    first render, through typing, submitting, toggling and the settling of
    calls, in any order: exactly one call of the data provider is pending
    while [loading] is set and none otherwise; while loading neither a
    molecule nor an error is shown; the results and the error banner are
    never shown together; and the only error ever shown is the fixed
    failure message. *)
Theorem X17_single_request (trim : string -> string) (st : App.State) :
  App.reachable trim st ->
  App.pending st = (if App.loading st then 1%nat else 0%nat) /\
  (App.loading st = true ->
   App.showsResults st = false /\ App.showsError st = false) /\
  (App.showsResults st = false \/ App.showsError st = false) /\
  (App.error st = None \/ App.error st = Some App.failureMessage).
Proof.
  intros Hr. destruct (page_invariant_reachable trim st Hr) as (Hp & Hl & Hx & He).
  unfold App.showsResults, App.showsError.
  split; [exact Hp |]. split.
  { intros Hload. destruct (Hl Hload) as [-> ->]. split; reflexivity. }
  split; [| exact He].
  destruct Hx as [-> | ->]; [left | right]; reflexivity.
Qed.

Lemma X17_single_request_witness :
  App.pending (fst (App.handleGenerate (fun s => s) Samples.typed)) = 1%nat.
Proof.
  refine (proj1 (X17_single_request (fun s => s)
                   (fst (App.handleGenerate (fun s => s) Samples.typed)) _)).
  apply (App.reach_step _ Samples.typed App.Submit).
  - apply (App.reach_step _ App.initial (App.Type_ "H2O")).
    + apply App.reach_initial.
    + apply App.step_type.
  - apply App.step_submit. reflexivity.
Defined.

(** X18: a submission and its outcome.  From a state that is not loading
    and whose trimmed formula is not empty, a submission calls the data
    provider once, with the trimmed formula, and hides what was shown.  If
    the call then fails, the page shows the failure message and no molecule,
    even when one was shown before the submission; if it succeeds, the page
    shows the molecule returned and no error.  In both cases [loading] is
    cleared and the formula and the three view toggles are as before. *)
Theorem X18_submit_then_settle (trim : string -> string) (st : App.State)
  (outcome : option MoleculeData) :
  App.truthy (trim (App.formula st)) = true ->
  let sent := App.handleGenerate trim st in
  let st' := App.settle outcome (fst sent) in
  snd sent = Some (trim (App.formula st)) /\
  App.loading (fst sent) = true /\
  App.showsResults (fst sent) = false /\ App.showsError (fst sent) = false /\
  App.pending (fst sent) = S (App.pending st) /\
  App.loading st' = false /\ App.pending st' = App.pending st /\
  App.data st' = outcome /\
  App.error st'
  = match outcome with Some _ => None | None => Some App.failureMessage end /\
  App.showsError st' = negb (App.showsResults st') /\
  App.formula st' = App.formula st /\
  App.showLonePairs st' = App.showLonePairs st /\
  App.showCharges st' = App.showCharges st /\
  App.showLabels3D st' = App.showLabels3D st.
Proof.
  intros Ht. cbv zeta. unfold App.handleGenerate. rewrite Ht.
  cbn [negb fst snd]. unfold App.settle, App.showsResults, App.showsError.
  cbn [App.formula App.loading App.data App.error App.showLonePairs
       App.showCharges App.showLabels3D App.pending Nat.pred].
  destruct outcome; repeat split; reflexivity.
Qed.

Lemma X18_submit_then_settle_witness :
  App.showsError
    (App.settle None (fst (App.handleGenerate (fun s => s) Samples.typed)))
  = true.
Proof.
  destruct (X18_submit_then_settle (fun s => s) Samples.typed None eq_refl)
    as (_ & _ & _ & _ & _ & _ & _ & _ & _ & H & _).
  exact H.
Defined.

(** ** The turning of the scene *)

Lemma runFrames_unset (deltas : list jsnum) :
  Scene3D.runFrames None deltas = None.
Proof.
  unfold Scene3D.runFrames. induction deltas as [| d ds IH]; [reflexivity |].
  cbn [fold_left Scene3D.onFrame]. exact IH.
Qed.

(** X19: the scene turns with the time elapsed.  Over any run of frames
    with finite frame times, a group that is set and starts at the angle
    [r0] ends at [r0] plus a tenth of the sum of the frame times: the turn
    depends on the time elapsed only, not on how it is cut into frames.
    While the group is not set, the callback does nothing. *)
Theorem X19_rotation_elapsed (r0 : R) (deltas : list jsnum) :
  Forall finite deltas ->
  Scene3D.runFrames (Some (Fin r0)) deltas
  = Some (Fin (r0 + Spec.sumR (map val deltas) * (1 / 10))) /\
  Scene3D.runFrames None deltas = None.
Proof.
  intros Hf. split; [| apply runFrames_unset].
  unfold Scene3D.runFrames. revert r0.
  induction Hf as [| d ds Hd _ IH]; intros r0.
  - cbn [fold_left map Spec.sumR fold_right]. do 2 f_equal. ring.
  - rewrite (finite_inv _ Hd).
    cbn [fold_left Scene3D.onFrame JS.mul JS.add map val].
    rewrite IH, sumR_cons. do 2 f_equal. ring.
Qed.

Lemma X19_rotation_elapsed_witness :
  Scene3D.runFrames (Some (Fin 0)) Samples.frames
  = Some (Fin (0 + Spec.sumR (map val Samples.frames) * (1 / 10))).
Proof.
  refine (proj1 (X19_rotation_elapsed 0 Samples.frames _)).
  repeat constructor.
Defined.

(** * The engines with the range of binary64 *)

(** ** The operators within the range *)

Lemma range_fin (x : R) :
  - JS64.OVERFLOW < x < JS64.OVERFLOW -> JS64.range (Fin x) = Fin x.
Proof.
  intros [Hl Hu]. unfold JS64.range.
  destruct (Rle_dec JS64.OVERFLOW x) as [L | _]; [lra |].
  destruct (Rle_dec x (- JS64.OVERFLOW)) as [L | _]; [lra | reflexivity].
Qed.

Lemma range_over (x : R) : JS64.OVERFLOW <= x -> JS64.range (Fin x) = PInf.
Proof.
  intros H. unfold JS64.range.
  destruct (Rle_dec JS64.OVERFLOW x) as [_ | N]; [reflexivity | contradiction].
Qed.

Lemma OVERFLOW_large : 10 ^ 300 < JS64.OVERFLOW.
Proof. unfold JS64.OVERFLOW. lra. Qed.

Lemma within_inv (b : R) (c : jsnum) :
  Range.within b c -> c = Fin (val c) /\ - b <= val c <= b.
Proof. destruct c; cbn; intros H; try contradiction. split; [reflexivity | exact H]. Qed.

Lemma within_fin (b x : R) : - b <= x <= b -> Range.within b (Fin x).
Proof. intros H. exact H. Qed.

Lemma mul_within (a b A B : R) :
  - A <= a <= A -> - B <= b <= B -> - (A * B) <= a * b <= A * B.
Proof.
  intros Ha Hb.
  assert (Ra : Rabs a <= A) by (apply Rabs_le; exact Ha).
  assert (Rb : Rabs b <= B) by (apply Rabs_le; exact Hb).
  assert (Rab : Rabs (a * b) <= A * B).
  { rewrite Rabs_mult. apply Rmult_le_compat; try apply Rabs_pos; assumption. }
  pose proof (Rle_abs (a * b)) as H1.
  pose proof (Rle_abs (- (a * b))) as H2. rewrite Rabs_Ropp in H2.
  lra.
Qed.

Lemma add64_fin (a b : R) :
  - JS64.OVERFLOW < a + b < JS64.OVERFLOW ->
  (Fin a + Fin b)%js64 = Fin (a + b).
Proof. intros H. unfold JS64.add. cbn [JS.add]. apply range_fin, H. Qed.

Lemma sub64_fin (a b : R) :
  - JS64.OVERFLOW < a + - b < JS64.OVERFLOW ->
  (Fin a - Fin b)%js64 = Fin (a + - b).
Proof.
  intros H. unfold JS64.sub. cbn [JS.sub JS.add JS.neg]. apply range_fin, H.
Qed.

Lemma mul64_fin (a b : R) :
  - JS64.OVERFLOW < a * b < JS64.OVERFLOW ->
  (Fin a * Fin b)%js64 = Fin (a * b).
Proof. intros H. unfold JS64.mul. cbn [JS.mul]. apply range_fin, H. Qed.

(** A product of two numbers within [A] and [B] stays in range when [A * B]
    does. *)
Lemma mul64_within (a b A B : R) :
  - A <= a <= A -> - B <= b <= B -> A * B < JS64.OVERFLOW ->
  (Fin a * Fin b)%js64 = Fin (a * b).
Proof.
  intros Ha Hb Hab. apply mul64_fin.
  pose proof (mul_within a b A B Ha Hb). lra.
Qed.

Lemma div64_fin (a b : R) :
  b <> 0 -> - JS64.OVERFLOW < a / b < JS64.OVERFLOW ->
  (Fin a / Fin b)%js64 = Fin (a / b).
Proof.
  intros Hb H. unfold JS64.div. rewrite div_fin by exact Hb. apply range_fin, H.
Qed.

(** A quotient by a number of magnitude at least 1 is no larger than the
    numerator. *)
Lemma div_within (a b A : R) :
  - A <= a <= A -> 1 <= b -> - A <= a / b <= A.
Proof.
  intros Ha Hb.
  assert (Hi : 0 < / b <= 1).
  { split; [apply Rinv_0_lt_compat; lra |].
    rewrite <- Rinv_1. apply Rinv_le_contravar; lra. }
  unfold Rdiv.
  assert (HA : 0 <= A) by lra.
  pose proof (mul_within a (/ b) A 1 Ha ltac:(lra)). lra.
Qed.

Lemma sqrt_within (s b : R) : 0 <= s -> 0 <= b -> s <= b * b -> 0 <= sqrt s <= b.
Proof.
  intros Hs Hb Hsb. split; [apply sqrt_pos |].
  rewrite <- (sqrt_square b) by exact Hb. apply sqrt_le_1_alt. exact Hsb.
Qed.

(** ** The layout within the range *)

Section Layout64.

Variable ats : list Atom.
Hypothesis ats_wide : Forall (Range.planar Range.wide) ats.

Lemma planar_finite2d (b : R) (a : Atom) : Range.planar b a -> Spec.finite2d a.
Proof.
  intros [Hx Hy]. destruct (within_inv _ _ Hx) as [Ex _], (within_inv _ _ Hy) as [Ey _].
  split; [rewrite Ex | rewrite Ey]; exact I.
Qed.

Lemma wide_finite2d : Forall Spec.finite2d ats.
Proof.
  apply (Forall_impl _ (planar_finite2d Range.wide)), ats_wide.
Qed.

Lemma index_wide (i : Z) (a : Atom) :
  index ats i = Some a -> Range.planar Range.wide a.
Proof.
  intros H. apply index_In in H. rewrite Forall_forall in ats_wide. auto.
Qed.

(** The length of a bond between atoms within [wide] is at most
    [3 * wide]. *)
Lemma bondLength_wide (b : Bond) :
  0 <= Spec.bondLength Spec.raw2d ats b <= 3 * Range.wide.
Proof.
  unfold Spec.bondLength.
  destruct (index ats (source b)) as [s |] eqn:Hs;
    [| unfold Range.wide; split; lra].
  destruct (index ats (target b)) as [u |] eqn:Hu;
    [| unfold Range.wide; split; lra].
  destruct (index_wide _ _ Hs) as [Hsx Hsy].
  destruct (index_wide _ _ Hu) as [Hux Huy].
  apply within_inv in Hsx, Hsy, Hux, Huy.
  destruct Hsx as [_ Hsx], Hsy as [_ Hsy], Hux as [_ Hux], Huy as [_ Huy].
  unfold Spec.dist, Spec.raw2d. cbn [fst snd].
  set (dx := val (x2d s) - val (x2d u)). set (dy := val (y2d s) - val (y2d u)).
  unfold Range.wide in *.
  pose proof (mul_within dx dx (2 * 10 ^ 100) (2 * 10 ^ 100)
                ltac:(unfold dx; lra) ltac:(unfold dx; lra)).
  pose proof (mul_within dy dy (2 * 10 ^ 100) (2 * 10 ^ 100)
                ltac:(unfold dy; lra) ltac:(unfold dy; lra)).
  apply sqrt_within; [apply sumsq_nonneg | lra | lra].
Qed.

Lemma addBond64_agree (t : R) (n : nat) (b : Bond) :
  0 <= t <= 10 ^ 200 ->
  Lewis64.addBond ats (Fin t, n) b = Lewis.addBond ats (Fin t, n) b.
Proof.
  intros Ht. pose proof (bondLength_wide b) as Hlen. revert Hlen.
  unfold Lewis64.addBond, Lewis.addBond, Spec.bondLength.
  destruct (index ats (source b)) as [s |] eqn:Hs; [| reflexivity].
  destruct (index ats (target b)) as [u |] eqn:Hu; [| reflexivity].
  destruct (index_wide _ _ Hs) as [Hsx Hsy].
  destruct (index_wide _ _ Hu) as [Hux Huy].
  apply within_inv in Hsx, Hsy, Hux, Huy.
  destruct Hsx as [Esx Hsx], Hsy as [Esy Hsy], Hux as [Eux Hux], Huy as [Euy Huy].
  rewrite Esx, Esy, Eux, Euy.
  unfold Spec.dist, Spec.raw2d. cbn [fst snd val JS.sub JS.neg JS.add JS.mul].
  set (xs := val (x2d s)) in *. set (ys := val (y2d s)) in *.
  set (xu := val (x2d u)) in *. set (yu := val (y2d u)) in *.
  replace (xs - xu) with (xs + - xu) by ring.
  replace (ys - yu) with (ys + - yu) by ring.
  intros Hlen.
  pose proof OVERFLOW_large as Ho. unfold Range.wide in *.
  assert (Bx : - (2 * 10 ^ 100) <= xs + - xu <= 2 * 10 ^ 100) by lra.
  assert (By : - (2 * 10 ^ 100) <= ys + - yu <= 2 * 10 ^ 100) by lra.
  pose proof (mul_within _ _ _ _ Bx Bx) as Bxx.
  pose proof (mul_within _ _ _ _ By By) as Byy.
  rewrite !sub64_fin by lra.
  rewrite !(mul64_within _ _ _ _ Bx Bx), !(mul64_within _ _ _ _ By By) by lra.
  rewrite add64_fin by lra.
  rewrite sqrt_fin by apply sumsq_nonneg.
  rewrite add64_fin by lra.
  reflexivity.
Qed.

Lemma fold_addBond64_agree (bs : list Bond) (t : R) (n : nat) :
  0 <= t -> t + INR (List.length bs) * (3 * Range.wide) <= 10 ^ 200 ->
  fold_left (Lewis64.addBond ats) bs (Fin t, n)
  = fold_left (Lewis.addBond ats) bs (Fin t, n).
Proof.
  revert t n. induction bs as [| b bs IH]; intros t n Ht Hb; [reflexivity |].
  cbn [fold_left]. cbn [List.length] in Hb. rewrite S_INR in Hb.
  pose proof (pos_INR (List.length bs)) as Hn.
  assert (Hw : 0 <= 3 * Range.wide) by (unfold Range.wide; lra).
  assert (Hnw : 0 <= INR (List.length bs) * (3 * Range.wide))
    by (apply Rmult_le_pos; assumption).
  rewrite addBond64_agree by lra.
  rewrite (addBond_spec ats wide_finite2d).
  destruct (Spec.resolves ats b).
  - pose proof (bondLength_wide b) as Hl. apply IH; lra.
  - apply IH; lra.
Qed.

Lemma bondTotals64_agree (bs : list Bond) :
  Range.arraySized bs ->
  Lewis64.bondTotals ats bs = Lewis.bondTotals ats bs.
Proof.
  intros Hn. unfold Lewis64.bondTotals, Lewis.bondTotals.
  apply fold_addBond64_agree; [lra |].
  unfold Range.arraySized in Hn. unfold Range.wide.
  pose proof (pos_INR (List.length bs)) as Hp.
  assert (INR (List.length bs) * (3 * 10 ^ 100) <= 2 ^ 32 * (3 * 10 ^ 100)).
  { apply Rmult_le_compat_r; lra. }
  lra.
Qed.

(** The mean raw bond length of atoms within [wide] is at most
    [3 * wide]. *)
Lemma sumR_bound (l : list R) (L : R) :
  Forall (fun v => 0 <= v <= L) l ->
  0 <= Spec.sumR l <= INR (List.length l) * L.
Proof.
  induction 1 as [| v l Hv _ IH].
  - cbn. lra.
  - rewrite sumR_cons. cbn [List.length]. rewrite S_INR. lra.
Qed.

Lemma meanRawLength_wide (bs : list Bond) :
  0 <= Spec.meanRawLength ats bs <= 3 * Range.wide.
Proof.
  unfold Spec.meanRawLength, Spec.meanLength.
  destruct (Spec.resolvedBonds ats bs) as [| b rs] eqn:E.
  - unfold Range.wide. lra.
  - set (l := map (Spec.bondLength Spec.raw2d ats) (b :: rs)).
    assert (Hl : Forall (fun v => 0 <= v <= 3 * Range.wide) l).
    { apply Forall_map, Forall_forall. intros c _. apply bondLength_wide. }
    pose proof (sumR_bound l _ Hl) as Hs.
    replace (List.length l) with (List.length (b :: rs)) in Hs
      by (unfold l; rewrite length_map; reflexivity).
    assert (Hn : 0 < INR (List.length (b :: rs)))
      by (apply lt_0_INR; cbn; lia).
    set (n := INR (List.length (b :: rs))) in *.
    split.
    + apply Rmult_le_pos; [lra | apply Rlt_le, Rinv_0_lt_compat; exact Hn].
    + apply (Rmult_le_reg_r n); [exact Hn |].
      replace (Spec.sumR l / n * n) with (Spec.sumR l) by (field; lra). lra.
Qed.

Lemma avgLen64_agree (bs : list Bond) :
  Range.arraySized bs -> Lewis64.avgLen ats bs = Lewis.avgLen ats bs.
Proof.
  intros Hn. pose proof (avgLen_spec ats wide_finite2d bs) as Havg.
  pose proof (meanRawLength_wide bs) as Hm.
  unfold Lewis64.avgLen. rewrite bondTotals64_agree by exact Hn.
  unfold Lewis.avgLen in *.
  destruct (Lewis.bondTotals ats bs) as [total n] eqn:E.
  rewrite (bondTotals_spec ats wide_finite2d) in E. injection E as <- <-.
  destruct (0 <? List.length (Spec.resolvedBonds ats bs))%nat eqn:En;
    [| reflexivity].
  rewrite Havg.
  apply Nat.ltb_lt in En.
  assert (Hpos : INR (List.length (Spec.resolvedBonds ats bs)) <> 0).
  { apply not_0_INR. lia. }
  rewrite div_fin in Havg by exact Hpos. injection Havg as Havg.
  rewrite div64_fin; [rewrite Havg; reflexivity | exact Hpos |].
  rewrite Havg. pose proof OVERFLOW_large. unfold Range.wide in Hm. lra.
Qed.

Lemma scale64_agree (bs : list Bond) :
  Range.arraySized bs -> Lewis64.scale ats bs = Lewis.scale ats bs.
Proof.
  intros Hn. pose proof (scale_spec ats wide_finite2d bs) as Hs.
  pose proof (scaleFactor_bounds ats bs) as Hb.
  unfold Lewis64.scale, Lewis64.scaleOf. rewrite avgLen64_agree by exact Hn.
  unfold Lewis.scale, Lewis.scaleOf in *.
  rewrite (avgLen_spec ats wide_finite2d) in *.
  destruct (Fin (Spec.meanRawLength ats bs) >? Fin (1 / 1000))%js eqn:G;
    [| reflexivity].
  unfold JS.gtb, JS.ltb in G.
  destruct (Rlt_dec (1 / 1000) (Spec.meanRawLength ats bs)) as [L | _];
    [| discriminate].
  unfold Lewis.TARGET_BOND_LENGTH in *.
  rewrite div_fin in Hs by lra. injection Hs as Hs.
  rewrite div_fin by lra.
  apply div64_fin; [lra |].
  rewrite Hs. pose proof OVERFLOW_large. lra.
Qed.

Lemma scaleAtom64_agree (s : R) (a : Atom) :
  0 < s < 60000 -> Range.planar Range.wide a ->
  Lewis64.scaleAtom (Fin s) a = Lewis.scaleAtom (Fin s) a.
Proof.
  intros Hs [Hx Hy]. apply within_inv in Hx, Hy.
  destruct Hx as [Ex Hx], Hy as [Ey Hy].
  unfold Lewis64.scaleAtom, Lewis.scaleAtom. rewrite Ex, Ey.
  pose proof OVERFLOW_large. unfold Range.wide in *.
  rewrite !(mul64_within _ s (10 ^ 100) 60000) by lra.
  reflexivity.
Qed.

(** The normalized coordinates of atoms within [wide] are within
    [60000 * wide]. *)
Lemma scaled_within (s : R) (a : Atom) :
  0 < s < 60000 -> Range.planar Range.wide a ->
  Range.within (Range.wide * 60000) (Lewis.x (Spec.scaled s a)) /\
  Range.within (Range.wide * 60000) (Lewis.y (Spec.scaled s a)).
Proof.
  intros Hs [Hx Hy]. apply within_inv in Hx, Hy.
  destruct Hx as [_ Hx], Hy as [_ Hy].
  unfold Spec.scaled. cbn [Lewis.x Lewis.y Range.within].
  split; apply mul_within; lra.
Qed.

End Layout64.

(** The bounds of a bounding box are coordinates of atoms. *)
Lemma bbox_within (M : R) (na0 : Lewis.ScaledAtom) (nas : list Lewis.ScaledAtom) :
  Forall (fun na => Range.within M (Lewis.x na) /\ Range.within M (Lewis.y na))
         (na0 :: nas) ->
  exists a b c d : R,
    Lewis.bbox (na0 :: nas) = (Fin a, Fin b, Fin c, Fin d) /\
    - M <= a <= M /\ - M <= b <= M /\ - M <= c <= M /\ - M <= d <= M.
Proof.
  intros Hw.
  assert (Hf : Forall Spec.finiteXY (na0 :: nas)).
  { apply (Forall_impl _ (P := fun na => Range.within M (Lewis.x na)
                                         /\ Range.within M (Lewis.y na)));
      [| exact Hw].
    intros na [Hx Hy]. apply within_inv in Hx, Hy.
    destruct Hx as [Ex _], Hy as [Ey _]. split; [rewrite Ex | rewrite Ey]; exact I. }
  destruct (bbox_attained na0 nas Hf) as (a & b & c & d & E & Ha & Hb & Hc & Hd).
  exists a, b, c, d. split; [exact E |].
  rewrite Forall_forall in Hw.
  assert (Bx : forall na, In na (na0 :: nas) -> - M <= val (Lewis.x na) <= M).
  { intros na Hin. destruct (Hw na Hin) as [Hx _]. apply within_inv in Hx. tauto. }
  assert (By : forall na, In na (na0 :: nas) -> - M <= val (Lewis.y na) <= M).
  { intros na Hin. destruct (Hw na Hin) as [_ Hy]. apply within_inv in Hy. tauto. }
  destruct Ha as (na & Hna & <-), Hb as (nb & Hnb & <-),
           Hc as (nc & Hnc & <-), Hd as (nd & Hnd & <-).
  auto.
Qed.

(** Within [wide] and with an array of bonds, the layout with the range of
    binary64 is the exact one: nothing leaves the range. *)
Lemma layout64_agree (data : MoleculeData) :
  Forall (Range.planar Range.wide) (atoms data) ->
  Range.arraySized (bonds data) ->
  Lewis64.layout data = Lewis.layout data.
Proof.
  intros Hw Hn. unfold Lewis64.layout, Lewis.layout.
  destruct (atoms data) as [| a0 rest] eqn:E; [reflexivity |].
  rewrite <- E in *. cbv zeta.
  rewrite scale64_agree by assumption.
  pose proof (wide_finite2d _ Hw) as Hfin.
  rewrite (scale_spec _ Hfin).
  pose proof (scaleFactor_bounds (atoms data) (bonds data)) as Hs.
  set (s := Spec.scaleFactor (atoms data) (bonds data)) in *.
  assert (Hmap : map (Lewis64.scaleAtom (Fin s)) (atoms data)
                 = map (Lewis.scaleAtom (Fin s)) (atoms data)).
  { apply map_ext_in. intros a Ha. apply scaleAtom64_agree; [exact Hs |].
    rewrite Forall_forall in Hw. auto. }
  rewrite Hmap. rewrite (scaledAtoms_spec _ Hfin).
  assert (Hb : Forall (fun na => Range.within (Range.wide * 60000) (Lewis.x na)
                                 /\ Range.within (Range.wide * 60000) (Lewis.y na))
                      (map (Spec.scaled s) (atoms data))).
  { apply Forall_map, Forall_forall. intros a Ha. apply scaled_within; [exact Hs |].
    rewrite Forall_forall in Hw. auto. }
  rewrite E in *. cbn [map] in *.
  destruct (bbox_within _ _ _ Hb) as (a & b & c & d & Eb & Ba & Bb & Bc & Bd).
  rewrite Eb.
  pose proof OVERFLOW_large. unfold Range.wide, Lewis.PADDING in *.
  cbn [JS.sub JS.add JS.neg JS.mul].
  rewrite !sub64_fin by lra. rewrite !mul64_fin by lra.
  rewrite !add64_fin by lra.
  reflexivity.
Qed.

(** ** The bond lines within the range *)

(** Between normalized atoms within [60000 * wide], the lines of a bond with
    the range of binary64 are the exact ones. *)
Lemma bondLines64_agree (nas : list Lewis.ScaledAtom) (bond : Bond) :
  Forall (fun na => Range.within (Range.wide * 60000) (Lewis.x na) /\
                    Range.within (Range.wide * 60000) (Lewis.y na)) nas ->
  Lewis64.bondLines nas bond = Lewis.bondLines nas bond.
Proof.
  intros Hw. unfold Lewis64.bondLines, Lewis.bondLines.
  destruct (index nas (source bond)) as [s |] eqn:Hs; [| reflexivity].
  destruct (index nas (target bond)) as [e |] eqn:He; [| reflexivity].
  rewrite Forall_forall in Hw.
  destruct (Hw s (index_In _ _ _ Hs)) as [Hsx Hsy].
  destruct (Hw e (index_In _ _ _ He)) as [Hex Hey].
  apply within_inv in Hsx, Hsy, Hex, Hey.
  destruct Hsx as [Esx Hsx], Hsy as [Esy Hsy], Hex as [Eex Hex], Hey as [Eey Hey].
  rewrite Esx, Esy, Eex, Eey. cbv zeta.
  set (xs := val (Lewis.x s)) in *. set (ys := val (Lewis.y s)) in *.
  set (xe := val (Lewis.x e)) in *. set (ye := val (Lewis.y e)) in *.
  pose proof OVERFLOW_large as Ho. unfold Range.wide in *.
  cbn [JS.sub JS.neg JS.add JS.mul].
  set (dx := xe + - xs). set (dy := ye + - ys).
  assert (Bx : - (2 * (10 ^ 100 * 60000)) <= dx <= 2 * (10 ^ 100 * 60000))
    by (unfold dx; lra).
  assert (By : - (2 * (10 ^ 100 * 60000)) <= dy <= 2 * (10 ^ 100 * 60000))
    by (unfold dy; lra).
  pose proof (mul_within _ _ _ _ Bx Bx) as Bxx.
  pose proof (mul_within _ _ _ _ By By) as Byy.
  rewrite !sub64_fin by (fold dx; fold dy; lra). fold dx. fold dy.
  rewrite !(mul64_within _ _ _ _ Bx Bx), !(mul64_within _ _ _ _ By By) by lra.
  rewrite add64_fin by lra.
  rewrite sqrt_fin by apply sumsq_nonneg.
  set (len := sqrt (dx * dx + dy * dy)).
  unfold JS.ltb. destruct (Rlt_dec len 1) as [L | L]; [reflexivity |].
  assert (Hlen : 1 <= len) by lra.
  cbn [JS.neg].
  assert (Bn : - (2 * (10 ^ 100 * 60000)) <= - dy <= 2 * (10 ^ 100 * 60000)) by lra.
  pose proof (div_within _ len _ Bn Hlen) as Bnx.
  pose proof (div_within _ len _ Bx Hlen) as Bny.
  rewrite !div_fin by lra.
  rewrite !div64_fin by lra.
  set (nx := - dy / len) in *. set (ny := dx / len) in *.
  cbn [JS.mul JS.add JS.sub JS.neg].
  rewrite !(mul64_within nx 3 _ 3 Bnx), !(mul64_within ny 3 _ 3 Bny) by lra.
  pose proof (mul_within nx 3 _ 3 Bnx ltac:(lra)) as Bnx3.
  pose proof (mul_within ny 3 _ 3 Bny ltac:(lra)) as Bny3.
  rewrite !(mul64_within (nx * 3) (5 / 2) _ (5 / 2) Bnx3),
          !(mul64_within (ny * 3) (5 / 2) _ (5 / 2) Bny3) by lra.
  pose proof (mul_within (nx * 3) (5 / 2) _ (5 / 2) Bnx3 ltac:(lra)) as Bnx7.
  pose proof (mul_within (ny * 3) (5 / 2) _ (5 / 2) Bny3 ltac:(lra)) as Bny7.
  rewrite !add64_fin by lra.
  rewrite !sub64_fin by lra.
  reflexivity.
Qed.

(** The lines of a bond over the layout, within the range. *)
Lemma layout_bondLines64_agree (data : MoleculeData) (bond : Bond) :
  Forall (Range.planar Range.wide) (atoms data) ->
  Range.arraySized (bonds data) ->
  Lewis64.bondLines (Lewis.normalizedAtoms (Lewis64.layout data)) bond
  = Lewis.bondLines (Lewis.normalizedAtoms (Lewis.layout data)) bond.
Proof.
  intros Hw Hn. rewrite layout64_agree by assumption.
  apply bondLines64_agree.
  destruct (atoms data) as [| a0 rest] eqn:E.
  - unfold Lewis.layout. rewrite E. constructor.
  - rewrite <- E in *.
    rewrite layout_normalizedAtoms by (rewrite E; discriminate).
    pose proof (wide_finite2d _ Hw) as Hfin.
    rewrite (scale_spec _ Hfin), (scaledAtoms_spec _ Hfin).
    apply Forall_map, Forall_forall. intros a Ha.
    apply scaled_within; [apply scaleFactor_bounds |].
    rewrite Forall_forall in Hw. auto.
Qed.

(** ** The spatial engine within the range *)

Lemma add_within (a b A B : R) :
  - A <= a <= A -> - B <= b <= B -> - (A + B) <= a + b <= A + B.
Proof. intros Ha Hb. lra. Qed.

Lemma opp_within (a A : R) : - A <= a <= A -> - A <= - a <= A.
Proof. intros Ha. lra. Qed.

Lemma sub_within (a b A B : R) :
  - A <= a <= A -> - B <= b <= B -> - (A + B) <= a - b <= A + B.
Proof. intros Ha Hb. lra. Qed.

Lemma const_within (c : R) : 0 <= c -> - c <= c <= c.
Proof. intros Hc. lra. Qed.

Lemma relax_within (e L K : R) : L <= e <= K -> - K <= L -> - K <= e <= K.
Proof. intros He HL. lra. Qed.

(** A bound on the magnitude of a polynomial in numbers whose bounds are
    among the hypotheses. *)
Ltac bound e :=
  lazymatch goal with
  | H : ?L <= e <= ?K |- _ => constr:(relax_within e L K H ltac:(lra))
  | _ =>
      lazymatch e with
      | ?a + ?b =>
          let Ha := bound a in let Hb := bound b in
          constr:(add_within _ _ _ _ Ha Hb)
      | ?a - ?b =>
          let Ha := bound a in let Hb := bound b in
          constr:(sub_within _ _ _ _ Ha Hb)
      | - ?a => let Ha := bound a in constr:(opp_within _ _ Ha)
      | ?a * ?b =>
          let Ha := bound a in let Hb := bound b in
          constr:(mul_within _ _ _ _ Ha Hb)
      | _ => constr:(const_within e ltac:(lra))
      end
  end.

(** Evaluation of the operators with the range of binary64 on numbers
    whose results stay far below the overflow threshold. *)
Ltac in_range e :=
  let H := bound e in
  let Ho := constr:(OVERFLOW_large) in
  pose proof H; pose proof Ho; lra.

Ltac eval64 :=
  repeat match goal with
         | |- context [JS64.mul (Fin ?p) (Fin ?q)] =>
             rewrite (mul64_fin p q) by in_range (p * q)
         | |- context [JS64.add (Fin ?p) (Fin ?q)] =>
             rewrite (add64_fin p q) by in_range (p + q)
         | |- context [JS64.sub (Fin ?p) (Fin ?q)] =>
             rewrite (sub64_fin p q) by in_range (p + - q)
         end.

Section Spatial64.

Import Three Spec3D.

Lemma applyQuaternion64_agree (a b c x y z w : R) :
  - 1 <= a <= 1 -> - 1 <= b <= 1 -> - 1 <= c <= 1 ->
  - 2 ^ 54 <= x <= 2 ^ 54 -> - 2 ^ 54 <= y <= 2 ^ 54 ->
  - 2 ^ 54 <= z <= 2 ^ 54 -> - 2 ^ 54 <= w <= 2 ^ 54 ->
  Three64.applyQuaternion (vec3 a b c) (quat x y z w)
  = applyQuaternion (vec3 a b c) (quat x y z w).
Proof.
  intros Ha Hb Hc Hx Hy Hz Hw.
  unfold Three64.applyQuaternion, applyQuaternion, vec3, quat.
  cbn [vx vy vz qx qy qz qw JS.mul JS.add JS.sub JS.neg]. cbv zeta.
  assert (H2 : - 2 <= 2 <= 2) by lra.
  eval64. reflexivity.
Qed.

Lemma comp_le_norm (a b c : R) : - norm a b c <= a <= norm a b c.
Proof.
  pose proof (norm_sqr a b c) as Hn.
  assert (Hp : 0 <= norm a b c) by apply sqrt_pos.
  pose proof (sumsq_nonneg b c) as Hbc.
  set (n := norm a b c) in *.
  split.
  - destruct (Rle_lt_dec (- n) a) as [L | L]; [exact L | exfalso].
    assert (n * n < (- a) * (- a)) by (apply Rmult_le_0_lt_compat; lra).
    lra.
  - destruct (Rle_lt_dec a n) as [L | L]; [exact L | exfalso].
    assert (n * n < a * a) by (apply Rmult_le_0_lt_compat; lra).
    lra.
Qed.

Lemma norm_perm (a b c : R) : norm b a c = norm a b c /\ norm c b a = norm a b c.
Proof. unfold norm. split; f_equal; ring. Qed.

(** The components of a vector over its positive length are within 1. *)
Lemma unit_components (a b c : R) :
  0 < norm a b c ->
  - 1 <= a * (1 / norm a b c) <= 1 /\
  - 1 <= b * (1 / norm a b c) <= 1 /\
  - 1 <= c * (1 / norm a b c) <= 1.
Proof.
  intros Hn.
  pose proof (comp_le_norm a b c) as Ha.
  pose proof (comp_le_norm b a c) as Hb. rewrite (proj1 (norm_perm a b c)) in Hb.
  pose proof (comp_le_norm c b a) as Hc. rewrite (proj2 (norm_perm a b c)) in Hc.
  set (n := norm a b c) in *.
  assert (Hk : 0 < 1 / n) by (apply Rdiv_lt_0_compat; lra).
  assert (E : n * (1 / n) = 1) by (field; lra).
  assert (M : forall v, - n <= v <= n -> - 1 <= v * (1 / n) <= 1).
  { intros v [Hl Hu].
    assert (v * (1 / n) <= n * (1 / n)) by (apply Rmult_le_compat_r; lra).
    assert (- n * (1 / n) <= v * (1 / n)) by (apply Rmult_le_compat_r; lra).
    lra. }
  auto.
Qed.

(** The length and the direction of a difference of two points within
    [wide], which is zero or at least [tiny] long. *)
Lemma normalize64_agree (d1 d2 d3 : R) :
  - (2 * Range.wide) <= d1 <= 2 * Range.wide ->
  - (2 * Range.wide) <= d2 <= 2 * Range.wide ->
  - (2 * Range.wide) <= d3 <= 2 * Range.wide ->
  norm d1 d2 d3 = 0 \/ Range.tiny <= norm d1 d2 d3 ->
  Three64.length (vec3 d1 d2 d3) = Three.length (vec3 d1 d2 d3) /\
  Three64.normalize (vec3 d1 d2 d3) = normalize (vec3 d1 d2 d3).
Proof.
  unfold Range.wide, Range.tiny. intros H1 H2 H3 Hn.
  assert (El : Three64.length (vec3 d1 d2 d3) = Three.length (vec3 d1 d2 d3)).
  { unfold Three64.length, Three.length, vec3.
    cbn [vx vy vz JS.mul JS.add]. eval64. reflexivity. }
  split; [exact El |].
  unfold Three64.normalize, normalize. rewrite El, length_vec3.
  unfold JS.or_else, JS.truthy.
  destruct (Req_dec_T (norm d1 d2 d3) 0) as [E | N].
  - unfold Three64.divideScalar, divideScalar.
    rewrite div_fin by lra. rewrite div64_fin by (pose proof OVERFLOW_large; lra).
    unfold Three64.multiplyScalar, multiplyScalar, vec3.
    cbn [vx vy vz JS.mul].
    assert (Hc : - 1 <= 1 / 1 <= 1) by lra.
    eval64. reflexivity.
  - destruct Hn as [E | Hn]; [contradiction |].
    set (n := norm d1 d2 d3) in *.
    assert (Hk : 0 < 1 / n <= 10 ^ 100).
    { assert (Hp : 0 < n) by lra.
      split; [apply Rdiv_lt_0_compat; lra |].
      apply (Rmult_le_reg_r n); [exact Hp |].
      replace (1 / n * n) with 1 by (field; lra).
      assert (10 ^ 100 * / 10 ^ 100 <= 10 ^ 100 * n)
        by (apply Rmult_le_compat_l; lra).
      lra. }
    unfold Three64.divideScalar, divideScalar.
    rewrite div_fin by exact N.
    rewrite div64_fin by (try exact N; pose proof OVERFLOW_large; lra).
    unfold Three64.multiplyScalar, multiplyScalar, vec3.
    cbn [vx vy vz JS.mul].
    set (k := 1 / n) in *.
    assert (Hk' : - 10 ^ 100 <= k <= 10 ^ 100) by lra.
    clear Hk. eval64. reflexivity.
Qed.

(** The exact direction has components within 1, also for the zero
    vector. *)
Lemma normalize_within (d1 d2 d3 : R) :
  exists u1 u2 u3 : R,
    normalize (vec3 d1 d2 d3) = vec3 u1 u2 u3 /\
    - 1 <= u1 <= 1 /\ - 1 <= u2 <= 1 /\ - 1 <= u3 <= 1.
Proof.
  destruct (Req_dec_T (norm d1 d2 d3) 0) as [E | N].
  - rewrite normalize_vec3_zero by exact E.
    pose proof (comp_le_norm d1 d2 d3) as H1.
    pose proof (comp_le_norm d2 d1 d3) as H2.
    rewrite (proj1 (norm_perm d1 d2 d3)) in H2.
    pose proof (comp_le_norm d3 d2 d1) as H3.
    rewrite (proj2 (norm_perm d1 d2 d3)) in H3.
    rewrite E in *.
    eexists _, _, _. split; [reflexivity |]. repeat split; lra.
  - rewrite normalize_vec3 by exact N.
    assert (Hp : 0 < norm d1 d2 d3).
    { pose proof (sqrt_pos (d1 * d1 + d2 * d2 + d3 * d3)) as Hs.
      unfold norm in *. lra. }
    destruct (unit_components d1 d2 d3 Hp) as (H1 & H2 & H3).
    eexists _, _, _. split; [reflexivity |]. auto.
Qed.

Lemma sqrt_ge (w S : R) : 0 <= w -> w * w <= S -> w <= sqrt S.
Proof.
  intros Hw HS. rewrite <- (sqrt_square w) by exact Hw.
  apply sqrt_le_1_alt. exact HS.
Qed.

(** [normalize] of a quaternion with components within 4 and a length of
    at least 2^-52. *)
Lemma qnormalize64_agree (a b c d : R) :
  - 4 <= a <= 4 -> - 4 <= b <= 4 -> - 4 <= c <= 4 -> - 4 <= d <= 4 ->
  / 2 ^ 52 <= sqrt (a * a + b * b + c * c + d * d) ->
  Three64.qnormalize (quat a b c d) = qnormalize (quat a b c d) /\
  exists x y z w : R,
    qnormalize (quat a b c d) = quat x y z w /\
    - 2 ^ 54 <= x <= 2 ^ 54 /\ - 2 ^ 54 <= y <= 2 ^ 54 /\
    - 2 ^ 54 <= z <= 2 ^ 54 /\ - 2 ^ 54 <= w <= 2 ^ 54.
Proof.
  intros Ha Hb Hc Hd Hn.
  set (n := sqrt (a * a + b * b + c * c + d * d)) in *.
  assert (Hp : 0 < n) by lra.
  assert (Hk : 0 < 1 / n <= 2 ^ 52).
  { split; [apply Rdiv_lt_0_compat; lra |].
    apply (Rmult_le_reg_r n); [exact Hp |].
    replace (1 / n * n) with 1 by (field; lra).
    assert (2 ^ 52 * / 2 ^ 52 <= 2 ^ 52 * n) by (apply Rmult_le_compat_l; lra).
    lra. }
  split.
  - unfold Three64.qnormalize, qnormalize, Three64.qlength, qlength, quat.
    cbn [qx qy qz qw JS.mul JS.add]. eval64.
    rewrite sqrt_fin by apply sumsq4_nonneg. fold n.
    unfold JS.eqb. destruct (Req_dec_T n 0) as [E | N]; [lra |].
    rewrite div_fin by exact N.
    rewrite div64_fin by (try exact N; pose proof OVERFLOW_large; lra).
    cbn [JS.mul]. set (k := 1 / n) in *.
    assert (Hk' : - 2 ^ 52 <= k <= 2 ^ 52) by lra.
    clear Hk. eval64. reflexivity.
  - rewrite qnormalize_quat by (fold n; lra). fold n.
    set (k := 1 / n) in *.
    assert (Hk' : - 2 ^ 52 <= k <= 2 ^ 52) by lra.
    clearbody k.
    pose proof (mul_within a k 4 (2 ^ 52) ltac:(lra) Hk').
    pose proof (mul_within b k 4 (2 ^ 52) ltac:(lra) Hk').
    pose proof (mul_within c k 4 (2 ^ 52) ltac:(lra) Hk').
    pose proof (mul_within d k 4 (2 ^ 52) ltac:(lra) Hk').
    eexists _, _, _, _. split; [reflexivity |].
    repeat split; lra.
Qed.

(** The orientation from the up axis to a direction with components within
    1, for a tolerance between [Number.EPSILON] and 1. *)
Lemma setFromUnitVectors64_agree (eps u1 u2 u3 : R) :
  / 2 ^ 52 <= eps <= 1 ->
  - 1 <= u1 <= 1 -> - 1 <= u2 <= 1 -> - 1 <= u3 <= 1 ->
  Three64.setFromUnitVectors (Fin eps) Mol3D.up (vec3 u1 u2 u3)
  = setFromUnitVectors (Fin eps) Mol3D.up (vec3 u1 u2 u3) /\
  exists x y z w : R,
    setFromUnitVectors (Fin eps) Mol3D.up (vec3 u1 u2 u3) = quat x y z w /\
    - 2 ^ 54 <= x <= 2 ^ 54 /\ - 2 ^ 54 <= y <= 2 ^ 54 /\
    - 2 ^ 54 <= z <= 2 ^ 54 /\ - 2 ^ 54 <= w <= 2 ^ 54.
Proof.
  intros He H1 H2 H3.
  unfold Three64.setFromUnitVectors, setFromUnitVectors, Three64.dot, dot,
    Mol3D.up, vec3.
  cbn [vx vy vz JS.mul JS.add JS.sub JS.neg]. cbv zeta.
  assert (C0 : - 0 <= 0 <= 0) by lra. assert (C1 : - 1 <= 1 <= 1) by lra.
  eval64.
  set (r := 0 * u1 + 1 * u2 + 0 * u3 + 1).
  destruct (Fin r <? Fin eps)%js eqn:G;
    unfold JS.ltb in G; destruct (Rlt_dec r eps) as [L | L]; try discriminate;
    clear G.
  - unfold JS.gtb, JS.abs. rewrite !ltb_fin_false by lra.
    fold (quat 0 (- 0) 1 0).
    assert (Hn : sqrt (0 * 0 + - 0 * - 0 + 1 * 1 + 0 * 0) = 1).
    { replace (0 * 0 + - 0 * - 0 + 1 * 1 + 0 * 0) with 1 by ring. apply sqrt_1. }
    apply qnormalize64_agree; lra.
  - set (X := 1 * u3 + - (0 * u2)). set (Y := 0 * u1 + - (0 * u3)).
    set (Z := 0 * u2 + - (1 * u1)).
    fold (quat X Y Z r).
    assert (Hr : 0 <= r) by lra.
    apply qnormalize64_agree; unfold X, Y, Z, r; try lra.
    fold X Y Z r.
    assert (Hle : r <= sqrt (X * X + Y * Y + Z * Z + r * r)).
    { apply sqrt_ge; [exact Hr |]. pose proof (sumsq3_nonneg X Y Z). lra. }
    lra.
Qed.

(** Between points within [wide] that coincide or are at least [tiny]
    apart, and for a tolerance between [Number.EPSILON] and 1, every step
    of [BondMesh] with the range of binary64 gives what the exact step
    gives, and so do the cylinders. *)
Lemma bond64_agree (eps s1 s2 s3 e1 e2 e3 : R) (o : Z) :
  / 2 ^ 52 <= eps <= 1 ->
  - Range.wide <= s1 <= Range.wide -> - Range.wide <= s2 <= Range.wide ->
  - Range.wide <= s3 <= Range.wide ->
  - Range.wide <= e1 <= Range.wide -> - Range.wide <= e2 <= Range.wide ->
  - Range.wide <= e3 <= Range.wide ->
  norm (e1 - s1) (e2 - s2) (e3 - s3) = 0 \/
  Range.tiny <= norm (e1 - s1) (e2 - s2) (e3 - s3) ->
  let start := vec3 s1 s2 s3 in
  let end_ := vec3 e1 e2 e3 in
  let diff := subVectors end_ start in
  let q := setFromUnitVectors (Fin eps) Mol3D.up (normalize diff) in
  let mid := multiplyScalar (addVectors start end_) (Fin (1 / 2)) in
  let lateral := applyQuaternion Mol3D.unitX q in
  Three64.subVectors end_ start = diff /\
  Three64.length diff = Three.length diff /\
  Three64.normalize diff = normalize diff /\
  Three64.setFromUnitVectors (Fin eps) Mol3D.up (normalize diff) = q /\
  Three64.multiplyScalar (Three64.addVectors start end_) (Fin (1 / 2)) = mid /\
  Three64.applyQuaternion Mol3D.unitX q = lateral /\
  Three64.applyQuaternion Mol3D.up q = applyQuaternion Mol3D.up q /\
  Three64.add mid (Three64.multiplyScalar lateral (Fin (15 / 100)))
  = add mid (multiplyScalar lateral (Fin (15 / 100))) /\
  Three64.add mid (Three64.multiplyScalar lateral (- Fin (15 / 100))%js64)
  = add mid (multiplyScalar lateral (- Fin (15 / 100))%js) /\
  Mol3D64.BondMesh (Fin eps) start end_ o = Mol3D.BondMesh (Fin eps) start end_ o.
Proof.
  intros He S1 S2 S3 E1 E2 E3 Hn start end_ diff q mid lateral.
  pose proof (normalize64_agree (e1 - s1) (e2 - s2) (e3 - s3)) as Hnorm.
  unfold Range.wide in *.
  assert (Ediff : Three64.subVectors end_ start = diff).
  { unfold Three64.subVectors, diff, end_, start, vec3.
    cbn [vx vy vz]. eval64. reflexivity. }
  assert (Emid : Three64.multiplyScalar (Three64.addVectors start end_)
                                         (Fin (1 / 2)) = mid).
  { unfold Three64.multiplyScalar, Three64.addVectors, mid, multiplyScalar,
      addVectors, start, end_, vec3.
    cbn [vx vy vz JS.add JS.mul]. eval64. reflexivity. }
  assert (Hmid : exists m1 m2 m3 : R,
             mid = vec3 m1 m2 m3 /\
             - 10 ^ 100 <= m1 <= 10 ^ 100 /\
             - 10 ^ 100 <= m2 <= 10 ^ 100 /\
             - 10 ^ 100 <= m3 <= 10 ^ 100).
  { unfold mid, start, end_. rewrite addVectors_vec3, multiplyScalar_vec3.
    eexists _, _, _. split; [reflexivity |]. repeat split; lra. }
  destruct Hmid as (m1 & m2 & m3 & Em & M1 & M2 & M3).
  assert (Ed : diff = vec3 (e1 - s1) (e2 - s2) (e3 - s3)) by reflexivity.
  destruct (Hnorm ltac:(lra) ltac:(lra) ltac:(lra) Hn) as [El En]. clear Hnorm.
  rewrite <- Ed in El, En.
  destruct (normalize_within (e1 - s1) (e2 - s2) (e3 - s3))
    as (u1 & u2 & u3 & Eu & U1 & U2 & U3).
  rewrite <- Ed in Eu.
  destruct (setFromUnitVectors64_agree eps u1 u2 u3 He U1 U2 U3)
    as (Eq & x & y & z & w & Eqq & Hx & Hy & Hz & Hw).
  rewrite <- Eu in Eq, Eqq. fold q in Eq, Eqq.
  assert (C1 : - 1 <= 1 <= 1) by lra. assert (C0 : - 1 <= 0 <= 1) by lra.
  assert (Elat : Three64.applyQuaternion Mol3D.unitX q = lateral).
  { unfold lateral. rewrite Eqq. unfold Mol3D.unitX. fold (vec3 1 0 0).
    apply applyQuaternion64_agree; assumption. }
  assert (Eup : Three64.applyQuaternion Mol3D.up q = applyQuaternion Mol3D.up q).
  { rewrite Eqq. unfold Mol3D.up. fold (vec3 0 1 0).
    apply applyQuaternion64_agree; assumption. }
  assert (Epos : forall k : R, - 1 <= k <= 1 ->
            Three64.add mid (Three64.multiplyScalar lateral (Fin k))
            = add mid (multiplyScalar lateral (Fin k))).
  { intros k Hk. unfold lateral. rewrite Eqq, Em.
    unfold Mol3D.unitX. fold (vec3 1 0 0).
    rewrite applyQuaternion_fin. cbv zeta.
    unfold Three64.add, Three64.addVectors, Three64.multiplyScalar,
      add, addVectors, multiplyScalar, vec3.
    cbn [vx vy vz JS.mul JS.add].
    eval64. reflexivity. }
  assert (Eplus := Epos (15 / 100) ltac:(lra)).
  assert (Eminus := Epos (- (15 / 100)) ltac:(lra)).
  repeat (split; [assumption |]).
  unfold Mol3D64.BondMesh, Mol3D.BondMesh. cbv zeta.
  fold diff. rewrite Ediff, Emid, El, En, Eq. fold mid.
  rewrite Elat. fold lateral. cbn [JS.neg] in *.
  rewrite Eplus, Eminus. reflexivity.
Qed.

End Spatial64.

(** ** The planar layout within the range *)

Lemma within_weaken (b b' : R) (c : jsnum) :
  b <= b' -> Range.within b c -> Range.within b' c.
Proof. intros Hb. destruct c; cbn; intros H; try contradiction. lra. Qed.

Lemma drawing_wide (ats : list Atom) :
  Forall (Range.planar Range.drawing) ats -> Forall (Range.planar Range.wide) ats.
Proof.
  apply Forall_impl. intros a [Hx Hy].
  assert (Hb : Range.drawing <= Range.wide)
    by (unfold Range.drawing, Range.wide; lra).
  split; apply (within_weaken _ _ _ Hb); assumption.
Qed.

Lemma bent_drawing : Forall (Range.planar Range.drawing) (atoms Examples.bent).
Proof.
  unfold Range.planar, Range.drawing.
  repeat constructor; cbn [Range.within x2d y2d Examples.bentO Examples.bentH1
                           Examples.bentH2 Examples.mkAtom]; lra.
Qed.

Lemma bent_wide : Forall (Range.planar Range.wide) (atoms Examples.bent).
Proof. apply drawing_wide, bent_drawing. Qed.

Lemma bent_arraySized : Range.arraySized (bonds Examples.bent).
Proof. unfold Range.arraySized. cbn [bonds Examples.bent Examples.mkData List.length INR]. lra. Qed.

Lemma tiny_wide : Forall (Range.planar Range.wide) (atoms Examples.tiny).
Proof.
  unfold Range.planar, Range.wide.
  repeat constructor; cbn [Range.within x2d y2d Examples.tinyA Examples.tinyB
                           Examples.mkAtom]; lra.
Qed.

Lemma tiny_arraySized : Range.arraySized (bonds Examples.tiny).
Proof. unfold Range.arraySized. cbn [bonds Examples.tiny Examples.mkData List.length INR]. lra. Qed.

(** ** The steps of the layout, for every input *)

Lemma addBond64_step (ats : list Atom) (t : jsnum) (n : nat) (b : Bond) :
  Lewis64.addBond ats (t, n) b
  = if Spec.resolves ats b
    then ((t + Spec64.bondLength ats b)%js64, S n) else (t, n).
Proof.
  unfold Lewis64.addBond, Spec.resolves, Spec64.bondLength.
  destruct (index ats (source b)); [| reflexivity].
  destruct (index ats (target b)); reflexivity.
Qed.

Lemma fold_addBond64_resolved (ats : list Atom) (bs : list Bond) (t : jsnum)
  (n : nat) :
  fold_left (Lewis64.addBond ats) bs (t, n)
  = (fold_left JS64.add
       (map (Spec64.bondLength ats) (Spec.resolvedBonds ats bs)) t,
     (n + List.length (Spec.resolvedBonds ats bs))%nat).
Proof.
  revert t n. induction bs as [| b bs IH]; intros t n.
  - cbn. rewrite Nat.add_0_r. reflexivity.
  - cbn [fold_left]. rewrite addBond64_step.
    unfold Spec.resolvedBonds in *. cbn [filter].
    destruct (Spec.resolves ats b).
    + rewrite IH. cbn [map fold_left List.length].
      rewrite Nat.add_succ_r. reflexivity.
    + apply IH.
Qed.

Lemma bondTotals64_resolved (ats : list Atom) (bs : list Bond) :
  Lewis64.bondTotals ats bs
  = (Spec64.sum (map (Spec64.bondLength ats) (Spec.resolvedBonds ats bs)),
     List.length (Spec.resolvedBonds ats bs)).
Proof. unfold Lewis64.bondTotals. apply fold_addBond64_resolved. Qed.

Lemma avgLen64_mean (ats : list Atom) (bs : list Bond) :
  Lewis64.avgLen ats bs = Spec64.meanRawLength ats bs.
Proof.
  unfold Lewis64.avgLen, Spec64.meanRawLength.
  rewrite bondTotals64_resolved.
  destruct (Spec.resolvedBonds ats bs); reflexivity.
Qed.

Lemma scale64_factor (ats : list Atom) (bs : list Bond) :
  Lewis64.scale ats bs = Spec64.scaleFactor ats bs.
Proof. unfold Lewis64.scale. rewrite avgLen64_mean. reflexivity. Qed.

Lemma layout64_normalizedAtoms (data : MoleculeData) :
  atoms data <> [] ->
  Lewis.normalizedAtoms (Lewis64.layout data)
  = map (Lewis64.scaleAtom (Lewis64.scale (atoms data) (bonds data)))
        (atoms data).
Proof.
  intros Hne. unfold Lewis64.layout.
  destruct (atoms data) as [| a rest] eqn:E; [contradiction |].
  cbv zeta.
  destruct (Lewis.bbox _) as [[[minX maxX] minY] maxY]. reflexivity.
Qed.

(** C1: on a non-empty atom list the first loop adds up, from the left, the
    Euclidean lengths of exactly the bonds whose two indices resolve and
    counts them (the others leave the totals alone); the mean is that sum
    over that count, and 1 when no bond resolves; the scale is 60 over the
    mean when the mean exceeds 0.001 and the default 60 otherwise; every
    atom is kept and both of its raw coordinates are multiplied by that one
    scale.  This holds for every input, each operation bringing its result
    into the range of a double.  When the raw coordinates are at most 10^100
    in magnitude and the bonds form an array, no step leaves the range: the
    sum and the mean are then the sum and the mean of the real Euclidean
    lengths, the scale is 60 over that mean or 60, and the normalized
    coordinates are the real products. *)
Theorem C1_scale_derivation (data : MoleculeData) :
  atoms data <> [] ->
  let ats := atoms data in
  let bs := bonds data in
  let resolved := Spec.resolvedBonds ats bs in
  (Lewis64.bondTotals ats bs
   = (Spec64.sum (map (Spec64.bondLength ats) resolved), List.length resolved) /\
   Lewis64.avgLen ats bs = Spec64.meanRawLength ats bs /\
   Lewis64.scale ats bs = Spec64.scaleFactor ats bs /\
   map Lewis.atom (Lewis.normalizedAtoms (Lewis64.layout data)) = ats /\
   map Units.coords (Lewis.normalizedAtoms (Lewis64.layout data))
   = map (Spec64.scaled (Lewis64.scale ats bs)) ats) /\
  (Forall (Range.planar Range.wide) ats -> Range.arraySized bs ->
   let total := Spec.sumR (map (Spec.bondLength Spec.raw2d ats) resolved) in
   Lewis64.bondTotals ats bs = (Fin total, List.length resolved) /\
   (resolved = [] -> Lewis64.avgLen ats bs = Fin 1) /\
   (resolved <> [] ->
    Lewis64.avgLen ats bs = Fin (total / INR (List.length resolved))) /\
   (1 / 1000 < val (Lewis64.avgLen ats bs) ->
    Lewis64.scale ats bs = Fin (60 / val (Lewis64.avgLen ats bs))) /\
   (val (Lewis64.avgLen ats bs) <= 1 / 1000 -> Lewis64.scale ats bs = Fin 60) /\
   Lewis.normalizedAtoms (Lewis64.layout data) =
   map (Spec.scaled (val (Lewis64.scale ats bs))) ats).
Proof.
  intros Hne ats bs resolved. unfold ats, bs, resolved in *. split.
  - split; [apply bondTotals64_resolved |].
    split; [apply avgLen64_mean |].
    split; [apply scale64_factor |].
    rewrite layout64_normalizedAtoms by exact Hne.
    rewrite !map_map. split; [apply map_id | reflexivity].
  - intros Hw Hn. cbv zeta.
    rewrite layout64_agree, bondTotals64_agree, avgLen64_agree, scale64_agree
      by assumption.
    apply (scale_derivation_exact data Hne (wide_finite2d _ Hw)).
Qed.

Lemma C1_scale_derivation_witness :
  Lewis.normalizedAtoms (Lewis64.layout Examples.bent) =
  map (Spec.scaled
         (val (Lewis64.scale (atoms Examples.bent) (bonds Examples.bent))))
      (atoms Examples.bent).
Proof.
  assert (Hne : atoms Examples.bent <> []) by discriminate.
  destruct (C1_scale_derivation Examples.bent Hne) as [_ H].
  apply (H bent_wide bent_arraySized).
Defined.



(** ** Beyond the range *)

Lemma mul64_over (a b : R) :
  JS64.OVERFLOW <= a * b -> (Fin a * Fin b)%js64 = PInf.
Proof. intros H. unfold JS64.mul. cbn [JS.mul]. apply range_over, H. Qed.

Lemma add64_over (a b : R) :
  JS64.OVERFLOW <= a + b -> (Fin a + Fin b)%js64 = PInf.
Proof. intros H. unfold JS64.add. cbn [JS.add]. apply range_over, H. Qed.

(** Evaluation on constants: each operator on two finite constants is in
    range or overflows upward. *)
Ltac const64 :=
  repeat first
    [ rewrite mul64_fin by (unfold JS64.OVERFLOW; lra)
    | rewrite add64_fin by (unfold JS64.OVERFLOW; lra)
    | rewrite sub64_fin by (unfold JS64.OVERFLOW; lra)
    | rewrite mul64_over by (unfold JS64.OVERFLOW; lra)
    | rewrite add64_over by (unfold JS64.OVERFLOW; lra) ].









(** ** The pair at 10^308 *)

Lemma sub64_PInf_fin (x : R) : (PInf - Fin x)%js64 = PInf.
Proof. reflexivity. Qed.

Lemma sub64_PInf_PInf : (PInf - PInf)%js64 = NaN.
Proof. reflexivity. Qed.

Lemma add64_NaN (a : jsnum) : (NaN + a)%js64 = NaN.
Proof. destruct a; reflexivity. Qed.

Lemma mul64_NaN (a : jsnum) : (NaN * a)%js64 = NaN.
Proof. destruct a; reflexivity. Qed.

Lemma remotePair_scale :
  Lewis64.scale (atoms Samples.remotePair) (bonds Samples.remotePair) = Fin 60.
Proof.
  unfold Lewis64.scale, Lewis64.avgLen, Lewis64.bondTotals.
  cbn [atoms bonds Samples.remotePair Examples.mkData fold_left].
  unfold Lewis64.addBond.
  change (index _ (source Samples.remoteBond)) with (Some Samples.remoteA).
  change (index _ (target Samples.remoteBond)) with (Some Samples.remoteB).
  cbn [Samples.remoteA Samples.remoteB x2d y2d fst snd]. cbv zeta.
  const64.
  replace ((10 ^ 308 + - 10 ^ 308) * (10 ^ 308 + - 10 ^ 308)
           + (0 + - 0) * (0 + - 0)) with 0 by ring.
  rewrite sqrt_fin, sqrt_0 by lra. const64.
  cbn [Nat.ltb Nat.leb INR].
  rewrite div64_fin by (unfold JS64.OVERFLOW; lra).
  unfold Lewis64.scaleOf, JS.gtb. rewrite ltb_fin_false by lra. reflexivity.
Qed.

(** Both atoms of [remotePair] are drawn at [x = Infinity]; the frame
    starts at [Infinity] and its width is [NaN]. *)
Lemma remotePair_layout :
  Lewis.normalizedAtoms (Lewis64.layout Samples.remotePair)
  = [ {| Lewis.atom := Samples.remoteA; Lewis.x := PInf; Lewis.y := Fin (0 * 60) |};
      {| Lewis.atom := Samples.remoteB; Lewis.x := PInf; Lewis.y := Fin (0 * 60) |} ] /\
  Lewis.viewBox (Lewis64.layout Samples.remotePair)
  = {| Lewis.boxX := PInf; Lewis.boxY := Fin (0 * 60 + - 40);
       Lewis.boxW := NaN;
       Lewis.boxH := Fin (0 * 60 + - (0 * 60) + 40 * 2) |}.
Proof.
  unfold Lewis64.layout.
  cbn [atoms Samples.remotePair Examples.mkData]. cbv zeta.
  change (Lewis64.scale _ _)
    with (Lewis64.scale (atoms Samples.remotePair) (bonds Samples.remotePair)).
  rewrite remotePair_scale.
  cbn [map]. unfold Lewis64.scaleAtom.
  cbn [Samples.remoteA Samples.remoteB x2d y2d].
  const64.
  unfold Lewis.bbox. cbn [fold_left Lewis.bboxStep Lewis.x Lewis.y].
  cbn [JS.min JS.max JS.ltb].
  destruct (Rlt_dec (0 * 60) (0 * 60)) as [L | _]; [lra |].
  cbn [Lewis.normalizedAtoms Lewis.viewBox].
  split; [reflexivity |].
  unfold Lewis.PADDING.
  rewrite sub64_PInf_fin, sub64_PInf_PInf, add64_NaN. const64. reflexivity.
Qed.

(** ** The view frame *)

(** C5 (amended): for a non-empty atom list whose raw coordinates are at
    most 10^6 in magnitude, with an array of bonds, the view frame is
    finite and, around every normalized atom centre, strictly contains the
    square whose half-side is the largest reach of a decoration (28.3, under
    the padding 40); every circle drawn for the atom lies in that square. *)
Theorem C5_frame_contains_decorations (data : MoleculeData)
  (showLonePairs showCharges : bool) (na : Lewis.ScaledAtom) :
  atoms data <> [] ->
  Forall (Range.planar Range.drawing) (atoms data) ->
  Range.arraySized (bonds data) ->
  In na (Lewis.normalizedAtoms (Lewis64.layout data)) ->
  let vb := Lewis.viewBox (Lewis64.layout data) in
  SpecFrame.finiteBox vb /\
  SpecFrame.frameContainsSquare vb (Spec.pos na) SpecFrame.maxDecorationRadius /\
  forall k, In k (Lewis.atomDiscs showLonePairs showCharges na) ->
    SpecFrame.withinSquare (Spec.pos na) SpecFrame.maxDecorationRadius k /\
    SpecFrame.frameContainsDisc vb k.
Proof.
  intros Hne Hd Hn Hin.
  pose proof (drawing_wide _ Hd) as Hw.
  rewrite layout64_agree in * by assumption.
  apply frame_contains_decorations_exact;
    [exact Hne | apply (wide_finite2d _ Hw) | exact Hin].
Qed.

Lemma C5_frame_contains_decorations_witness :
  SpecFrame.frameContainsSquare (Lewis.viewBox (Lewis64.layout Examples.bent))
    (Spec.pos (Spec.scaled 12 Examples.bentO)) SpecFrame.maxDecorationRadius /\
  forall k,
    In k (Lewis.atomDiscs true true (Spec.scaled 12 Examples.bentO)) ->
    SpecFrame.frameContainsDisc (Lewis.viewBox (Lewis64.layout Examples.bent)) k.
Proof.
  assert (Hin : In (Spec.scaled 12 Examples.bentO)
                   (Lewis.normalizedAtoms (Lewis64.layout Examples.bent))).
  { rewrite layout64_agree by (exact bent_wide || exact bent_arraySized).
    rewrite bent_normalized. left. reflexivity. }
  assert (Hne : atoms Examples.bent <> []) by discriminate.
  destruct (C5_frame_contains_decorations Examples.bent true true
              (Spec.scaled 12 Examples.bentO) Hne bent_drawing bent_arraySized Hin)
    as (_ & Hsq & Hk).
  split; [exact Hsq |]. intros k Hkin. apply (Hk k Hkin).
Defined.

(** C5 as stated fails: the two atoms of [remotePair] have the finite raw
    coordinate 10^308; times the scale 60 it leaves the range, both atoms
    are drawn at [x = Infinity], and the frame starts at [Infinity] with the
    width [NaN]: it is no rectangle that could contain anything. *)
Lemma C5_counterexample :
  atoms Samples.remotePair <> [] /\
  Forall Spec.finite2d (atoms Samples.remotePair) /\
  Lewis.boxX (Lewis.viewBox (Lewis64.layout Samples.remotePair)) = PInf /\
  Lewis.boxW (Lewis.viewBox (Lewis64.layout Samples.remotePair)) = NaN /\
  ~ SpecFrame.finiteBox (Lewis.viewBox (Lewis64.layout Samples.remotePair)) /\
  Forall (fun na => Lewis.x na = PInf /\ ~ Spec.finiteXY na)
         (Lewis.normalizedAtoms (Lewis64.layout Samples.remotePair)).
Proof.
  destruct remotePair_layout as [En Ev]. rewrite En, Ev.
  cbn [Lewis.boxX Lewis.boxW].
  split; [discriminate |].
  split; [repeat constructor |].
  split; [reflexivity |]. split; [reflexivity |].
  split.
  - intros (H & _). exact H.
  - repeat constructor; cbn [Lewis.x]; intros (H & _); exact H.
Qed.

(** ** Bonds of length zero *)

Lemma spatial_inv (b : R) (v : Three.Vector3) :
  Range.spatial b v ->
  exists s1 s2 s3 : R,
    v = Spec3D.vec3 s1 s2 s3 /\
    - b <= s1 <= b /\ - b <= s2 <= b /\ - b <= s3 <= b.
Proof.
  destruct v as [x y z]. intros (Hx & Hy & Hz). cbn [Three.vx Three.vy Three.vz] in *.
  apply within_inv in Hx, Hy, Hz. cbn [val] in *.
  destruct Hx as [Ex Hx], Hy as [Ey Hy], Hz as [Ez Hz].
  exists (val x), (val y), (val z). unfold Spec3D.vec3.
  rewrite <- Ex, <- Ey, <- Ez. auto.
Qed.

(** C6 (amended): for a bond whose two atoms resolve and sit at the same
    place, with coordinates at most 10^100 in magnitude and a tolerance of
    the library between 2^-52 and 1, the planar engine draws no line, and
    every cylinder the spatial engine builds is finite, of height 0 and
    with the identity orientation. *)
Theorem C6_zero_length_bond (eps : R) (data : MoleculeData) (bond : Bond)
  (a b : Atom) :
  / 2 ^ 52 <= eps <= 1 ->
  index (atoms data) (source bond) = Some a ->
  index (atoms data) (target bond) = Some b ->
  (Forall (Range.planar Range.wide) (atoms data) ->
   Range.arraySized (bonds data) ->
   x2d a = x2d b -> y2d a = y2d b ->
   Lewis64.bondLines (Lewis.normalizedAtoms (Lewis64.layout data)) bond = []) /\
  (Range.spatial Range.wide (Mol3D.position3d a) ->
   Mol3D.position3d a = Mol3D.position3d b ->
   Forall (fun m => Spec3D.finiteMesh m /\
                    Mol3D.height m = Fin 0 /\
                    Mol3D.quaternion m = Spec3D.quat 0 0 0 1)
          (Mol3D64.bondMeshes (Fin eps) (atoms data) bond)).
Proof.
  intros Heps Ha Hb. split.
  - intros Hw Hn Hx Hy. rewrite layout_bondLines64_agree by assumption.
    apply (bondLines_zero_length data bond a b); try assumption.
    apply (wide_finite2d _ Hw).
  - intros Hs Hp. unfold Mol3D64.bondMeshes. rewrite Ha, Hb, <- Hp.
    destruct (spatial_inv _ _ Hs) as (s1 & s2 & s3 & E & H1 & H2 & H3).
    rewrite E.
    assert (Hz : Spec3D.norm (s1 - s1) (s2 - s2) (s3 - s3) = 0)
      by apply zero_diff_norm.
    destruct (bond64_agree eps s1 s2 s3 s1 s2 s3 (order bond) Heps
                H1 H2 H3 H1 H2 H3 (or_introl Hz))
      as (_ & _ & _ & _ & _ & _ & _ & _ & _ & Em).
    rewrite Em. apply BondMesh_zero_length. lra.
Qed.

Lemma overlap_wide : Forall (Range.planar Range.wide) (atoms Examples.overlap).
Proof.
  unfold Range.planar, Range.wide.
  repeat constructor; cbn [Range.within x2d y2d Examples.overlapA
                           Examples.overlapB Examples.mkAtom]; lra.
Qed.

Lemma C6_zero_length_bond_witness :
  Lewis64.bondLines (Lewis.normalizedAtoms (Lewis64.layout Examples.overlap))
                    Examples.overlapBond = [] /\
  Forall (fun m => Spec3D.finiteMesh m /\
                   Mol3D.height m = Fin 0 /\
                   Mol3D.quaternion m = Spec3D.quat 0 0 0 1)
         (Mol3D64.bondMeshes Three.Number_EPSILON (atoms Examples.overlap)
            Examples.overlapBond).
Proof.
  destruct (C6_zero_length_bond (/ 2 ^ 52) Examples.overlap Examples.overlapBond
              Examples.overlapA Examples.overlapB
              (conj (Rle_refl _) Number_EPSILON_le_1)
              eq_refl eq_refl) as [H2 H3].
  split.
  - apply H2; [exact overlap_wide | | reflexivity | reflexivity].
    unfold Range.arraySized.
    cbn [bonds Examples.overlap Examples.mkData List.length INR]. lra.
  - apply H3; [| reflexivity].
    unfold Range.spatial, Range.wide.
    cbn [Mol3D.position3d Examples.overlapA Examples.mkAtom x3d y3d z3d
         Three.vx Three.vy Three.vz Range.within].
    repeat split; lra.
Defined.

Lemma mul64_PInf_fin (y : R) : 0 < y -> (PInf * Fin y)%js64 = PInf.
Proof.
  intros Hy. unfold JS64.mul. cbn [JS.mul]. unfold JS.signed_inf.
  destruct (Rlt_dec 0 y) as [_ | N]; [reflexivity | contradiction].
Qed.

(** C6 as stated fails: the two atoms of [remotePair] sit at the same
    place, with the finite coordinate 10^308.  In the plane both are
    drawn at [x = Infinity], the length of the bond is [NaN], the test
    [len < 1] fails and a line with [Infinity] at both ends is drawn; in
    space the midpoint is at [x = Infinity], where the cylinder is put. *)
Lemma C6_counterexample :
  index (atoms Samples.remotePair) (source Samples.remoteBond)
  = Some Samples.remoteA /\
  index (atoms Samples.remotePair) (target Samples.remoteBond)
  = Some Samples.remoteB /\
  Spec.finite2d Samples.remoteA /\ Spec.finite3d Samples.remoteA /\
  x2d Samples.remoteA = x2d Samples.remoteB /\
  y2d Samples.remoteA = y2d Samples.remoteB /\
  Mol3D.position3d Samples.remoteA = Mol3D.position3d Samples.remoteB /\
  Lewis64.bondLines (Lewis.normalizedAtoms (Lewis64.layout Samples.remotePair))
                    Samples.remoteBond
  = [ {| Lewis.x1 := PInf; Lewis.y1 := Fin (0 * 60);
         Lewis.x2 := PInf; Lewis.y2 := Fin (0 * 60) |} ] /\
  map (fun m => Three.vx (Mol3D.position m))
      (Mol3D64.bondMeshes Three.Number_EPSILON (atoms Samples.remotePair)
         Samples.remoteBond)
  = [ PInf ].
Proof.
  split; [reflexivity |]. split; [reflexivity |].
  split; [split; exact I |]. split; [repeat split |].
  split; [reflexivity |]. split; [reflexivity |]. split; [reflexivity |].
  split.
  - rewrite (proj1 remotePair_layout).
    unfold Lewis64.bondLines.
    change (index _ (source Samples.remoteBond))
      with (Some {| Lewis.atom := Samples.remoteA; Lewis.x := PInf;
                    Lewis.y := Fin (0 * 60) |}).
    change (index _ (target Samples.remoteBond))
      with (Some {| Lewis.atom := Samples.remoteB; Lewis.x := PInf;
                    Lewis.y := Fin (0 * 60) |}).
    cbn [Lewis.x Lewis.y]. cbv zeta.
    rewrite sub64_PInf_PInf, mul64_NaN, add64_NaN.
    reflexivity.
  - unfold Mol3D64.bondMeshes.
    change (index _ (source Samples.remoteBond)) with (Some Samples.remoteA).
    change (index _ (target Samples.remoteBond)) with (Some Samples.remoteB).
    unfold Mol3D64.BondMesh. cbv zeta.
    change (order Samples.remoteBond =? 1)%Z with true.
    cbn [map Mol3D.cylinder Mol3D.position].
    unfold Three64.multiplyScalar, Three64.addVectors.
    cbn [Three.vx Mol3D.position3d Samples.remoteA Samples.remoteB x3d].
    const64. rewrite mul64_PInf_fin by lra. reflexivity.
Qed.

(** ** The cylinders of a bond *)



(** *** A bond that points almost straight down *)






(** *** A bond 10^200 long *)







(** * Further properties of the engines within the range *)

(** ** The planar layout *)

(** X2: when the raw coordinates are at most 10^100 in magnitude and the
    bonds form an array, the scale is a number strictly between 0 and 60000
    and every normalized coordinate is finite. *)
Theorem X2_scale_bounded (data : MoleculeData) :
  Forall (Range.planar Range.wide) (atoms data) ->
  Range.arraySized (bonds data) ->
  exists s : R,
    Lewis64.scale (atoms data) (bonds data) = Fin s /\ 0 < s < 60000 /\
    Forall Spec.finiteXY (Lewis.normalizedAtoms (Lewis64.layout data)).
Proof.
  intros Hw Hn. rewrite scale64_agree, layout64_agree by assumption.
  apply scale_bounded_exact, (wide_finite2d _ Hw).
Qed.

Lemma X2_scale_bounded_witness :
  exists s : R,
    Lewis64.scale (atoms Examples.tiny) (bonds Examples.tiny) = Fin s /\
    0 < s < 60000 /\
    Forall Spec.finiteXY (Lewis.normalizedAtoms (Lewis64.layout Examples.tiny)).
Proof. apply (X2_scale_bounded Examples.tiny tiny_wide tiny_arraySized). Defined.

(** X3: when the raw coordinates are at most 10^100 in magnitude and the
    bonds form an array, the layout multiplies by a positive number: an
    atom that is not right of (not below) another one raw is not right of
    (not below) it normalized, two atoms drawn strictly apart along an axis
    are raw atoms strictly apart along it, in the same order, and atoms at
    the same raw place are drawn at the same place. *)
Theorem X3_layout_keeps_order (data : MoleculeData) (a b : Atom) :
  Forall (Range.planar Range.wide) (atoms data) ->
  Range.arraySized (bonds data) ->
  In a (atoms data) -> In b (atoms data) ->
  let sc := Lewis64.scale (atoms data) (bonds data) in
  let na := Lewis64.scaleAtom sc a in
  let nb := Lewis64.scaleAtom sc b in
  In na (Lewis.normalizedAtoms (Lewis64.layout data)) /\
  In nb (Lewis.normalizedAtoms (Lewis64.layout data)) /\
  (val (x2d a) <= val (x2d b) -> val (Lewis.x na) <= val (Lewis.x nb)) /\
  (val (y2d a) <= val (y2d b) -> val (Lewis.y na) <= val (Lewis.y nb)) /\
  (val (Lewis.x na) < val (Lewis.x nb) -> val (x2d a) < val (x2d b)) /\
  (val (Lewis.y na) < val (Lewis.y nb) -> val (y2d a) < val (y2d b)) /\
  (Spec.raw2d a = Spec.raw2d b -> Spec.pos na = Spec.pos nb).
Proof.
  intros Hw Hn Ha Hb.
  pose proof (layout_keeps_order_exact data a b (wide_finite2d _ Hw) Ha Hb) as H.
  pose proof (layout_keeps_order_exact data b a (wide_finite2d _ Hw) Hb Ha) as H'.
  cbv zeta in H, H'. cbv zeta.
  rewrite layout64_agree, scale64_agree by assumption.
  pose proof (scale_spec _ (wide_finite2d _ Hw) (bonds data)) as Es.
  pose proof (scaleFactor_bounds (atoms data) (bonds data)) as Hs.
  rewrite Es in *.
  rewrite Forall_forall in Hw.
  rewrite !scaleAtom64_agree by auto.
  destruct H as (Ia & Ib & Hx & Hy & He).
  destruct H' as (_ & _ & Hx' & Hy' & _).
  split; [exact Ia |]. split; [exact Ib |].
  split.
  { intros L. apply Rnot_lt_le. intros G. apply Hx' in G. lra. }
  split.
  { intros L. apply Rnot_lt_le. intros G. apply Hy' in G. lra. }
  split; [apply Hx |]. split; [apply Hy |]. apply He.
Qed.

Lemma X3_layout_keeps_order_witness :
  val (x2d Examples.bentH2) <= val (x2d Examples.bentH1) /\
  val (Lewis.x (Lewis64.scaleAtom
                  (Lewis64.scale (atoms Examples.bent) (bonds Examples.bent))
                  Examples.bentH2))
  <= val (Lewis.x (Lewis64.scaleAtom
                     (Lewis64.scale (atoms Examples.bent) (bonds Examples.bent))
                     Examples.bentH1)).
Proof.
  assert (H : val (x2d Examples.bentH2) <= val (x2d Examples.bentH1)).
  { cbn [Examples.bentH1 Examples.bentH2 Examples.mkAtom x2d val]. lra. }
  split; [exact H |].
  apply (X3_layout_keeps_order Examples.bent Examples.bentH2 Examples.bentH1).
  - exact bent_wide.
  - exact bent_arraySized.
  - right; right; left; reflexivity.
  - right; left; reflexivity.
  - exact H.
Defined.

(** X5: for a non-empty atom list whose raw coordinates are at most 10^6 in
    magnitude, with an array of bonds, on each of the four sides of the
    frame some normalized atom centre lies the padding 40 inside it, and the
    frame is at least 80 wide and 80 high. *)
Theorem X5_frame_tight (data : MoleculeData) :
  atoms data <> [] ->
  Forall (Range.planar Range.drawing) (atoms data) ->
  Range.arraySized (bonds data) ->
  let vb := Lewis.viewBox (Lewis64.layout data) in
  let nas := Lewis.normalizedAtoms (Lewis64.layout data) in
  (exists na, In na nas /\ val (Lewis.x na) - 40 = val (Lewis.boxX vb)) /\
  (exists na, In na nas /\
     val (Lewis.x na) + 40 = val (Lewis.boxX vb) + val (Lewis.boxW vb)) /\
  (exists na, In na nas /\ val (Lewis.y na) - 40 = val (Lewis.boxY vb)) /\
  (exists na, In na nas /\
     val (Lewis.y na) + 40 = val (Lewis.boxY vb) + val (Lewis.boxH vb)) /\
  80 <= val (Lewis.boxW vb) /\ 80 <= val (Lewis.boxH vb).
Proof.
  intros Hne Hd Hn. pose proof (drawing_wide _ Hd) as Hw.
  rewrite layout64_agree by assumption.
  apply frame_tight_exact; [exact Hne | apply (wide_finite2d _ Hw)].
Qed.

Lemma X5_frame_tight_witness :
  80 <= val (Lewis.boxW (Lewis.viewBox (Lewis64.layout Examples.bent))) /\
  80 <= val (Lewis.boxH (Lewis.viewBox (Lewis64.layout Examples.bent))).
Proof.
  assert (Hne : atoms Examples.bent <> []) by discriminate.
  destruct (X5_frame_tight Examples.bent Hne bent_drawing bent_arraySized)
    as (_ & _ & _ & _ & Hw & Hh).
  split; [exact Hw | exact Hh].
Defined.

(** X6: when the raw coordinates are at most 10^6 in magnitude and the
    bonds form an array, both ends of every line drawn for a bond are
    finite and strictly inside the frame of the layout. *)
Theorem X6_lines_inside_frame (data : MoleculeData) (bond : Bond)
  (l : Lewis.Line) :
  Forall (Range.planar Range.drawing) (atoms data) ->
  Range.arraySized (bonds data) ->
  In l (Lewis64.bondLines (Lewis.normalizedAtoms (Lewis64.layout data)) bond) ->
  Units.inBox (Lewis.viewBox (Lewis64.layout data)) (Lewis.x1 l) (Lewis.y1 l) /\
  Units.inBox (Lewis.viewBox (Lewis64.layout data)) (Lewis.x2 l) (Lewis.y2 l).
Proof.
  intros Hd Hn Hl. pose proof (drawing_wide _ Hd) as Hw.
  rewrite layout_bondLines64_agree in Hl by assumption.
  rewrite layout64_agree by assumption.
  apply (lines_inside_frame_exact data bond l (wide_finite2d _ Hw) Hl).
Qed.

Lemma X6_lines_inside_frame_witness :
  let l := {| Lewis.x1 := Fin (0 * 12); Lewis.y1 := Fin (0 * 12);
              Lewis.x2 := Fin (3 * 12); Lewis.y2 := Fin (4 * 12) |} in
  Units.inBox (Lewis.viewBox (Lewis64.layout Examples.bent))
              (Lewis.x1 l) (Lewis.y1 l).
Proof.
  intros l.
  refine (proj1 (X6_lines_inside_frame Examples.bent (Examples.mkBond 0 1 1) l
                   bent_drawing bent_arraySized _)).
  rewrite layout_bondLines64_agree by (exact bent_wide || exact bent_arraySized).
  rewrite bent_bond_line. left. reflexivity.
Defined.

(** ** The cylinders of a bond, within the range *)

Lemma scene_wide (x : R) :
  - Range.scene <= x <= Range.scene -> - Range.wide <= x <= Range.wide.
Proof. unfold Range.scene, Range.wide. lra. Qed.

(** X9: for a tolerance of the library between 2^-52 and 1 and endpoints
    with coordinates at most 1000 in magnitude that coincide or are at
    least 10^-100 apart, each cylinder built has finite placement and
    geometry, a unit quaternion, the radius 0.08, 16 radial segments, the
    distance of the endpoints as its height, and its centre at the midpoint
    or 0.15 away from it. *)
Theorem X9_spatial_bond_safe (eps : R) (start end_ : Three.Vector3) (o : Z)
  (m : Mol3D.Mesh) :
  / 2 ^ 52 <= eps <= 1 ->
  Range.spatial Range.scene start -> Range.spatial Range.scene end_ ->
  Units.dist2 end_ start = 0 \/
  Range.tiny <= sqrt (Units.dist2 end_ start) ->
  In m (Mol3D64.BondMesh (Fin eps) start end_ o) ->
  let mid :=
    Three64.multiplyScalar (Three64.addVectors start end_) (Fin (1 / 2)) in
  Spec3D.finiteMesh m /\ Spec3D.unitQ (Mol3D.quaternion m) /\
  Mol3D.height m = Fin (sqrt (Units.dist2 end_ start)) /\
  Mol3D.radiusTop m = Fin (8 / 100) /\ Mol3D.radiusBottom m = Fin (8 / 100) /\
  Mol3D.radialSegments m = 16%Z /\
  (Units.dist2 (Mol3D.position m) mid = 0 \/
   Units.dist2 (Mol3D.position m) mid = (15 / 100) * (15 / 100)).
Proof.
  intros Heps Hs He.
  destruct (spatial_inv _ _ Hs) as (s1 & s2 & s3 & -> & S1 & S2 & S3).
  destruct (spatial_inv _ _ He) as (e1 & e2 & e3 & -> & E1 & E2 & E3).
  intros Hlen Hin.
  assert (Hn : Spec3D.norm (e1 - s1) (e2 - s2) (e3 - s3) = 0 \/
               Range.tiny <= Spec3D.norm (e1 - s1) (e2 - s2) (e3 - s3)).
  { destruct Hlen as [Z | T]; [left | right; exact T].
    unfold Units.dist2 in Z. cbn [Spec3D.vec3 Three.vx Three.vy Three.vz val] in Z.
    unfold Spec3D.norm. rewrite Z. apply sqrt_0. }
  pose proof (bond64_agree eps s1 s2 s3 e1 e2 e3 o Heps
                (scene_wide _ S1) (scene_wide _ S2) (scene_wide _ S3)
                (scene_wide _ E1) (scene_wide _ E2) (scene_wide _ E3) Hn) as H.
  cbv zeta in H.
  destruct H as (_ & _ & _ & _ & A5 & _ & _ & _ & _ & A10).
  cbv zeta. rewrite A10 in Hin. rewrite A5.
  apply (spatial_bond_safe_exact eps (Spec3D.vec3 s1 s2 s3)
           (Spec3D.vec3 e1 e2 e3) o m); [repeat split | repeat split | exact Hin].
Qed.

Lemma origin_scene : Range.spatial Range.scene Examples3D.origin.
Proof.
  unfold Range.spatial, Range.scene, Examples3D.origin, Spec3D.vec3.
  cbn [Three.vx Three.vy Three.vz Range.within]. repeat split; lra.
Qed.

Lemma alongX_scene : Range.spatial Range.scene Examples3D.alongX.
Proof.
  unfold Range.spatial, Range.scene, Examples3D.alongX, Spec3D.vec3.
  cbn [Three.vx Three.vy Three.vz Range.within]. repeat split; lra.
Qed.

Lemma alongX_apart :
  Units.dist2 Examples3D.alongX Examples3D.origin = 0 \/
  Range.tiny <= sqrt (Units.dist2 Examples3D.alongX Examples3D.origin).
Proof.
  right. unfold Units.dist2, Examples3D.alongX, Examples3D.origin, Spec3D.vec3.
  cbn [Three.vx Three.vy Three.vz val]. unfold Range.tiny.
  assert (H0 : 0 < / 10 ^ 100) by (apply Rinv_0_lt_compat; lra).
  assert (H1 : / 10 ^ 100 <= 1).
  { rewrite <- Rinv_1. apply Rinv_le_contravar; lra. }
  apply Rle_trans with 1; [exact H1 |].
  apply sqrt_ge; lra.
Qed.

Lemma X9_spatial_bond_safe_witness :
  Spec3D.unitQ
    (Three64.setFromUnitVectors Three.Number_EPSILON Mol3D.up
       (Three64.normalize
          (Three64.subVectors Examples3D.alongX Examples3D.origin))).
Proof.
  refine (proj1 (proj2
    (X9_spatial_bond_safe (/ 2 ^ 52) Examples3D.origin Examples3D.alongX 1
       (Mol3D.cylinder "1"
          (Three64.multiplyScalar
             (Three64.addVectors Examples3D.origin Examples3D.alongX)
             (Fin (1 / 2)))
          (Three64.setFromUnitVectors Three.Number_EPSILON Mol3D.up
             (Three64.normalize
                (Three64.subVectors Examples3D.alongX Examples3D.origin)))
          (Fin (8 / 100))
          (Three64.length
             (Three64.subVectors Examples3D.alongX Examples3D.origin)))
       (conj (Rle_refl _) Number_EPSILON_le_1)
       origin_scene alongX_scene alongX_apart _))).
  left. reflexivity.
Defined.

(** X10: the strands of a multiple bond.  For a tolerance of the library
    between 2^-52 and 1, endpoints with coordinates at most 1000 in
    magnitude that coincide or are at least 10^-100 apart, and every order
    other than 1, the two side cylinders sit at mirrored places about the
    midpoint, 0.30 apart: further than the two radii 0.08 together, so they
    do not touch; for an order other than 1 and 2 a third cylinder sits at
    the midpoint, 0.15 from either side cylinder, which is less than the two
    radii together. *)
Theorem X10_strand_separation (eps : R) (start end_ : Three.Vector3) (o : Z) :
  / 2 ^ 52 <= eps <= 1 ->
  Range.spatial Range.scene start -> Range.spatial Range.scene end_ ->
  Units.dist2 end_ start = 0 \/
  Range.tiny <= sqrt (Units.dist2 end_ start) ->
  o <> 1%Z ->
  let mid :=
    Three64.multiplyScalar (Three64.addVectors start end_) (Fin (1 / 2)) in
  exists m1 m2 : Mol3D.Mesh,
    (if (o =? 2)%Z then Mol3D64.BondMesh (Fin eps) start end_ o = [ m1; m2 ]
     else exists m0,
         Mol3D64.BondMesh (Fin eps) start end_ o = [ m0; m1; m2 ] /\
         Mol3D.position m0 = mid /\
         Units.dist2 (Mol3D.position m0) (Mol3D.position m1)
         = (15 / 100) * (15 / 100) /\
         Units.dist2 (Mol3D.position m0) (Mol3D.position m2)
         = (15 / 100) * (15 / 100)) /\
    Spec3D.mirrored mid (Mol3D.position m1) (Mol3D.position m2) /\
    Units.dist2 (Mol3D.position m1) (Mol3D.position m2) = (3 / 10) * (3 / 10) /\
    val (Mol3D.radiusTop m1) + val (Mol3D.radiusTop m2) < 3 / 10 /\
    15 / 100 < val (Mol3D.radiusTop m1) + val (Mol3D.radiusTop m2).
Proof.
  intros Heps Hs He.
  destruct (spatial_inv _ _ Hs) as (s1 & s2 & s3 & -> & S1 & S2 & S3).
  destruct (spatial_inv _ _ He) as (e1 & e2 & e3 & -> & E1 & E2 & E3).
  intros Hlen Ho.
  assert (Hn : Spec3D.norm (e1 - s1) (e2 - s2) (e3 - s3) = 0 \/
               Range.tiny <= Spec3D.norm (e1 - s1) (e2 - s2) (e3 - s3)).
  { destruct Hlen as [Z | T]; [left | right; exact T].
    unfold Units.dist2 in Z. cbn [Spec3D.vec3 Three.vx Three.vy Three.vz val] in Z.
    unfold Spec3D.norm. rewrite Z. apply sqrt_0. }
  pose proof (bond64_agree eps s1 s2 s3 e1 e2 e3 o Heps
                (scene_wide _ S1) (scene_wide _ S2) (scene_wide _ S3)
                (scene_wide _ E1) (scene_wide _ E2) (scene_wide _ E3) Hn) as H.
  cbv zeta in H.
  destruct H as (_ & _ & _ & _ & A5 & _ & _ & _ & _ & A10).
  cbv zeta. rewrite A10, A5.
  apply (strand_separation_exact eps (Spec3D.vec3 s1 s2 s3)
           (Spec3D.vec3 e1 e2 e3) o); [repeat split | repeat split | exact Ho].
Qed.

Lemma X10_strand_separation_witness :
  exists m1 m2 : Mol3D.Mesh,
    Mol3D64.BondMesh Three.Number_EPSILON Examples3D.origin Examples3D.alongX 2
    = [ m1; m2 ] /\
    Units.dist2 (Mol3D.position m1) (Mol3D.position m2) = (3 / 10) * (3 / 10).
Proof.
  assert (Ho : 2%Z <> 1%Z) by discriminate.
  destruct (X10_strand_separation (/ 2 ^ 52) Examples3D.origin Examples3D.alongX 2
              (conj (Rle_refl _) Number_EPSILON_le_1)
              origin_scene alongX_scene alongX_apart Ho)
    as (m1 & m2 & E & _ & Hd & _).
  exists m1, m2. split; [exact E | exact Hd].
Defined.
